(** * openmapflow: dataset validator and project generator

    A shallow embedding of [openmapflow/templates/integration_test_datasets.py]
    (the [IntegrationTestLabeledData] test class) and of the generator
    operations exercised by [tests/test_generate.py], followed by the
    properties of the specification that were checked against them.

    Conventions of the embedding:
    - a Python call that may raise is a computation in the monad [M], which
      threads the [World] (filesystem, clock, standard output) and returns
      either a value or the exception raised;
    - a pandas table is the list of its rows, its columns being the
      fields of the row type; a [dict] is an association list in
      insertion order;
    - what a feature file unpickles to is a [DataInstance] or an object of
      another class; attributes are read by name, whatever the class;
    - longitudes and latitudes are rationals (the source uses floats; only
      order and difference are used), dates are calendar days;
    - of a numpy array only the [shape] tuple is kept, since no check reads
      anything else;
    - the code the validator imports ([d.load_labels], [d.summary],
      [load_feature], [load_all_features_as_df], [get_label_timesteps]) is
      not part of it: these are parameters, functions of the disk that may
      raise;
    - [openmapflow/generate.py] is known through its tests and the
      specification only; the three generator operations below are modelled
      from them and marked as such. *)

From Stdlib Require Import List String Ascii Bool Arith ZArith QArith Lia.
From Stdlib Require Import DecimalString.
Import ListNotations.

Close Scope Q_scope.
Open Scope list_scope.
Open Scope string_scope.
Open Scope nat_scope.

(** ** Python values, exceptions and the effect monad *)

Module Py.

Inductive exn : Type :=
| FileNotFoundError
| FileExistsError
| AssertionError (msg : string)
| AttributeError
| IndexError
| KeyError
| ValueError (msg : string).

Inductive result (A : Type) : Type :=
| Ok (a : A)
| Raise (e : exn).
Arguments Ok {A} a.
Arguments Raise {A} e.

Definition is_assertion_error {A} (r : result A) : bool :=
  match r with
  | Raise (AssertionError _) => true
  | _ => false
  end.

Definition is_file_not_found (e : exn) : bool :=
  match e with
  | FileNotFoundError => true
  | _ => false
  end.

(** [str(n)] for a non-negative [int]. *)
Definition str_nat (n : nat) : string :=
  NilEmpty.string_of_uint (Nat.to_uint n).

(** [str(z)] for an [int]. *)
Definition str_Z (z : Z) : string :=
  NilZero.string_of_int (Z.to_int z).

(** [sep.join(parts)]. *)
Fixpoint join (sep : string) (parts : list string) : string :=
  match parts with
  | [] => ""
  | [p] => p
  | p :: rest => p ++ sep ++ join sep rest
  end.

(** [x in xs] for a list of strings. *)
Definition mem_str (x : string) (xs : list string) : bool :=
  existsb (String.eqb x) xs.

(** Values in order of first appearance ([Series.unique], [dict] keys). *)
Fixpoint unique_by {A} (eqb : A -> A -> bool) (xs : list A) : list A :=
  match xs with
  | [] => []
  | x :: rest => x :: filter (fun y => negb (eqb x y)) (unique_by eqb rest)
  end.

(** [d[k] = v] on a [dict]: an existing key keeps its position. *)
Fixpoint dict_set {V} (k : string) (v : V) (d : list (string * V))
  : list (string * V) :=
  match d with
  | [] => [(k, v)]
  | (k', v') :: rest =>
      if String.eqb k k' then (k, v) :: rest
      else (k', v') :: dict_set k v rest
  end.

End Py.

Export Py.

(** ** Dates: [datetime.date] and [relativedelta(months=n)] *)

Module Dates.

Record Date : Type := mkDate { year : Z; month : Z; day : Z }.

Definition is_leap (y : Z) : bool :=
  ((y mod 4 =? 0) && negb (y mod 100 =? 0) || (y mod 400 =? 0))%Z.

Definition days_in_month (y m : Z) : Z :=
  if (m =? 2)%Z then (if is_leap y then 29 else 28)%Z
  else if ((m =? 4) || (m =? 6) || (m =? 9) || (m =? 11))%Z then 30%Z
  else 31%Z.

(** [d.replace(day=1)]. *)
Definition replace_day_1 (d : Date) : Date :=
  mkDate (year d) (month d) 1.

(** [d + relativedelta(months=n)]: the month moves, the day is clipped
    to the length of the month reached. *)
Definition add_months (d : Date) (n : Z) : Date :=
  let total := (year d * 12 + (month d - 1) + n)%Z in
  let y := (total / 12)%Z in
  let m := (total mod 12 + 1)%Z in
  mkDate y m (Z.min (day d) (days_in_month y m)).

(** [a < b] on dates (and on the timestamps at midnight made of them). *)
Definition date_ltb (a b : Date) : bool :=
  ((year a <? year b)
   || ((year a =? year b)
       && ((month a <? month b)
           || ((month a =? month b) && (day a <? day b)))))%Z.

End Dates.

Export Dates.

(** ** [pathlib]: the parts of a path the validator reads *)

Module PathLib.

(** [Path(p).name]: what follows the last separator. *)
Fixpoint name_from (cur : string) (p : string) : string :=
  match p with
  | EmptyString => cur
  | String c rest =>
      if Ascii.eqb c "/" then name_from "" rest
      else name_from (cur ++ String c "") rest
  end.

Definition name (p : string) : string := name_from "" p.

(** [s.rfind(".")], counted from position [i]. *)
Fixpoint rfind_dot_from (i : nat) (s : string) : option nat :=
  match s with
  | EmptyString => None
  | String c rest =>
      match rfind_dot_from (S i) rest with
      | Some j => Some j
      | None => if Ascii.eqb c "." then Some i else None
      end
  end.

(** [Path(p).stem]: the name without its last suffix; a leading or a
    trailing dot does not start a suffix. *)
Definition stem (p : string) : string :=
  let n := name p in
  match rfind_dot_from 0 n with
  | Some i =>
      if (0 <? i) && (i <? String.length n - 1) then substring 0 i n else n
  | None => n
  end.

End PathLib.

(** ** The dataset validator: data model *)

Module Validator.

Import PathLib.

(** One row of a label table, with the columns the checks read
    ([LON], [LAT], [START], [END], [SUBSET], [FEATURE_FILENAME],
    [FEATURE_PATH], [ALREADY_EXISTS]). *)
Record Label : Type := mkLabel {
  lon : Q;
  lat : Q;
  start : Date;
  end_ : Date;
  subset : string;
  feature_filename : string;
  feature_path : string;
  already_exists : bool
}.

(** A [DataInstance]; [labelled_array] is [None] for a null array and
    otherwise the [shape] of the array. *)
Record DataInstance : Type := mkDataInstance {
  labelled_array : option (list nat);
  instance_lon : Q;
  instance_lat : Q;
  source_file : string
}.

(** What unpickling a feature file gives: a [DataInstance], or an
    object of another class.  Attributes are read by name, whatever the
    class: an object of another class either carries the attributes of a
    [DataInstance] ([NotInstance (Some i)]: its [__dict__] and its
    attributes are those of [i]) or has none of them and no [__dict__],
    like [None], a number or a string ([NotInstance None]). *)
Inductive Pickle : Type :=
| Instance (i : DataInstance)
| NotInstance (attrs : option DataInstance).

(** One row of the table of all features: the instance's attributes and
    the [filename] column. *)
Record FeatureRow : Type := mkFeatureRow {
  filename : string;
  feature : DataInstance
}.

(** The files on disk: the persisted label sources and the feature
    files. *)
Inductive Content : Type :=
| LabelSource (rows : list Label)
| FeatureFile (obj : Pickle).

Definition Disk : Type := list (string * Content).

(** [Path(p).exists()]. *)
Definition path_exists (d : Disk) (p : string) : bool :=
  existsb (fun e => String.eqb (fst e) p) d.

(** [Path(p).unlink()], the one writing operation the source mentions
    (in a comment). *)
Definition unlink (d : Disk) (p : string) : Disk :=
  filter (fun e => negb (String.eqb (fst e) p)) d.

Record World : Type := mkWorld {
  disk : Disk;
  today : Date;
  stdout : list string
}.

(** A dataset of the [datasets] list: its name and its own loading and
    summary code, which read the disk and may raise. *)
Record Dataset : Type := mkDataset {
  dataset : string;
  load_labels_of : Disk -> result (list Label);
  summary : Disk -> list Label -> result string
}.

(** The library functions the validator imports, and the renderings of
    pandas objects it prints.  A table [Ok rows] of
    [load_all_features_as_df] has the column [filename] and one column
    for each attribute of an instance, also when it has no row. *)
Record Externals : Type := mkExternals {
  load_feature : Disk -> string -> result Pickle;
  load_all_features_as_df : Disk -> result (list FeatureRow);
  get_label_timesteps : list Label -> list nat;
  filename_str_contains : list FeatureRow -> string -> list bool;
  repr_value_counts : list nat -> string;
  repr_spill_over : list (string * string * string) -> string
}.

(** *** The monad of a test method *)

Definition M (A : Type) : Type := World -> result A * World.

Definition ret {A} (a : A) : M A := fun w => (Ok a, w).

Definition bind {A B} (m : M A) (k : A -> M B) : M B :=
  fun w =>
    match m w with
    | (Ok a, w') => k a w'
    | (Raise e, w') => (Raise e, w')
    end.

Definition raise {A} (e : exn) : M A := fun w => (Raise e, w).

(** A call that reads the disk. *)
Definition read {A} (f : Disk -> result A) : M A :=
  fun w => (f (disk w), w).

(** A pure expression that may raise. *)
Definition lift {A} (r : result A) : M A := fun w => (r, w).

Definition get_disk : M Disk := fun w => (Ok (disk w), w).

(** [date.today()]. *)
Definition date_today : M Date := fun w => (Ok (today w), w).

Definition print (s : string) : M unit :=
  fun w => (Ok tt, mkWorld (disk w) (today w) (stdout w ++ [s])%list).

(** [try: m  except FileNotFoundError: h]. *)
Definition try_except_FileNotFoundError {A} (m h : M A) : M A :=
  fun w =>
    match m w with
    | (Raise e, w') =>
        if is_file_not_found e then h w' else (Raise e, w')
    | r => r
    end.

Declare Scope py_scope.
Delimit Scope py_scope with py.
Notation "x <- m ;; k" := (bind m (fun x => k))
  (at level 61, m at next level, right associativity) : py_scope.
Notation "m ;;; k" := (bind m (fun _ => k))
  (at level 61, right associativity) : py_scope.
Open Scope py_scope.

(** [for x in xs: s = body(x, s)]. *)
Fixpoint for_each {A S} (xs : list A) (body : A -> S -> M S) (s : S) : M S :=
  match xs with
  | [] => ret s
  | x :: rest => s' <- body x s ;; for_each rest body s'
  end.

(** [series.apply(f)] for an [f] that may raise. *)
Fixpoint apply_M {A B} (f : A -> M B) (xs : list A) : M (list B) :=
  match xs with
  | [] => ret []
  | x :: rest => y <- f x ;; ys <- apply_M f rest ;; ret (y :: ys)
  end.

Definition assertTrue (b : bool) (msg : string) : M unit :=
  if b then ret tt else raise (AssertionError msg).

Definition run {A} (m : M A) (w : World) : result A := fst (m w).

Definition passes (m : M unit) (w : World) : Prop := run m w = Ok tt.

(** The test fails: an [AssertionError] reaches the runner. *)
Definition fails (m : M unit) (w : World) : Prop :=
  is_assertion_error (run m w) = true.

(** *** Attribute and shape access *)

(** [feat.__dict__] and [f.instance_lon]: the attributes of the object,
    read with no test of its class; an object without them raises. *)
Definition as_instance (p : Pickle) : result DataInstance :=
  match p with
  | Instance i => Ok i
  | NotInstance (Some i) => Ok i
  | NotInstance None => Raise AttributeError
  end.

(** [isinstance(feat, DataInstance)]. *)
Definition is_instance (p : Pickle) : bool :=
  match p with
  | Instance _ => true
  | NotInstance _ => false
  end.

(** [shape[-1]]. *)
Definition shape_last (shape : list nat) : result nat :=
  match rev shape with
  | [] => Raise IndexError
  | n :: _ => Ok n
  end.

(** [shape[0]]. *)
Definition shape_first (shape : list nat) : result nat :=
  match shape with
  | [] => Raise IndexError
  | n :: _ => Ok n
  end.

(** [f.shape[0]] on a column entry that may be null. *)
Definition array_shape_first (a : option (list nat)) : result nat :=
  match a with
  | None => Raise AttributeError
  | Some shape => shape_first shape
  end.

(** The entries of the [labelled_array] column that are not null. *)
Fixpoint non_null (arrays : list (option (list nat))) : list (list nat) :=
  match arrays with
  | [] => []
  | Some shape :: rest => shape :: non_null rest
  | None :: rest => non_null rest
  end.

Definition list_nat_eqb (a b : list nat) : bool :=
  if list_eq_dec Nat.eq_dec a b then true else false.

Definition repr_list_nat (l : list nat) : string :=
  "[" ++ join ", " (map str_nat l) ++ "]".

Definition tab : string := String (ascii_of_nat 9) "".

(** The marks U+2714 and U+2716, in UTF-8. *)
Definition check_mark : string :=
  String (ascii_of_nat 226) (String (ascii_of_nat 156) (String (ascii_of_nat 148) "")).
Definition cross_mark : string :=
  String (ascii_of_nat 226) (String (ascii_of_nat 156) (String (ascii_of_nat 150) "")).

(** *** Table operations *)

Definition same_coordinates (a b : Q * Q) : bool :=
  Qeq_bool (fst a) (fst b) && Qeq_bool (snd a) (snd b).

(** [labels[SUBSET].value_counts()]: every subset tag with the number of
    rows that carry it (pandas orders them by count; the order plays no
    part in the check). *)
Definition count_subset (s : string) (labels : list Label) : nat :=
  List.length (filter (fun l => String.eqb (subset l) s) labels).

Definition value_counts_subset (labels : list Label) : list (string * nat) :=
  map (fun s => (s, count_subset s labels))
      (unique_by String.eqb (map subset labels)).

(** [labels[labels[SUBSET] == s][ALREADY_EXISTS].sum()]. *)
Definition features_in_subset (s : string) (labels : list Label) : nat :=
  List.length (filter already_exists
                 (filter (fun l => String.eqb (subset l) s) labels)).

Definition set_already_exists (b : bool) (l : Label) : Label :=
  mkLabel (lon l) (lat l) (start l) (end_ l) (subset l)
          (feature_filename l) (feature_path l) b.

(** The guarded assignment of [test_label_feature_subset_amounts]:
    when the column is not all true it is replaced, in the loaded table,
    by the existence of each feature path. *)
Definition refresh_already_exists (d : Disk) (labels : list Label)
  : list Label :=
  if negb (forallb already_exists labels)
  then map (fun l => set_already_exists (path_exists d (feature_path l)) l)
           labels
  else labels.

(** [df.duplicated(subset=key)]: a row is marked when an earlier row has
    the same key. *)
Fixpoint duplicated_from {A K} (key : A -> K) (eqb : K -> K -> bool)
         (seen : list K) (rows : list A) : list A :=
  match rows with
  | [] => []
  | r :: rest =>
      if existsb (eqb (key r)) seen
      then r :: duplicated_from key eqb (key r :: seen) rest
      else duplicated_from key eqb (key r :: seen) rest
  end.

Definition feature_key (r : FeatureRow) : Q * Q * string :=
  (instance_lon (feature r), instance_lat (feature r), source_file (feature r)).

Definition feature_key_eqb (a b : Q * Q * string) : bool :=
  same_coordinates (fst a) (fst b) && String.eqb (snd a) (snd b).

(** [df.duplicated(subset=[LON, LAT], keep=False)]: every row whose
    coordinates occur more than once. *)
Definition label_coordinates (r : string * Label) : Q * Q :=
  (lon (snd r), lat (snd r)).

Definition duplicated_keep_false (rows : list (string * Label))
  : list (string * Label) :=
  filter (fun r =>
            2 <=? List.length (filter (fun r' => same_coordinates
                                             (label_coordinates r)
                                             (label_coordinates r')) rows))
         rows.

(** [groupby([LON, LAT], sort=False)]: the groups in order of first
    appearance, each with its rows in table order. *)
Definition groupby_coordinates (rows : list (string * Label))
  : list (list (string * Label)) :=
  map (fun c => filter (fun r => same_coordinates c (label_coordinates r)) rows)
      (unique_by same_coordinates (map label_coordinates rows)).

(** The three aggregated columns of one group. *)
Definition aggregate_group (g : list (string * Label))
  : string * string * string :=
  (join "," (unique_by String.eqb (map fst g)),
   join "," (unique_by String.eqb (map (fun r => subset (snd r)) g)),
   join "," (map (fun r => str_Z (year (start (snd r)))) g)).

(** [pd.concat(dfs)]. *)
Definition concat {A} (dfs : list (list A)) : result (list A) :=
  match dfs with
  | [] => Raise (ValueError "No objects to concatenate")
  | _ => Ok (List.concat dfs)
  end.

(** [a == b] on two series followed by [.all()]: the series must have
    the same index. *)
Definition series_eq_all (a b : list nat) : result bool :=
  if List.length a =? List.length b
  then Ok (forallb (fun p => fst p =? snd p) (combine a b))
  else Raise (ValueError "Can only compare identically-labeled Series objects").

(** The mismatch filter of [test_features_for_closeness].  The
    difference and the comparison are exact here; the source computes
    them on binary floating-point numbers, so a difference that lies
    within rounding of the tolerance may fall on the other side
    there.  Only the printed count depends on it. *)
Definition tolerance : Q := (1 # 10000)%Q.

Definition exceeds (x : Q) : bool := negb (Qle_bool x tolerance).

(** A row is a label with its two added columns [instance_lon] and
    [instance_lat]. *)
Definition label_tif_mismatch (rows : list (Label * (Q * Q)))
  : list (Label * (Q * Q)) :=
  filter (fun r =>
            exceeds (lon (fst r) - fst (snd r))%Q
            || exceeds (lat (fst r) - snd (snd r))%Q)
         rows.

(** ** The dataset validator: the test methods *)

Section Checks.

Variable E : Externals.
Variable datasets : list Dataset.

(** One iteration of the loop of [load_labels]: a dataset whose labels
    are not found is skipped; a summary that is not found ends the
    iteration after the entry was stored. *)
Definition load_one (is_print : bool) (d : Dataset)
           (datasets_dict : list (string * list Label))
  : M (list (string * list Label)) :=
  loaded <- try_except_FileNotFoundError
              (labels <- read (load_labels_of d) ;; ret (Some labels))
              (ret None) ;;
  match loaded with
  | None => ret datasets_dict
  | Some labels =>
      let datasets_dict' := dict_set (dataset d) labels datasets_dict in
      if is_print
      then try_except_FileNotFoundError
             (s <- read (fun dk => summary d dk labels) ;; print s)
             (ret tt) ;;;
           ret datasets_dict'
      else ret datasets_dict'
  end.

Definition load_labels (is_print : bool) : M (list (string * list Label)) :=
  print "" ;;;
  for_each datasets (load_one is_print) [].

Definition load_features (labels : list Label) : M (list Pickle) :=
  apply_M (fun l => read (fun dk => load_feature E dk (feature_path l))) labels.

Definition test_features_with_no_labels : M unit :=
  datasets_dict <- load_labels false ;;
  let feature_name_list :=
    flat_map (fun e => map feature_filename (snd e)) datasets_dict in
  features_df <- read (load_all_features_as_df E) ;;
  let features_with_no_label :=
    filter (fun r => negb (mem_str (stem (filename r)) feature_name_list))
           features_df in
  let amount := List.length features_with_no_label in
  assertTrue (amount =? 0)
             ("Found " ++ str_nat amount ++ " features with no labels").

Definition test_each_pickle_file_is_data_instance : M unit :=
  datasets_dict <- load_labels false ;;
  each_pickle_file_is_data_instance <-
    for_each datasets_dict
      (fun e flag =>
         let labels := filter already_exists (snd e) in
         all_features <- load_features labels ;;
         let good_features := filter is_instance all_features in
         let same := List.length good_features =? List.length all_features in
         print ((if same then check_mark else cross_mark) ++ " " ++ fst e
                ++ " has " ++ str_nat (List.length good_features)
                ++ " features out of "
                ++ str_nat (List.length all_features) ++ ".") ;;;
         ret (if same then flag else false))
      true ;;
  assertTrue each_pickle_file_is_data_instance
             "Not all pickle files are data instances, check logs for details.".

(** The inner loop over [train_val_test_counts.items()]. *)
Definition subsets_correct_size (labels : list Label) (flag : bool) : bool :=
  fold_left
    (fun acc sc =>
       if negb (snd sc =? features_in_subset (fst sc) labels)
       then false else acc)
    (value_counts_subset labels) flag.

Definition test_label_feature_subset_amounts : M unit :=
  datasets_dict <- load_labels true ;;
  all_subsets_correct_size <-
    for_each datasets_dict
      (fun e flag =>
         dk <- get_disk ;;
         let labels := refresh_already_exists dk (snd e) in
         ret (subsets_correct_size labels flag))
      true ;;
  assertTrue all_subsets_correct_size
             "Check logs for which subsets have different sizes.".

Definition test_features_for_duplicates : M unit :=
  features_df <- read (load_all_features_as_df E) ;;
  let duplicates := duplicated_from feature_key feature_key_eqb [] features_df in
  let num_dupes := List.length duplicates in
  assertTrue (num_dupes =? 0) ("Found " ++ str_nat num_dupes ++ " duplicates").

Definition test_features_for_emptiness : M unit :=
  features_df <- read (load_all_features_as_df E) ;;
  let empty :=
    filter (fun r => match labelled_array (feature r) with
                     | None => true
                     | Some _ => false
                     end) features_df in
  let num_empty_features := List.length empty in
  assertTrue (num_empty_features =? 0)
             ("Found " ++ str_nat num_empty_features
              ++ " empty features, run create_all_features() to fix.").

Definition test_all_features_have_18_bands : M unit :=
  features_df <- read (load_all_features_as_df E) ;;
  let arrays := non_null (map (fun r => labelled_array (feature r)) features_df) in
  bands <- apply_M (fun shape => lift (shape_last shape)) arrays ;;
  let band_amount := unique_by Nat.eqb bands in
  assertTrue (list_nat_eqb band_amount [18]) "Found {band_amount} bands".

Definition test_all_features_start_with_january_first : M unit :=
  features_df <- read (load_all_features_as_df E) ;;
  let starts_with_jan_first := filename_str_contains E features_df "_01_01" in
  assertTrue (forallb (fun b => b) starts_with_jan_first)
             "Not all features start with January 1st".

Definition test_label_and_feature_ranges_match : M unit :=
  datasets_dict <- load_labels false ;;
  all_label_and_feature_ranges_match <-
    for_each datasets_dict
      (fun e flag =>
         let labels := filter already_exists (snd e) in
         if List.length labels =? 0 then ret flag else
         features <- load_features labels ;;
         features_df <- apply_M (fun f => lift (as_instance f)) features ;;
         feature_month_amount <-
           apply_M (fun i => lift (array_shape_first (labelled_array i)))
                   features_df ;;
         let label_month_amount := get_label_timesteps E labels in
         same <- lift (series_eq_all feature_month_amount label_month_amount) ;;
         print ((if same then check_mark else cross_mark) ++ " " ++ fst e
                ++ " label " ++ repr_value_counts E label_month_amount
                ++ " and feature " ++ repr_value_counts E feature_month_amount
                ++ " ranges " ++ (if same then "match" else "mismatch")) ;;;
         ret (if same then flag else false))
      true ;;
  assertTrue all_label_and_feature_ranges_match
             "Check logs for which subsets have different sizes.".

Definition test_labels_have_start_before_end_date : M unit :=
  datasets_dict <- load_labels false ;;
  all_labels_have_consistent_dates <-
    for_each datasets_dict
      (fun e flag =>
         let consistent_dates :=
           map (fun l => date_ltb (start l) (end_ l)) (snd e) in
         let same := forallb (fun b => b) consistent_dates in
         print ((if same then check_mark else cross_mark) ++ " " ++ fst e
                ++ " label has "
                ++ (if same then "consistent dates"
                    else str_nat (List.length (filter negb consistent_dates))
                         ++ " inconsistent dates")) ;;;
         ret (if same then flag else false))
      true ;;
  assertTrue all_labels_have_consistent_dates
             "Check logs for which labels have inconsistent dates.".

(** The labels [test_all_older_features_have_24_months] keeps. *)
Definition two_years_before_cutoff (t : Date) : Date :=
  let current_cutoff_date := add_months (replace_day_1 t) (-3) in
  add_months current_cutoff_date (-24).

Definition older_labels (t : Date) (labels : list Label) : list Label :=
  filter (fun l => already_exists l
                   && date_ltb (start l) (two_years_before_cutoff t))
         labels.

(** The body of the loop of [test_all_older_features_have_24_months]
    for one dataset. *)
Definition older_features_of_dataset (t : Date) (e : string * list Label)
           (flag : bool) : M bool :=
  let labels := older_labels t (snd e) in
  if List.length labels =? 0 then ret flag else
  features <- load_features labels ;;
  features_df <- apply_M (fun f => lift (as_instance f)) features ;;
  let arrays := non_null (map labelled_array features_df) in
  steps <- apply_M (fun shape => lift (shape_first shape)) arrays ;;
  let month_amount := unique_by Nat.eqb steps in
  let same := list_nat_eqb month_amount [24] in
  print ((if same then check_mark else cross_mark) ++ " " ++ fst e
         ++ " " ++ tab ++ tab ++ repr_list_nat month_amount) ;;;
  ret (if same then flag else false).

Definition test_all_older_features_have_24_months : M unit :=
  t <- date_today ;;
  datasets_dict <- load_labels false ;;
  all_older_features_have_24_months <-
    for_each datasets_dict (older_features_of_dataset t) true ;;
  assertTrue all_older_features_have_24_months
             "Not all older features have 24 months, check logs.".

(** The body of the loop of [test_features_for_closeness] for one
    dataset; the running total comes back as it went in. *)
Definition closeness_of_dataset (e : string * list Label)
           (total_num_mismatched : nat) : M nat :=
  let labels := filter already_exists (snd e) in
  if List.length labels =? 0
  then print ("\ " ++ fst e ++ ":" ++ tab ++ tab ++ "No features") ;;;
       ret total_num_mismatched
  else
  features <- load_features labels ;;
  instance_lons <-
    apply_M (fun f => i <- lift (as_instance f) ;; ret (instance_lon i))
            features ;;
  instance_lats <-
    apply_M (fun f => i <- lift (as_instance f) ;; ret (instance_lat i))
            features ;;
  let num_mismatched :=
    List.length
      (label_tif_mismatch
         (combine labels (combine instance_lons instance_lats))) in
  print ((if 0 <? num_mismatched then cross_mark else check_mark)
         ++ " " ++ fst e ++ ":" ++ tab ++ tab ++ "Mismatches: "
         ++ str_nat num_mismatched) ;;;
  ret total_num_mismatched.

Definition test_features_for_closeness : M unit :=
  datasets_dict <- load_labels false ;;
  total_num_mismatched <- for_each datasets_dict closeness_of_dataset 0 ;;
  assertTrue (total_num_mismatched =? 0)
             ("Found " ++ str_nat total_num_mismatched
              ++ " mismatched labels+tifs.").

Definition test_label_coordinate_duplication : M unit :=
  datasets_dict <- load_labels false ;;
  let all_dfs :=
    map (fun e => map (fun l => (fst e, l)) (snd e)) datasets_dict in
  big_df <- lift (concat all_dfs) ;;
  let duplicates := duplicated_keep_false big_df in
  let df := map aggregate_group (groupby_coordinates duplicates) in
  print "------------------------------------------------------" ;;;
  print "Label coordinate spill over" ;;;
  print "------------------------------------------------------" ;;;
  print (repr_spill_over E df).

(** The twelve checks of the class. *)
Definition all_checks : list (M unit) :=
  [ test_features_with_no_labels;
    test_each_pickle_file_is_data_instance;
    test_label_feature_subset_amounts;
    test_features_for_duplicates;
    test_features_for_emptiness;
    test_all_features_have_18_bands;
    test_all_features_start_with_january_first;
    test_label_and_feature_ranges_match;
    test_labels_have_start_before_end_date;
    test_all_older_features_have_24_months;
    test_features_for_closeness;
    test_label_coordinate_duplication ].

End Checks.

(** *** The deletion kept in a comment

    [test_label_and_feature_ranges_match] carries, in a comment, code
    that unlinks the feature file of every label whose month amounts
    differ.  No check calls it; it is embedded here only to compare. *)

(** [Path(p).unlink()]. *)
Definition unlink_path (p : string) : M unit :=
  fun w =>
    if path_exists (disk w) p
    then (Ok tt, mkWorld (unlink (disk w) p) (today w) (stdout w))
    else (Raise FileNotFoundError, w).

Definition delete_mismatched (labels : list Label)
           (feature_month_amount label_month_amount : list nat) : M unit :=
  let rows := combine labels (combine feature_month_amount label_month_amount) in
  let mismatched :=
    filter (fun r => negb (fst (snd r) =? snd (snd r))) rows in
  for_each mismatched (fun r _ => unlink_path (feature_path (fst r))) tt.

End Validator.

(** ** The project generator *)

Module Generate.

(** *** Strings: [in] and [str.replace] *)

(** [sub in s]. *)
Fixpoint contains (sub s : string) : bool :=
  prefix sub s
  || match s with
     | EmptyString => false
     | String _ rest => contains sub rest
     end.

(** [s.replace(old, new)] for a non-empty [old]: the occurrences are
    taken from the left and do not overlap; [skip] counts the characters
    of a matched occurrence still to be passed over. *)
Fixpoint replace_from (old new : string) (skip : nat) (s : string) : string :=
  match s with
  | EmptyString => EmptyString
  | String c rest =>
      match skip with
      | S k => replace_from old new k rest
      | O =>
          if prefix old s
          then new ++ replace_from old new (String.length old - 1) rest
          else String c (replace_from old new 0 rest)
      end
  end.

(** With an empty [old], [new] goes before every character and at the
    end. *)
Fixpoint intersperse (new s : string) : string :=
  match s with
  | EmptyString => new
  | String c rest => new ++ String c (intersperse new rest)
  end.

Definition replace (old new s : string) : string :=
  match old with
  | EmptyString => intersperse new s
  | _ => replace_from old new 0 s
  end.

(** *** Files of the generator *)

(** Text files by path. *)
Definition Files : Type := list (string * string).

Fixpoint read_text (fs : Files) (p : string) : result string :=
  match fs with
  | [] => Raise FileNotFoundError
  | (q, content) :: rest =>
      if String.eqb p q then Ok content else read_text rest p
  end.

Definition write_text (fs : Files) (p content : string) : Files :=
  dict_set p content fs.

Definition PREFIX : string := "<PREFIX>".
Definition PATHS : string := "<PATHS>".
Definition CD : string := "<CD>".

Definition has_placeholders (s : string) : bool :=
  contains PREFIX s || contains PATHS s || contains CD s.

(** Modelled from the spec: [fill_in_and_write_action] of
    [openmapflow/generate.py] is not among the sources; the spec has it
    read the template, replace the tokens [<PREFIX>], [<PATHS>], [<CD>] by
    the caller's strings, write the result to the destination, and
    assert that the tokens were there before and are gone after. *)
Definition fill_in_and_write_action (fs : Files)
           (src_yml_path dest_yml_path sub_prefix sub_paths sub_cd : string)
  : result Files :=
  match read_text fs src_yml_path with
  | Raise e => Raise e
  | Ok content =>
      if negb (contains PREFIX content && contains PATHS content
               && contains CD content)
      then Raise (AssertionError "placeholder missing from the template")
      else
        let content :=
          replace CD sub_cd
            (replace PATHS sub_paths (replace PREFIX sub_prefix content)) in
        if has_placeholders content
        then Raise (AssertionError "placeholder left in the result")
        else Ok (write_text fs dest_yml_path content)
  end.

(** A template cut into plain text and placeholder tokens. *)
Inductive token : Type := TPrefix | TPaths | TCd.

Definition token_str (k : token) : string :=
  match k with
  | TPrefix => PREFIX
  | TPaths => PATHS
  | TCd => CD
  end.

Definition token_eqb (a b : token) : bool :=
  match a, b with
  | TPrefix, TPrefix | TPaths, TPaths | TCd, TCd => true
  | _, _ => false
  end.

Inductive chunk : Type :=
| Text (t : string)
| Tok (k : token).

Definition chunk_str (c : chunk) : string :=
  match c with
  | Text t => t
  | Tok k => token_str k
  end.

Fixpoint flatten (cs : list chunk) : string :=
  match cs with
  | [] => ""
  | c :: rest => chunk_str c ++ flatten rest
  end.

(** The character [<] does not occur in [s]. *)
Fixpoint no_lt (s : string) : bool :=
  match s with
  | EmptyString => true
  | String c rest => negb (Ascii.eqb c "<") && no_lt rest
  end.

Definition plain (c : chunk) : bool :=
  match c with
  | Text t => no_lt t
  | Tok _ => true
  end.

(** [s] is made of text without [<] and of placeholder tokens: every
    [<] of [s] opens a placeholder. *)
Definition only_placeholders_open (s : string) : Prop :=
  exists cs, s = flatten cs /\ forallb plain cs = true.

Definition fill (k : token) (new : string) (c : chunk) : chunk :=
  match c with
  | Tok k' => if token_eqb k k' then Text new else Tok k'
  | Text t => Text t
  end.

(** *** Git root *)

(** A path is the list of its parts below the filesystem root; the
    directory tree is the list of the directories that exist. *)
Definition Path : Type := list string.

Definition Tree : Type := list Path.

Definition path_eqb (a b : Path) : bool :=
  if list_eq_dec string_dec a b then true else false.

Definition is_dir (t : Tree) (p : Path) : bool := existsb (path_eqb p) t.

(** [(p / ".git").exists()]. *)
Definition has_git (t : Tree) (p : Path) : bool := is_dir t (p ++ [".git"])%list.

(** The walk towards the root, on the parts in reverse: the parent is
    the tail. *)
Fixpoint walk_up (t : Tree) (rparts : list string) : result Path :=
  if has_git t (rev rparts) then Ok (rev rparts)
  else match rparts with
       | [] => Raise FileExistsError
       | _ :: up => walk_up t up
       end.

(** Modelled from the spec: [get_git_root] of [openmapflow/generate.py]
    is not among the sources; the spec has it walk upward from the given
    path looking for a [.git] directory and fail with a not-found error
    when there is none up to the filesystem root ([FileExistsError] in
    [test_get_git_root]). *)
Definition get_git_root (t : Tree) (given_path : Path) : result Path :=
  walk_up t (rev given_path).

(** [q] is [p] or one of its ancestors. *)
Definition ancestor_or_self (q p : Path) : Prop := exists rest, p = (q ++ rest)%list.

(** *** Data versioning *)

Record DataPaths : Type := mkDataPaths {
  RAW_LABELS : string;
  PROCESSED_LABELS : string;
  MODELS : string;
  FEATURES : string;
  COMPRESSED_FEATURES : string
}.

(** The two questions put to the operator. *)
Inductive Prompt : Type := ChooseBackend | RemoteId.

(** The terminal: the operator's answers, and the command strings handed
    to [os.system], oldest first. *)
Record Terminal : Type := mkTerminal {
  operator : Prompt -> string;
  system_calls : list string
}.

Definition Sh (A : Type) : Type := Terminal -> A * Terminal.

Definition sh_ret {A} (a : A) : Sh A := fun t => (a, t).

Definition sh_bind {A B} (m : Sh A) (k : A -> Sh B) : Sh B :=
  fun t => let (a, t') := m t in k a t'.

(** [input(prompt)]. *)
Definition input (p : Prompt) : Sh string := fun t => (operator t p, t).

(** [os.system(cmd)]; the exit status is not looked at. *)
Definition os_system (cmd : string) : Sh unit :=
  fun t => (tt, mkTerminal (operator t) (system_calls t ++ [cmd])%list).

Declare Scope sh_scope.
Delimit Scope sh_scope with sh.
Notation "x <- m ;; k" := (sh_bind m (fun x => k))
  (at level 61, m at next level, right associativity) : sh_scope.
Notation "m ;;; k" := (sh_bind m (fun _ => k))
  (at level 61, right associativity) : sh_scope.

Section SetupDvc.

(** What [setup_dvc] does when the operator picks a backend other than
    Google Drive; the spec leaves it open. *)
Variable other_backend : DataPaths -> Sh unit.

Definition dvc_files (dp : DataPaths) : list string :=
  [RAW_LABELS dp; PROCESSED_LABELS dp; COMPRESSED_FEATURES dp; MODELS dp].

(** Modelled from the spec: [setup_dvc] of [openmapflow/generate.py] is
    not among the sources; the spec has it ask for the storage backend
    (Google Drive is option [a] in [test_setup_dvc]), collect the
    remote identifier, and issue [dvc init], [dvc add] with the four
    data paths, [dvc remote add -d gdrive gdrive://<id>] and
    [dvc push]. *)
Definition setup_dvc (dp : DataPaths) : Sh unit :=
  (choice <- input ChooseBackend ;;
   if String.eqb choice "a"
   then gdrive_id <- input RemoteId ;;
        os_system "dvc init" ;;;
        os_system ("dvc add " ++ join " " (dvc_files dp)) ;;;
        os_system ("dvc remote add -d gdrive gdrive://" ++ gdrive_id) ;;;
        os_system "dvc push"
   else other_backend dp)%sh.

End SetupDvc.

End Generate.

(** ** Derived notions used to state the properties *)

Module Notions.

Import Validator.

(** [map] for a function that may raise: the first exception wins. *)
Fixpoint map_result {A B} (f : A -> result B) (xs : list A) : result (list B) :=
  match xs with
  | [] => Ok []
  | x :: rest =>
      match f x with
      | Raise e => Raise e
      | Ok y =>
          match map_result f rest with
          | Raise e => Raise e
          | Ok ys => Ok (y :: ys)
          end
      end
  end.

(** A dataset either loads or is not there yet. *)
Definition loads_or_missing (dk : Disk) (d : Dataset) : Prop :=
  match load_labels_of d dk with
  | Ok _ => True
  | Raise e => is_file_not_found e = true
  end.

(** What the loop of [load_labels] stores when nothing is printed. *)
Fixpoint loaded_from (dk : Disk) (ds : list Dataset)
         (acc : list (string * list Label)) : result (list (string * list Label)) :=
  match ds with
  | [] => Ok acc
  | d :: rest =>
      match load_labels_of d dk with
      | Ok labels => loaded_from dk rest (dict_set (dataset d) labels acc)
      | Raise e => if is_file_not_found e then loaded_from dk rest acc else Raise e
      end
  end.

(** The state a test method leaves: same files, same day. *)
Definition same_files (w w' : World) : Prop :=
  disk w' = disk w /\ today w' = today w.

Definition reads_only {A} (m : M A) : Prop :=
  forall w, same_files w (snd (m w)).

(** The already-exists column as file existence gives it. *)
Definition recomputed_already_exists (dk : Disk) (labels : list Label)
  : list Label :=
  map (fun l => set_already_exists (path_exists dk (feature_path l)) l) labels.

(** Some flag of the table disagrees with the disk. *)
Definition stale (dk : Disk) (labels : list Label) : Prop :=
  exists l, In l labels /\ already_exists l <> path_exists dk (feature_path l).

(** The verdict of the inner loop of the subset-size check on one table. *)
Definition subsets_match (labels : list Label) : bool :=
  forallb (fun sc => snd sc =? features_in_subset (fst sc) labels)
          (value_counts_subset labels).

(** The non-null arrays of the features of the older labels of a
    table. *)
Definition older_arrays (E : Externals) (dk : Disk) (t : Date)
           (labels : list Label) : list (list nat) :=
  non_null
    (flat_map (fun l => match load_feature E dk (feature_path l) with
                        | Ok (Instance i) => [labelled_array i]
                        | _ => []
                        end)
              (older_labels t labels)).

(** The verdict of [test_all_older_features_have_24_months] on one
    table, computed. *)
Definition has_24_months_b (E : Externals) (dk : Disk) (t : Date)
           (labels : list Label) : bool :=
  match older_labels t labels with
  | [] => true
  | _ :: _ =>
      match map_result shape_first (older_arrays E dk t labels) with
      | Ok steps => list_nat_eqb (unique_by Nat.eqb steps) [24]
      | Raise _ => false
      end
  end.

(** The features of the older labels can be read: each is a pickled
    instance, and no array is zero-dimensional. *)
Definition older_features_readable (E : Externals) (dk : Disk) (t : Date)
           (labels : list Label) : Prop :=
  (forall l, In l (older_labels t labels) ->
             exists i, load_feature E dk (feature_path l) = Ok (Instance i))
  /\ (forall shape, In shape (older_arrays E dk t labels) -> shape <> []).

(** The cutoff as the specification words it: today minus 3 months,
    minus 24 months. *)
Definition claimed_two_years_before_cutoff (t : Date) : Date :=
  add_months (add_months t (-3)) (-24).

(** The verdict of [test_all_older_features_have_24_months] on one
    table. *)
Definition has_24_months (E : Externals) (dk : Disk) (t : Date)
           (labels : list Label) : Prop :=
  older_labels t labels = []
  \/ (older_arrays E dk t labels <> []
      /\ Forall (fun shape => shape_first shape = Ok 24)
                (older_arrays E dk t labels)).

End Notions.

(** ** Concrete worlds *)

Module Samples.

Import Validator.

Fixpoint lookup (dk : Disk) (p : string) : option Content :=
  match dk with
  | [] => None
  | (q, c) :: rest => if String.eqb p q then Some c else lookup rest p
  end.

(** A deserializer that unpickles the file at the path. *)
Definition unpickle (dk : Disk) (p : string) : result Pickle :=
  match lookup dk p with
  | Some (FeatureFile obj) => Ok obj
  | _ => Raise FileNotFoundError
  end.

(** The table of all the feature files that hold an instance.  Its
    columns are the attributes of the instances it is built from:
    without any instance the table has no column, which a list of rows
    does not express, and the first read of a column by the checks
    ([features_df["labelled_array"]]) raises [KeyError]; this stand-in
    raises it in their place. *)
Definition features_table (dk : Disk) : result (list FeatureRow) :=
  match flat_map (fun e => match snd e with
                           | FeatureFile (Instance i) =>
                               [mkFeatureRow (fst e) i]
                           | _ => []
                           end) dk with
  | [] => Raise KeyError
  | rows => Ok rows
  end.

Definition months_between (l : Label) : nat :=
  Z.to_nat (12 * (year (end_ l) - year (start l))
            + (month (end_ l) - month (start l))).

Definition externals : Externals :=
  mkExternals unpickle features_table (map months_between)
              (fun rows sub => map (fun r => Generate.contains sub (filename r)) rows)
              repr_list_nat
              (fun df => join ";" (map (fun r => fst (fst r) ++ " " ++ snd (fst r)
                                                ++ " " ++ snd r) df)).

(** A dataset kept in one label file. *)
Definition csv_dataset (name path : string) : Dataset :=
  mkDataset name
            (fun dk => match lookup dk path with
                       | Some (LabelSource rows) => Ok rows
                       | _ => Raise FileNotFoundError
                       end)
            (fun _ labels => Ok (name ++ ": " ++ str_nat (List.length labels))).

Definition kenya : Dataset := csv_dataset "Kenya" "data/processed_labels/Kenya.csv".
Definition togo : Dataset := csv_dataset "Togo" "data/processed_labels/Togo.csv".

Definition d (y m dd : Z) : Date := mkDate y m dd.

Definition label_at (x y : Q) (s : Date) (sub stem_ : string) (ex : bool) : Label :=
  mkLabel x y s (add_months s 24) sub stem_
          ("data/features/" ++ stem_ ++ ".pkl") ex.

Definition instance_at (x y : Q) (shape : option (list nat)) : DataInstance :=
  mkDataInstance shape x y "Kenya.tif".

Definition some_day : Date := d 2026 11 3.

Definition world_of (dk : Disk) : World := mkWorld dk some_day [].

(** One label of Kenya, its feature stored one degree of longitude
    away. *)
Definition far_label : Label :=
  label_at (37 # 1)%Q (1 # 1)%Q (d 2020 1 1) "training" "lat=1_lon=37_2020_01_01" true.

Definition far_world : World :=
  world_of
    [ ("data/processed_labels/Kenya.csv", LabelSource [far_label]);
      ("data/features/lat=1_lon=37_2020_01_01.pkl",
       FeatureFile (Instance (instance_at (36 # 1)%Q (1 # 1)%Q (Some [24; 18])))) ].

(** No dataset and no feature produced yet. *)
Definition empty_world : World := world_of [].

(** One label of Kenya marked as computed whose feature file is not
    there. *)
Definition stale_label : Label :=
  label_at (37 # 1)%Q (1 # 1)%Q (d 2020 1 1) "training" "lat=1_lon=37_2020_01_01" true.

Definition stale_world : World :=
  world_of [ ("data/processed_labels/Kenya.csv", LabelSource [stale_label]) ].

(** A label that starts on 2024-08-02 with a 12-month feature. *)
Definition recent_label : Label :=
  label_at (37 # 1)%Q (1 # 1)%Q (d 2024 8 2) "training" "lat=1_lon=37_2024_08_02" true.

Definition recent_world : World :=
  world_of
    [ ("data/processed_labels/Kenya.csv", LabelSource [recent_label]);
      ("data/features/lat=1_lon=37_2024_08_02.pkl",
       FeatureFile (Instance (instance_at (37 # 1)%Q (1 # 1)%Q (Some [12; 18])))) ].

(** An old label whose feature holds a null array. *)
Definition old_label : Label :=
  label_at (37 # 1)%Q (1 # 1)%Q (d 2020 1 1) "training" "lat=1_lon=37_2020_01_01" true.

Definition null_world : World :=
  world_of
    [ ("data/processed_labels/Kenya.csv", LabelSource [old_label]);
      ("data/features/lat=1_lon=37_2020_01_01.pkl",
       FeatureFile (Instance (instance_at (37 # 1)%Q (1 # 1)%Q None))) ].

(** Kenya is complete; the labels of Togo are not there yet, one of its
    features is. *)
Definition good_label : Label :=
  label_at (37 # 1)%Q (1 # 1)%Q (d 2020 1 1) "training" "lat=1_lon=37_2020_01_01" true.

Definition good_disk : Disk :=
  [ ("data/processed_labels/Kenya.csv", LabelSource [good_label]);
    ("data/features/lat=1_lon=37_2020_01_01.pkl",
     FeatureFile (Instance (instance_at (37 # 1)%Q (1 # 1)%Q (Some [24; 18])))) ].

Definition good_world : World := world_of good_disk.

Definition togo_feature : string := "data/features/lat=8_lon=1_2019_01_01.pkl".

Definition togo_missing_world : World :=
  world_of
    (good_disk ++
     [ (togo_feature,
        FeatureFile (Instance (mkDataInstance (Some [24; 18]) (1 # 1)%Q (8 # 1)%Q
                                              "Togo.tif"))) ])%list.

(** The generator: the data paths of a project, an operator who picks
    Google Drive, and a workflow template. *)
Definition data_paths : Generate.DataPaths :=
  Generate.mkDataPaths "data/raw_labels" "data/processed_labels" "data/models"
                       "data/features" "data/compressed_features.tar.gz".

Definition scripted_operator (p : Generate.Prompt) : string :=
  match p with
  | Generate.ChooseBackend => "a"
  | Generate.RemoteId => "fake-gdrive-id"
  end.

Definition deploy_template : string :=
  "name: <PREFIX>-deploy; on: push: paths: <PATHS>; run: <CD> ; openmapflow deploy".

Definition template_files : Generate.Files :=
  [("templates/deploy.yaml", deploy_template)].

End Samples.

(** ** The loops of the checks as folds *)

Module Folds.

Import Validator Notions.

(** A loop whose body is a function of the element and of the running
    state, and may raise. *)
Fixpoint fold_result {A S} (g : A -> S -> result S) (xs : list A) (s : S)
  : result S :=
  match xs with
  | [] => Ok s
  | x :: rest =>
      match g x s with
      | Ok s' => fold_result g rest s'
      | Raise e => Raise e
      end
  end.

(** What unpickling the features of the labels gives. *)
Definition pickles_of (E : Externals) (dk : Disk) (labels : list Label)
  : result (list Pickle) :=
  map_result (fun l => load_feature E dk (feature_path l)) labels.

(** [f.attr] on what was unpickled. *)
Definition attribute_of {B} (attr : DataInstance -> B) (f : Pickle) : result B :=
  match as_instance f with
  | Ok i => Ok (attr i)
  | Raise e => Raise e
  end.

(** One dataset of [test_each_pickle_file_is_data_instance]. *)
Definition pickle_step (E : Externals) (dk : Disk) (e : string * list Label)
           (flag : bool) : result bool :=
  match pickles_of E dk (filter already_exists (snd e)) with
  | Raise ex => Raise ex
  | Ok all_features =>
      Ok (if List.length (filter is_instance all_features)
             =? List.length all_features
          then flag else false)
  end.

(** One dataset of [test_features_for_closeness]. *)
Definition closeness_step (E : Externals) (dk : Disk) (e : string * list Label)
           (total : nat) : result nat :=
  let labels := filter already_exists (snd e) in
  if List.length labels =? 0 then Ok total else
  match pickles_of E dk labels with
  | Raise ex => Raise ex
  | Ok features =>
      match map_result (attribute_of instance_lon) features with
      | Raise ex => Raise ex
      | Ok _ =>
          match map_result (attribute_of instance_lat) features with
          | Raise ex => Raise ex
          | Ok _ => Ok total
          end
      end
  end.

(** One dataset of [test_label_and_feature_ranges_match]. *)
Definition ranges_step (E : Externals) (dk : Disk) (e : string * list Label)
           (flag : bool) : result bool :=
  let labels := filter already_exists (snd e) in
  if List.length labels =? 0 then Ok flag else
  match pickles_of E dk labels with
  | Raise ex => Raise ex
  | Ok features =>
      match map_result as_instance features with
      | Raise ex => Raise ex
      | Ok features_df =>
          match map_result (fun i => array_shape_first (labelled_array i))
                           features_df with
          | Raise ex => Raise ex
          | Ok feature_month_amount =>
              match series_eq_all feature_month_amount
                                  (get_label_timesteps E labels) with
              | Raise ex => Raise ex
              | Ok same => Ok (if same then flag else false)
              end
          end
      end
  end.

(** The lines [load_labels(is_print=True)] prints after the empty one:
    the summary of every dataset that loaded, when there is one. *)
Definition summary_lines (dk : Disk) (ds : list Dataset) : list string :=
  flat_map (fun d => match load_labels_of d dk with
                     | Ok labels =>
                         match summary d dk labels with
                         | Ok s => [s]
                         | Raise _ => []
                         end
                     | Raise _ => []
                     end) ds.

(** The summary of a loaded dataset is there or not found. *)
Definition summary_ok_or_missing (dk : Disk) (d : Dataset) : Prop :=
  forall labels,
    load_labels_of d dk = Ok labels ->
    match summary d dk labels with
    | Ok _ => True
    | Raise e => is_file_not_found e = true
    end.

(** The features of the labels marked already-exists are pickled
    instances whose array is there and has a first dimension. *)
Definition existing_features_have_steps (E : Externals) (dk : Disk)
           (labels : list Label) : Prop :=
  forall l, In l (filter already_exists labels) ->
    exists i n dims,
      load_feature E dk (feature_path l) = Ok (Instance i)
      /\ labelled_array i = Some (n :: dims).

(** Their numbers of time steps, label by label. *)
Definition feature_steps (E : Externals) (dk : Disk) (labels : list Label)
  : list nat :=
  flat_map (fun l => match load_feature E dk (feature_path l) with
                     | Ok (Instance i) =>
                         match labelled_array i with
                         | Some (n :: _) => [n]
                         | _ => []
                         end
                     | _ => []
                     end)
           (filter already_exists labels).

(** The table printed by [test_label_coordinate_duplication]. *)
Definition spill_over_table (rows : list (string * Label))
  : list (string * string * string) :=
  map aggregate_group (groupby_coordinates (duplicated_keep_false rows)).

(** All the rows of the loaded tables, each with the name of its
    dataset. *)
Definition named_rows (dct : list (string * list Label))
  : list (string * Label) :=
  List.concat (map (fun e => map (fun l => (fst e, l)) (snd e)) dct).

(** The feature of a label unpickles to an instance. *)
Definition instance_at_path (E : Externals) (dk : Disk) (l : Label) : bool :=
  match load_feature E dk (feature_path l) with
  | Ok (Instance _) => true
  | _ => false
  end.

(** The object carries the attributes of a [DataInstance]. *)
Definition has_attributes (p : Pickle) : bool :=
  match as_instance p with
  | Ok _ => true
  | Raise _ => false
  end.

(** The feature of a label unpickles to an object that carries them. *)
Definition attributes_at_path (E : Externals) (dk : Disk) (l : Label) : bool :=
  match load_feature E dk (feature_path l) with
  | Ok p => has_attributes p
  | Raise _ => false
  end.

(** The feature files of the labels marked already-exists can all be
    unpickled, to an instance or to something else. *)
Definition existing_features_unpickle (E : Externals) (dk : Disk)
           (dct : list (string * list Label)) : Prop :=
  forall name labels l,
    In (name, labels) dct -> In l labels -> already_exists l = true ->
    exists p, load_feature E dk (feature_path l) = Ok p.

(** The features of the labels marked already-exists are pickled
    instances whose array is null or has a first dimension. *)
Definition existing_features_are_instances (E : Externals) (dk : Disk)
           (labels : list Label) : Prop :=
  forall l, In l (filter already_exists labels) ->
    exists i, load_feature E dk (feature_path l) = Ok (Instance i)
              /\ labelled_array i <> Some [].

(** The feature of a label holds a null array. *)
Definition null_array_at_path (E : Externals) (dk : Disk) (l : Label) : bool :=
  match load_feature E dk (feature_path l) with
  | Ok (Instance i) =>
      match labelled_array i with
      | None => true
      | Some _ => false
      end
  | _ => false
  end.

(** The time steps the labels call for come one per label. *)
Definition timesteps_per_label (E : Externals) (labels : list Label) : Prop :=
  List.length (get_label_timesteps E (filter already_exists labels))
  = List.length (filter already_exists labels).

End Folds.

(** ** Further concrete worlds *)

Module Worlds.

Import Validator Samples.

(** A second dataset that also calls itself Kenya. *)
Definition kenya_again : Dataset :=
  csv_dataset "Kenya" "data/processed_labels/Kenya_2021.csv".

Definition second_label : Label :=
  label_at (38 # 1)%Q (2 # 1)%Q (d 2021 1 1) "validation" "lat=2_lon=38_2021_01_01" true.

Definition two_kenyas_world : World :=
  world_of
    [ ("data/processed_labels/Kenya.csv", LabelSource [good_label]);
      ("data/processed_labels/Kenya_2021.csv", LabelSource [second_label]) ].

(** A dataset whose label file cannot be parsed. *)
Definition broken : Dataset :=
  mkDataset "Broken" (fun _ => Raise (ValueError "malformed label file"))
            (fun _ _ => Ok "Broken").

(** The same feature stored under two file names. *)
Definition twice_world : World :=
  world_of
    [ ("data/features/lat=1_lon=37_2020_01_01.pkl",
       FeatureFile (Instance (instance_at (37 # 1)%Q (1 # 1)%Q (Some [24; 18]))));
      ("data/features/lat=1.0_lon=37.0_2020_01_01.pkl",
       FeatureFile (Instance (instance_at (37 # 1)%Q (1 # 1)%Q (Some [24; 18])))) ].

(** A feature whose array is zero-dimensional. *)
Definition scalar_world : World :=
  world_of
    [ ("data/features/lat=1_lon=37_2020_01_01.pkl",
       FeatureFile (Instance (instance_at (37 # 1)%Q (1 # 1)%Q (Some [])))) ].

(** Kenya with a feature file that holds [None]. *)
Definition corrupt_world : World :=
  world_of
    [ ("data/processed_labels/Kenya.csv", LabelSource [good_label]);
      ("data/features/lat=1_lon=37_2020_01_01.pkl",
       FeatureFile (NotInstance None)) ].

(** Kenya with a feature file that holds an object of another class
    with the attributes of the instance of [good_world]. *)
Definition lookalike_world : World :=
  world_of
    [ ("data/processed_labels/Kenya.csv", LabelSource [good_label]);
      ("data/features/lat=1_lon=37_2020_01_01.pkl",
       FeatureFile
         (NotInstance
            (Some (instance_at (37 # 1)%Q (1 # 1)%Q (Some [24; 18]))))) ].

(** Kenya with one label that ends before it starts, then Togo. *)
Definition backwards_label : Label :=
  mkLabel (37 # 1)%Q (1 # 1)%Q (d 2021 1 1) (d 2020 1 1) "training"
          "lat=1_lon=37_2021_01_01"
          "data/features/lat=1_lon=37_2021_01_01.pkl" false.

Definition togo_label : Label :=
  label_at (1 # 1)%Q (8 # 1)%Q (d 2019 1 1) "testing" "lat=8_lon=1_2019_01_01" false.

Definition backwards_world : World :=
  world_of
    [ ("data/processed_labels/Kenya.csv", LabelSource [backwards_label]);
      ("data/processed_labels/Togo.csv", LabelSource [togo_label]) ].

(** Kenya with two labels, one of them without its feature file and
    marked so. *)
Definition pending_label : Label :=
  label_at (38 # 1)%Q (2 # 1)%Q (d 2021 1 1) "training" "lat=2_lon=38_2021_01_01" false.

Definition pending_world : World :=
  world_of
    [ ("data/processed_labels/Kenya.csv", LabelSource [good_label; pending_label]);
      ("data/features/lat=1_lon=37_2020_01_01.pkl",
       FeatureFile (Instance (instance_at (37 # 1)%Q (1 # 1)%Q (Some [24; 18])))) ].

(** Kenya and Togo with a label at the same coordinates. *)
Definition shared_label : Label :=
  label_at (37 # 1)%Q (1 # 1)%Q (d 2019 1 1) "testing" "lat=1_lon=37_2019_01_01" false.

Definition shared_world : World :=
  world_of
    [ ("data/processed_labels/Kenya.csv", LabelSource [good_label]);
      ("data/processed_labels/Togo.csv", LabelSource [shared_label]) ].

End Worlds.

(** * Properties *)

(** ** The effect monad: what a computation leaves of the world *)

Module Frame.

Import Validator Notions.

Lemma same_files_refl (w : World) : same_files w w.
Proof. split; reflexivity. Qed.

Lemma same_files_trans (w1 w2 w3 : World) :
  same_files w1 w2 -> same_files w2 w3 -> same_files w1 w3.
Proof.
  intros [Hd Ht] [Hd' Ht']. split.
  - now rewrite Hd'.
  - now rewrite Ht'.
Qed.

Lemma reads_only_ret {A} (a : A) : reads_only (ret a).
Proof. intro w. apply same_files_refl. Qed.

Lemma reads_only_raise {A} (e : exn) : reads_only (@raise A e).
Proof. intro w. apply same_files_refl. Qed.

Lemma reads_only_read {A} (f : Disk -> result A) : reads_only (read f).
Proof. intro w. apply same_files_refl. Qed.

Lemma reads_only_lift {A} (r : result A) : reads_only (lift r).
Proof. intro w. apply same_files_refl. Qed.

Lemma reads_only_get_disk : reads_only get_disk.
Proof. intro w. apply same_files_refl. Qed.

Lemma reads_only_date_today : reads_only date_today.
Proof. intro w. apply same_files_refl. Qed.

Lemma reads_only_print (s : string) : reads_only (print s).
Proof. intro w. split; reflexivity. Qed.

Lemma reads_only_bind {A B} (m : M A) (k : A -> M B) :
  reads_only m -> (forall a, reads_only (k a)) -> reads_only (bind m k).
Proof.
  intros Hm Hk w. unfold bind.
  specialize (Hm w). destruct (m w) as [[a | e] w1]; simpl in *.
  - eapply same_files_trans; [exact Hm | apply Hk].
  - exact Hm.
Qed.

Lemma reads_only_try {A} (m h : M A) :
  reads_only m -> reads_only h -> reads_only (try_except_FileNotFoundError m h).
Proof.
  intros Hm Hh w. unfold try_except_FileNotFoundError.
  specialize (Hm w). destruct (m w) as [[a | e] w1]; simpl in *.
  - exact Hm.
  - destruct (is_file_not_found e); simpl.
    + eapply same_files_trans; [exact Hm | apply Hh].
    + exact Hm.
Qed.

Lemma reads_only_for_each {A S} (xs : list A) (body : A -> S -> M S) :
  (forall x s, reads_only (body x s)) ->
  forall s, reads_only (for_each xs body s).
Proof.
  intros Hbody. induction xs as [| x rest IH]; intro s; simpl.
  - apply reads_only_ret.
  - apply reads_only_bind; [apply Hbody | exact IH].
Qed.

Lemma reads_only_apply_M {A B} (f : A -> M B) (xs : list A) :
  (forall x, reads_only (f x)) -> reads_only (apply_M f xs).
Proof.
  intros Hf. induction xs as [| x rest IH]; simpl.
  - apply reads_only_ret.
  - apply reads_only_bind; [apply Hf | intro y].
    apply reads_only_bind; [exact IH | intro ys]. apply reads_only_ret.
Qed.

Lemma reads_only_assertTrue (b : bool) (msg : string) :
  reads_only (assertTrue b msg).
Proof.
  unfold assertTrue. destruct b; [apply reads_only_ret | apply reads_only_raise].
Qed.

(** One step of a frame proof: peel the outermost construct. *)
Ltac frame_step :=
  match goal with
  | |- reads_only (bind _ _) => apply reads_only_bind; [| intro]
  | |- reads_only (ret _) => apply reads_only_ret
  | |- reads_only (raise _) => apply reads_only_raise
  | |- reads_only (read _) => apply reads_only_read
  | |- reads_only (lift _) => apply reads_only_lift
  | |- reads_only get_disk => apply reads_only_get_disk
  | |- reads_only date_today => apply reads_only_date_today
  | |- reads_only (print _) => apply reads_only_print
  | |- reads_only (assertTrue _ _) => apply reads_only_assertTrue
  | |- reads_only (try_except_FileNotFoundError _ _) => apply reads_only_try
  | |- reads_only (for_each _ _ _) => apply reads_only_for_each; intros
  | |- reads_only (apply_M _ _) => apply reads_only_apply_M; intros
  | |- reads_only (if ?b then _ else _) => destruct b
  | |- reads_only (match ?x with _ => _ end) => destruct x
  end.

Ltac frame := repeat frame_step.

Lemma reads_only_load_labels (datasets : list Dataset) (is_print : bool) :
  reads_only (load_labels datasets is_print).
Proof. unfold load_labels, load_one. frame. Qed.

Lemma reads_only_load_features (E : Externals) (labels : list Label) :
  reads_only (load_features E labels).
Proof. unfold load_features. frame. Qed.

Ltac frame_check :=
  repeat first [ apply reads_only_load_labels
               | apply reads_only_load_features
               | frame_step ].

Lemma reads_only_all_checks (E : Externals) (datasets : list Dataset) :
  Forall reads_only (all_checks E datasets).
Proof.
  unfold all_checks.
  repeat (apply Forall_cons || apply Forall_nil).
  - unfold test_features_with_no_labels. frame_check.
  - unfold test_each_pickle_file_is_data_instance. frame_check.
  - unfold test_label_feature_subset_amounts. frame_check.
  - unfold test_features_for_duplicates. frame_check.
  - unfold test_features_for_emptiness. frame_check.
  - unfold test_all_features_have_18_bands. frame_check.
  - unfold test_all_features_start_with_january_first. frame_check.
  - unfold test_label_and_feature_ranges_match. frame_check.
  - unfold test_labels_have_start_before_end_date. frame_check.
  - unfold test_all_older_features_have_24_months, older_features_of_dataset.
    frame_check.
  - unfold test_features_for_closeness, closeness_of_dataset. frame_check.
  - unfold test_label_coordinate_duplication. frame_check.
Qed.

End Frame.

(** ** The validator: loading and loops *)

Module ValidatorFacts.

Import Validator Notions Frame.

Lemma apply_M_lift {A B} (f : A -> result B) (xs : list A) (w : World) :
  apply_M (fun x => lift (f x)) xs w = (map_result f xs, w).
Proof.
  induction xs as [| x rest IH]; simpl; [reflexivity |].
  unfold bind at 1. unfold lift at 1.
  destruct (f x) as [y | e]; [| reflexivity].
  unfold bind at 1. rewrite IH.
  destruct (map_result f rest); reflexivity.
Qed.

Lemma map_result_Ok {A B} (f : A -> result B) (xs : list A) (ys : list B) :
  map_result f xs = Ok ys <-> Forall2 (fun x y => f x = Ok y) xs ys.
Proof.
  revert ys. induction xs as [| x rest IH]; intros ys; simpl.
  - split; intro H.
    + injection H as <-. constructor.
    + inversion H. reflexivity.
  - destruct (f x) as [y | e] eqn:Hx.
    + destruct (map_result f rest) as [ys' | e'] eqn:Hrest.
      * split; intro H.
        -- injection H as <-. constructor; [exact Hx |]. now apply IH.
        -- inversion H as [| x0 y0 l l' Hy Hl]; subst.
           rewrite Hx in Hy. injection Hy as <-.
           apply IH in Hl. injection Hl as <-. reflexivity.
      * split; intro H; [discriminate |].
        inversion H as [| x0 y0 l l' Hy Hl]; subst.
        apply IH in Hl. discriminate.
    + split; intro H; [discriminate |].
      inversion H as [| x0 y0 l l' Hy Hl]; subst. congruence.
Qed.

Lemma In_unique_by_nat (l : list nat) (y : nat) :
  In y (unique_by Nat.eqb l) <-> In y l.
Proof.
  induction l as [| a rest IH]; simpl; [tauto |].
  rewrite filter_In, IH. split.
  - intros [H | [H _]]; auto.
  - intros [H | H]; [now left |].
    destruct (Nat.eq_dec a y) as [-> | Hne]; [now left | right].
    split; [exact H |]. apply negb_true_iff. now apply Nat.eqb_neq.
Qed.

Lemma filter_nil_iff {A} (f : A -> bool) (l : list A) :
  filter f l = [] <-> forall y, In y l -> f y = false.
Proof.
  induction l as [| a rest IH]; simpl.
  - split; [intros _ y [] | reflexivity].
  - destruct (f a) eqn:Ha.
    + split; [discriminate |]. intro H. specialize (H a (or_introl eq_refl)).
      congruence.
    + rewrite IH. split.
      * intros H y [<- | Hy]; auto.
      * intros H y Hy. apply H. now right.
Qed.

(** The distinct values are exactly [[x]] when the series is not empty
    and holds nothing but [x]. *)
Lemma unique_by_singleton (l : list nat) (x : nat) :
  unique_by Nat.eqb l = [x] <-> l <> [] /\ Forall (eq x) l.
Proof.
  destruct l as [| a rest]; simpl.
  - split; [discriminate | intros [H _]; congruence].
  - split.
    + intro H. injection H as -> Hf. split; [discriminate |].
      constructor; [reflexivity |].
      apply Forall_forall. intros y Hy.
      rewrite filter_nil_iff in Hf.
      specialize (Hf y (proj2 (In_unique_by_nat rest y) Hy)).
      apply negb_false_iff, Nat.eqb_eq in Hf. exact Hf.
    + intros [_ H]. inversion H as [| a0 l0 Ha Hrest]; subst. f_equal.
      apply filter_nil_iff. intros y Hy.
      apply (proj1 (In_unique_by_nat rest y)) in Hy.
      rewrite Forall_forall in Hrest. specialize (Hrest y Hy). subst.
      apply negb_false_iff, Nat.eqb_refl.
Qed.

Lemma list_nat_eqb_true (a b : list nat) : list_nat_eqb a b = true <-> a = b.
Proof.
  unfold list_nat_eqb. destruct (list_eq_dec Nat.eq_dec a b); split;
    congruence.
Qed.

Lemma assertTrue_run (b : bool) (msg : string) (w : World) :
  assertTrue b msg w = ((if b then Ok tt else Raise (AssertionError msg)), w).
Proof. destruct b; reflexivity. Qed.

(** A loop whose body neither raises nor breaks an invariant of the
    world computes a fold. *)
Lemma for_each_pure {A S} (inv : World -> Prop) (g : A -> S -> S)
      (xs : list A) (body : A -> S -> M S) :
  (forall x s w, In x xs -> inv w ->
                 exists w', body x s w = (Ok (g x s), w') /\ inv w') ->
  forall s w, inv w ->
    exists w', for_each xs body s w = (Ok (fold_left (fun s x => g x s) xs s), w')
               /\ inv w'.
Proof.
  induction xs as [| x rest IH]; intros Hbody s w Hw; simpl.
  - exists w. split; [reflexivity | exact Hw].
  - destruct (Hbody x s w (or_introl eq_refl) Hw) as [w1 [Hrun Hw1]].
    unfold bind. rewrite Hrun.
    apply IH; [| exact Hw1].
    intros x' s' w' Hin. apply Hbody. now right.
Qed.

(** Loading without printing. *)
Lemma for_each_load_one (ds : list Dataset) :
  forall acc w,
    exists w', for_each ds (load_one false) acc w = (loaded_from (disk w) ds acc, w')
               /\ same_files w w'.
Proof.
  induction ds as [| d rest IH]; intros acc w; simpl.
  - exists w. split; [reflexivity | apply same_files_refl].
  - unfold bind at 1. unfold load_one.
    unfold bind at 1. unfold try_except_FileNotFoundError.
    unfold bind at 1. unfold read at 1.
    destruct (load_labels_of d (disk w)) as [labels | e]; simpl.
    + apply IH.
    + destruct (is_file_not_found e); simpl; [apply IH |].
      exists w. split; [reflexivity | apply same_files_refl].
Qed.

Lemma load_labels_false (ds : list Dataset) (w : World) :
  exists w', load_labels ds false w = (loaded_from (disk w) ds [], w')
             /\ same_files w w'.
Proof.
  unfold load_labels. unfold bind, print. simpl.
  destruct (for_each_load_one ds [] (mkWorld (disk w) (today w) (stdout w ++ [""])))
    as [w' [Hrun [Hd Ht]]].
  exists w'. split; [exact Hrun | split; assumption].
Qed.

Lemma In_dict_set {V} (k : string) (v : V) (dct : list (string * V))
      (e : string * V) :
  In e (dict_set k v dct) -> e = (k, v) \/ In e dct.
Proof.
  induction dct as [| [k' v'] rest IH]; simpl.
  - intros [<- | []]. now left.
  - destruct (String.eqb k k').
    + intros [<- | H]; [now left | right; now right].
    + intros [<- | H]; [right; now left |].
      destruct (IH H) as [-> | Hin]; [now left | right; now right].
Qed.

(** Every entry of the dictionary is the table of a dataset that
    loaded. *)
Lemma loaded_from_entries (dk : Disk) (ds : list Dataset) :
  forall acc dct,
    loaded_from dk ds acc = Ok dct ->
    forall e, In e dct ->
      In e acc \/ exists d, In d ds /\ dataset d = fst e
                            /\ load_labels_of d dk = Ok (snd e).
Proof.
  induction ds as [| d rest IH]; intros acc dct Hload e He; simpl in Hload.
  - injection Hload as <-. now left.
  - destruct (load_labels_of d dk) as [labels | ex] eqn:Hd.
    + destruct (IH _ _ Hload e He) as [Hin | [d' [Hd' Hrest]]].
      * apply In_dict_set in Hin as [-> | Hin]; [| now left].
        right. exists d. simpl. auto.
      * right. exists d'. split; [now right | exact Hrest].
    + destruct (is_file_not_found ex); [| discriminate].
      destruct (IH _ _ Hload e He) as [Hin | [d' [Hd' Hrest]]];
        [now left |].
      right. exists d'. split; [now right | exact Hrest].
Qed.

(** When every dataset loads or is missing, loading does not raise. *)
Lemma loaded_from_total (dk : Disk) (ds : list Dataset) :
  (forall d, In d ds -> loads_or_missing dk d) ->
  forall acc, exists dct, loaded_from dk ds acc = Ok dct.
Proof.
  induction ds as [| d rest IH]; intros Hall acc; simpl.
  - now exists acc.
  - assert (Hd := Hall d (or_introl eq_refl)). unfold loads_or_missing in Hd.
    assert (Hrest : forall d', In d' rest -> loads_or_missing dk d')
      by (intros d' Hin; apply Hall; now right).
    destruct (load_labels_of d dk) as [labels | ex].
    + apply IH, Hrest.
    + rewrite Hd. apply IH, Hrest.
Qed.

End ValidatorFacts.

(** ** The validator: properties of the checks *)

Module ValidatorProperties.

Import Validator Notions Frame ValidatorFacts Samples.

(** C9.  Every check of the validator leaves the files on disk, that is
    the persisted label sources and the feature files, exactly as it
    found them: whatever the datasets, the results of the imported
    readers and the outcome of the check (pass, failure or error), the
    disk after the check is the disk before it.  The recomputed
    already-exists column of the subset-size check lives in the loaded
    table only, and the deletion kept in a comment is called by no
    check. *)
Theorem checks_leave_disk_unchanged
        (E : Externals) (datasets : list Dataset) (w : World) :
  Forall (fun check : M unit => disk (snd (check w)) = disk w)
         (all_checks E datasets).
Proof.
  eapply Forall_impl; [| apply reads_only_all_checks].
  intros check Hcheck. apply Hcheck.
Qed.

(** After the subset-size check, loading the labels again gives what it
    gave before: the recomputed column was never stored. *)
Lemma subset_check_then_reload (ds : list Dataset) (w : World) :
  loaded_from (disk (snd (test_label_feature_subset_amounts ds w))) ds []
  = loaded_from (disk w) ds [].
Proof.
  assert (Hreads : reads_only (test_label_feature_subset_amounts ds))
    by (unfold test_label_feature_subset_amounts; frame_check).
  destruct (Hreads w) as [Hdisk _]. now rewrite Hdisk.
Qed.

(** The deletion that the source keeps in a comment would not leave the
    disk as it is. *)
Lemma commented_deletion_changes_disk :
  disk (snd (delete_mismatched [good_label] [12] [24] good_world))
  = [ ("data/processed_labels/Kenya.csv", LabelSource [good_label]) ]
  /\ ~ reads_only (delete_mismatched [good_label] [12] [24]).
Proof.
  split; [reflexivity |].
  intro H. destruct (H good_world) as [Hdisk _]. discriminate.
Qed.

(** The bands found by [test_all_features_have_18_bands]. *)
Lemma bands_check_run (E : Externals) (w : World) (rows : list FeatureRow) :
  load_all_features_as_df E (disk w) = Ok rows ->
  run (test_all_features_have_18_bands E) w =
  match map_result shape_last
                   (non_null (map (fun r => labelled_array (feature r)) rows)) with
  | Ok bands =>
      if list_nat_eqb (unique_by Nat.eqb bands) [18] then Ok tt
      else Raise (AssertionError "Found {band_amount} bands")
  | Raise e => Raise e
  end.
Proof.
  intro Hrows. unfold run, test_all_features_have_18_bands.
  unfold bind at 1. unfold read at 1. rewrite Hrows.
  unfold bind at 1. rewrite apply_M_lift.
  destruct (map_result shape_last _) as [bands | e]; [| reflexivity].
  rewrite assertTrue_run. reflexivity.
Qed.

(** C2, as amended.  The band-count check passes if and only if there
    is at least one feature row with a non-null array and every
    non-null array has last dimension exactly 18; when the table has
    rows and none of them has a non-null array, the check fails. *)
Theorem bands_check_passes_iff
        (E : Externals) (w : World) (rows : list FeatureRow) :
  load_all_features_as_df E (disk w) = Ok rows ->
  let arrays := non_null (map (fun r => labelled_array (feature r)) rows) in
  (passes (test_all_features_have_18_bands E) w
   <-> arrays <> [] /\ Forall (fun shape => shape_last shape = Ok 18) arrays)
  /\ (rows <> [] -> arrays = [] ->
      fails (test_all_features_have_18_bands E) w).
Proof.
  intros Hrows arrays. unfold passes, fails.
  rewrite (bands_check_run E w rows Hrows). fold arrays.
  split; [| intros _ Hnone; rewrite Hnone; reflexivity].
  destruct (map_result shape_last arrays) as [bands | e] eqn:Hbands.
  - apply map_result_Ok in Hbands.
    destruct (list_nat_eqb (unique_by Nat.eqb bands) [18]) eqn:Heq.
    + apply list_nat_eqb_true, unique_by_singleton in Heq as [Hne Hall].
      split; [intros _ | reflexivity]. split.
      * intro Hnil. rewrite Hnil in Hbands. inversion Hbands. congruence.
      * clear Hne. induction Hbands as [| x y l l' Hxy Hl IH]; constructor.
        -- inversion Hall; subst. exact Hxy.
        -- apply IH. now inversion Hall.
    + split; [discriminate |]. intros [Hne Hall]. exfalso.
      assert (Htrue : list_nat_eqb (unique_by Nat.eqb bands) [18] = true).
      { apply list_nat_eqb_true, unique_by_singleton. split.
        - intro Hnil. rewrite Hnil in Hbands. inversion Hbands. congruence.
        - clear Hne Heq. induction Hbands as [| x y l l' Hxy Hl IH]; constructor.
          + inversion Hall as [| x0 l0 Hx Hrest]; subst. congruence.
          + apply IH. now inversion Hall. }
      congruence.
  - split; [discriminate |]. intros [_ Hall]. exfalso.
    clear -Hbands Hall.
    induction arrays as [| shape rest IH]; simpl in Hbands; [discriminate |].
    inversion Hall as [| x l Hx Hrest]; subst. rewrite Hx in Hbands.
    destruct (map_result shape_last rest); [discriminate |].
    now apply IH.
Qed.

Lemma bands_check_passes_iff_witness :
  load_all_features_as_df externals (disk good_world)
  = Ok [mkFeatureRow "data/features/lat=1_lon=37_2020_01_01.pkl"
                     (instance_at (37 # 1)%Q (1 # 1)%Q (Some [24; 18]))]
  /\ passes (test_all_features_have_18_bands externals) good_world.
Proof.
  split; [reflexivity |].
  apply (proj1 (bands_check_passes_iff externals good_world _ eq_refl)).
  split; [discriminate |]. repeat constructor.
Defined.

(** C2, the claim as stated fails when no feature row has a non-null
    array.  The table of [null_world] has one row, whose array is null:
    every non-null array (there is none) has 18 bands, and the check
    fails. *)
Lemma bands_check_fails_on_null_arrays :
  load_all_features_as_df externals (disk null_world)
  = Ok [mkFeatureRow "data/features/lat=1_lon=37_2020_01_01.pkl"
                     (instance_at (37 # 1)%Q (1 # 1)%Q None)]
  /\ Forall (fun shape => shape_last shape = Ok 18)
            (non_null
               (map (fun r => labelled_array (feature r))
                    [mkFeatureRow "data/features/lat=1_lon=37_2020_01_01.pkl"
                                  (instance_at (37 # 1)%Q (1 # 1)%Q None)]))
  /\ fails (test_all_features_have_18_bands externals) null_world
  /\ ~ passes (test_all_features_have_18_bands externals) null_world.
Proof.
  repeat split; try constructor. discriminate.
Qed.

(** *** The subset-size check *)

Lemma forallb_false_exists {A} (f : A -> bool) (l : list A) :
  forallb f l = false <-> exists x, In x l /\ f x = false.
Proof.
  induction l as [| a rest IH]; simpl.
  - split; [discriminate | intros [x [[] _]]].
  - destruct (f a) eqn:Ha; simpl.
    + rewrite IH. split.
      * intros [x [Hx Hf]]. exists x. auto.
      * intros [x [[<- | Hx] Hf]]; [congruence | exists x; auto].
    + split; [| reflexivity]. intros _. exists a. auto.
Qed.

Lemma In_unique_by_str (l : list string) (y : string) :
  In y (unique_by String.eqb l) <-> In y l.
Proof.
  induction l as [| a rest IH]; simpl; [tauto |].
  rewrite filter_In, IH. split.
  - intros [H | [H _]]; auto.
  - intros [H | H]; [now left |].
    destruct (string_dec a y) as [-> | Hne]; [now left | right].
    split; [exact H |]. apply negb_true_iff. now apply String.eqb_neq.
Qed.

Lemma subsets_correct_size_flag (labels : list Label) (flag : bool) :
  subsets_correct_size labels flag = flag && subsets_match labels.
Proof.
  unfold subsets_correct_size, subsets_match.
  generalize (value_counts_subset labels) as counts.
  intro counts. revert flag.
  induction counts as [| sc rest IH]; intro flag; simpl.
  - now rewrite andb_true_r.
  - rewrite IH.
    destruct (snd sc =? features_in_subset (fst sc) labels); simpl;
      [reflexivity |].
    now rewrite andb_false_r.
Qed.

Lemma fold_flags {A} (ok : A -> bool) (xs : list A) (flag : bool) :
  fold_left (fun s x => s && ok x) xs flag = flag && forallb ok xs.
Proof.
  revert flag. induction xs as [| x rest IH]; intro flag; simpl.
  - now rewrite andb_true_r.
  - rewrite IH. now rewrite andb_assoc.
Qed.

Lemma subset_unchanged_by_refresh (dk : Disk) (labels : list Label) :
  map subset (refresh_already_exists dk labels) = map subset labels.
Proof.
  unfold refresh_already_exists.
  destruct (negb (forallb already_exists labels)); [| reflexivity].
  rewrite map_map. reflexivity.
Qed.

Lemma count_subset_refresh (dk : Disk) (s : string) (labels : list Label) :
  count_subset s (refresh_already_exists dk labels) = count_subset s labels.
Proof.
  unfold count_subset, refresh_already_exists.
  destruct (negb (forallb already_exists labels)); [| reflexivity].
  induction labels as [| l rest IH]; simpl; [reflexivity |].
  destruct (String.eqb (subset l) s); simpl; now rewrite IH.
Qed.

Lemma subsets_match_true (dk : Disk) (labels : list Label) :
  subsets_match (refresh_already_exists dk labels) = true
  <-> forall s, In s (map subset labels) ->
                count_subset s labels
                = features_in_subset s (refresh_already_exists dk labels).
Proof.
  unfold subsets_match, value_counts_subset.
  rewrite forallb_forall. rewrite subset_unchanged_by_refresh. split.
  - intros H s Hs.
    specialize (H (s, count_subset s (refresh_already_exists dk labels))).
    simpl in H. rewrite count_subset_refresh in H.
    apply Nat.eqb_eq, H, in_map_iff.
    exists s. rewrite count_subset_refresh.
    split; [reflexivity |]. now apply In_unique_by_str.
  - intros H sc Hsc. apply in_map_iff in Hsc as [s [<- Hs]]. simpl.
    apply (proj1 (In_unique_by_str _ _)) in Hs.
    rewrite count_subset_refresh. apply Nat.eqb_eq, H, Hs.
Qed.

Lemma subset_check_run (ds : list Dataset) (w w' : World)
      (dct : list (string * list Label)) :
  load_labels ds true w = (Ok dct, w') ->
  run (test_label_feature_subset_amounts ds) w =
  if forallb (fun e => subsets_match (refresh_already_exists (disk w) (snd e))) dct
  then Ok tt
  else Raise (AssertionError "Check logs for which subsets have different sizes.").
Proof.
  intro Hload. unfold run, test_label_feature_subset_amounts.
  unfold bind at 1. rewrite Hload.
  assert (Hdisk : disk w' = disk w).
  { pose proof (reads_only_load_labels ds true w) as [Hd _].
    rewrite Hload in Hd. exact Hd. }
  destruct (for_each_pure
              (fun v => disk v = disk w)
              (fun e flag => flag && subsets_match
                                       (refresh_already_exists (disk w) (snd e)))
              dct
              (fun e flag =>
                 dk <- get_disk ;;
                 ret (subsets_correct_size (refresh_already_exists dk (snd e)) flag)))
    with (s := true) (w := w') as [w2 [Hrun _]].
  - intros e flag v _ Hv. exists v. split; [| exact Hv].
    unfold bind, get_disk, ret. rewrite Hv.
    now rewrite subsets_correct_size_flag.
  - exact Hdisk.
  - unfold bind at 1. rewrite Hrun. rewrite assertTrue_run.
    rewrite fold_flags. reflexivity.
Qed.

(** C4, as amended.  In the subset-size check the already-exists column
    of a dataset is recomputed from the existence of the feature files
    exactly when the stored column is not all true (a column that is all
    true is used as stored, stale or not); the check then fails exactly
    when, for some dataset and some subset tag, the number of labels of
    the subset differs from the number of them marked already-exists,
    and passes otherwise. *)
Theorem subset_check_verdict
        (ds : list Dataset) (w w' : World) (dct : list (string * list Label)) :
  load_labels ds true w = (Ok dct, w') ->
  let used labels :=
    if forallb already_exists labels then labels
    else recomputed_already_exists (disk w) labels in
  (fails (test_label_feature_subset_amounts ds) w
   <-> exists name labels s,
        In (name, labels) dct /\ In s (map subset labels)
        /\ count_subset s labels <> features_in_subset s (used labels))
  /\ (passes (test_label_feature_subset_amounts ds) w
      <-> forall name labels s,
           In (name, labels) dct -> In s (map subset labels) ->
           count_subset s labels = features_in_subset s (used labels)).
Proof.
  intros Hload used.
  assert (Hused : forall labels,
             refresh_already_exists (disk w) labels = used labels).
  { intro labels. unfold refresh_already_exists, used.
    destruct (forallb already_exists labels); reflexivity. }
  unfold fails, passes. rewrite (subset_check_run ds w w' dct Hload).
  destruct (forallb _ dct) eqn:Hall.
  - rewrite forallb_forall in Hall. split.
    + split; [discriminate |]. intros [name [labels [s [Hin [Hs Hne]]]]].
      exfalso. apply Hne. rewrite <- Hused.
      specialize (Hall _ Hin). simpl in Hall.
      now apply subsets_match_true.
    + split; [| reflexivity]. intros _ name labels s Hin Hs.
      rewrite <- Hused. specialize (Hall _ Hin). simpl in Hall.
      now apply subsets_match_true.
  - apply forallb_false_exists in Hall as [[name labels] [Hin Hbad]].
    simpl in Hbad. split.
    + split; [| reflexivity]. intros _.
      unfold subsets_match in Hbad.
      apply forallb_false_exists in Hbad as [[s n] [Hsc Hcount]].
      unfold value_counts_subset in Hsc.
      apply in_map_iff in Hsc as [s' [Heq Hs']]. injection Heq as -> <-.
      apply (proj1 (In_unique_by_str _ _)) in Hs'.
      rewrite subset_unchanged_by_refresh in Hs'. simpl in Hcount.
      apply Nat.eqb_neq in Hcount. rewrite count_subset_refresh in Hcount.
      exists name, labels, s. rewrite <- Hused. auto.
    + split; [discriminate |]. intro H. exfalso.
      assert (Htrue : subsets_match (refresh_already_exists (disk w) labels) = true).
      { apply subsets_match_true. intros s Hs. rewrite Hused. eauto. }
      congruence.
Qed.

Lemma subset_check_verdict_witness :
  load_labels [kenya] true good_world
  = (Ok [("Kenya", [good_label])],
     mkWorld good_disk some_day [""; "Kenya: 1"])
  /\ passes (test_label_feature_subset_amounts [kenya]) good_world.
Proof.
  split; [reflexivity |].
  apply (proj2 (subset_check_verdict
                  [kenya] good_world
                  (mkWorld good_disk some_day [""; "Kenya: 1"])
                  [("Kenya", [good_label])] eq_refl)).
  intros name labels s [Heq | []] Hs. injection Heq as <- <-.
  destruct Hs as [<- | []]. reflexivity.
Defined.

(** C4, the claim as stated fails on a stale column that is all true:
    the only label of Kenya is marked already-exists and its feature
    file is not on disk; the column is not recomputed, and the check
    passes, although the recomputed column would count no feature for
    the one label of the subset. *)
Lemma stale_flags_are_not_recomputed :
  stale (disk stale_world) [stale_label]
  /\ load_labels [kenya] true stale_world
     = (Ok [("Kenya", [stale_label])],
        mkWorld (disk stale_world) some_day [""; "Kenya: 1"])
  /\ refresh_already_exists (disk stale_world) [stale_label] = [stale_label]
  /\ recomputed_already_exists (disk stale_world) [stale_label] <> [stale_label]
  /\ count_subset "training" [stale_label] = 1
  /\ features_in_subset "training"
       (recomputed_already_exists (disk stale_world) [stale_label]) = 0
  /\ passes (test_label_feature_subset_amounts [kenya]) stale_world.
Proof.
  repeat split.
  - exists stale_label. split; [now left | discriminate].
  - discriminate.
Qed.

(** *** The historical-completeness check *)

Lemma apply_M_read {A B} (f : A -> Disk -> result B) (xs : list A) (w : World) :
  apply_M (fun x => read (f x)) xs w = (map_result (fun x => f x (disk w)) xs, w).
Proof.
  induction xs as [| x rest IH]; simpl; [reflexivity |].
  unfold bind at 1. unfold read at 1.
  destruct (f x (disk w)) as [y | e]; [| reflexivity].
  unfold bind at 1. rewrite IH.
  destruct (map_result _ rest); reflexivity.
Qed.

(** The distinct values of [f] over the arrays are exactly [[n]] when
    there is an array and [f] gives [n] on each. *)
Lemma uniform_iff (f : list nat -> result nat) (n : nat)
      (arrays : list (list nat)) :
  match map_result f arrays with
  | Ok values => list_nat_eqb (unique_by Nat.eqb values) [n]
  | Raise _ => false
  end = true
  <-> arrays <> [] /\ Forall (fun shape => f shape = Ok n) arrays.
Proof.
  destruct (map_result f arrays) as [values | e] eqn:Hvalues.
  - apply map_result_Ok in Hvalues.
    rewrite list_nat_eqb_true, unique_by_singleton. split.
    + intros [Hne Hall]. split.
      * intro Hnil. rewrite Hnil in Hvalues. inversion Hvalues. congruence.
      * clear Hne. induction Hvalues as [| x y l l' Hxy Hl IH]; constructor.
        -- inversion Hall; subst. exact Hxy.
        -- apply IH. now inversion Hall.
    + intros [Hne Hall]. split.
      * intro Hnil. rewrite Hnil in Hvalues. inversion Hvalues. congruence.
      * clear Hne. induction Hvalues as [| x y l l' Hxy Hl IH]; constructor.
        -- inversion Hall as [| x0 l0 Hx Hrest]; subst. congruence.
        -- apply IH. now inversion Hall.
  - split; [discriminate |]. intros [_ Hall]. exfalso.
    induction arrays as [| shape rest IH]; simpl in Hvalues; [discriminate |].
    inversion Hall as [| x l Hx Hrest]; subst. rewrite Hx in Hvalues.
    destruct (map_result f rest); [discriminate |].
    now apply IH.
Qed.

(** Features that all load as instances. *)
Lemma instances_load (E : Externals) (dk : Disk) (labels : list Label) :
  (forall l, In l labels ->
             exists i, load_feature E dk (feature_path l) = Ok (Instance i)) ->
  exists insts,
    map_result (fun l => load_feature E dk (feature_path l)) labels
    = Ok (map Instance insts)
    /\ map_result as_instance (map Instance insts) = Ok insts
    /\ flat_map (fun l => match load_feature E dk (feature_path l) with
                          | Ok (Instance i) => [labelled_array i]
                          | _ => []
                          end) labels
       = map labelled_array insts.
Proof.
  induction labels as [| l rest IH]; intro Hall.
  - exists []. repeat split.
  - destruct (Hall l (or_introl eq_refl)) as [i Hi].
    destruct IH as [insts [Hload [Hinst Hflat]]].
    { intros l' Hl'. apply Hall. now right. }
    exists (i :: insts). simpl. rewrite Hi, Hload, Hinst, Hflat.
    repeat split.
Qed.

Lemma shapes_have_first (arrays : list (list nat)) :
  (forall shape, In shape arrays -> shape <> []) ->
  exists steps, map_result shape_first arrays = Ok steps.
Proof.
  induction arrays as [| shape rest IH]; intro Hall; simpl.
  - now exists [].
  - destruct shape as [| n dims].
    + exfalso. now apply (Hall [] (or_introl eq_refl)).
    + destruct IH as [steps Hsteps].
      { intros s Hs. apply Hall. now right. }
      simpl. rewrite Hsteps. now exists (n :: steps).
Qed.

Lemma has_24_months_b_true (E : Externals) (dk : Disk) (t : Date)
      (labels : list Label) :
  has_24_months_b E dk t labels = true <-> has_24_months E dk t labels.
Proof.
  unfold has_24_months_b, has_24_months.
  destruct (older_labels t labels) as [| l rest] eqn:Holder.
  - split; [now left | reflexivity].
  - rewrite uniform_iff. split; [now right |].
    intros [H | H]; [discriminate | exact H].
Qed.

Lemma older_features_of_dataset_run
      (E : Externals) (t : Date) (e : string * list Label) (flag : bool)
      (v : World) :
  older_features_readable E (disk v) t (snd e) ->
  exists v', older_features_of_dataset E t e flag v
             = (Ok (flag && has_24_months_b E (disk v) t (snd e)), v')
             /\ disk v' = disk v.
Proof.
  intros [Hload Hshape].
  unfold older_features_of_dataset, has_24_months_b.
  unfold older_arrays in *.
  destruct (older_labels t (snd e)) as [| l rest] eqn:Holder.
  - simpl. exists v. rewrite andb_true_r. split; reflexivity.
  - rewrite <- Holder in *.
    replace (List.length (older_labels t (snd e)) =? 0) with false
      by (rewrite Holder; reflexivity).
    destruct (instances_load E (disk v) _ Hload) as [insts [Hl [Hi Hflat]]].
    rewrite Hflat in *.
    destruct (shapes_have_first _ Hshape) as [steps Hsteps].
    unfold bind at 1. unfold load_features. rewrite apply_M_read, Hl.
    unfold bind at 1. rewrite apply_M_lift, Hi.
    unfold bind at 1. rewrite apply_M_lift, Hsteps.
    unfold bind, print, ret.
    destruct (list_nat_eqb (unique_by Nat.eqb steps) [24]);
      rewrite ?andb_true_r, ?andb_false_r;
      eexists; (split; [reflexivity |]); reflexivity.
Qed.

Lemma older_features_check_run
      (E : Externals) (ds : list Dataset) (w : World)
      (dct : list (string * list Label)) :
  loaded_from (disk w) ds [] = Ok dct ->
  (forall e, In e dct -> older_features_readable E (disk w) (today w) (snd e)) ->
  run (test_all_older_features_have_24_months E ds) w =
  if forallb (fun e => has_24_months_b E (disk w) (today w) (snd e)) dct
  then Ok tt
  else Raise (AssertionError "Not all older features have 24 months, check logs.").
Proof.
  intros Hload Hread. unfold run, test_all_older_features_have_24_months.
  unfold bind at 1. unfold date_today at 1.
  destruct (load_labels_false ds w) as [w' [Hrun [Hdisk Htoday]]].
  unfold bind at 1. rewrite Hrun, Hload.
  destruct (for_each_pure
              (fun v => disk v = disk w)
              (fun e flag => flag && has_24_months_b E (disk w) (today w) (snd e))
              dct (older_features_of_dataset E (today w)))
    with (s := true) (w := w') as [w2 [Hloop _]].
  - intros e flag v He Hv.
    destruct (older_features_of_dataset_run E (today w) e flag v) as [v' [Hb Hv']].
    + rewrite Hv. now apply Hread.
    + exists v'. rewrite Hb, Hv. split; [reflexivity | congruence].
  - exact Hdisk.
  - unfold bind at 1. rewrite Hloop, assertTrue_run, fold_flags. reflexivity.
Qed.

(** C6, as amended.  The cutoff is the first day of the current month
    minus 3 months; a label is old when it is marked already-exists and
    its start date is strictly before the cutoff minus 24 months.  When
    the datasets load and the features of the old labels can be read,
    the check fails if and only if some dataset has old labels and the
    non-null arrays of their features are either absent or not all of
    exactly 24 time steps; it passes if and only if every dataset has no
    old label, or has at least one non-null array among their features
    and 24 time steps in each. *)
Theorem older_features_check_verdict
        (E : Externals) (ds : list Dataset) (w : World)
        (dct : list (string * list Label)) :
  loaded_from (disk w) ds [] = Ok dct ->
  (forall e, In e dct -> older_features_readable E (disk w) (today w) (snd e)) ->
  (fails (test_all_older_features_have_24_months E ds) w
   <-> exists name labels,
        In (name, labels) dct
        /\ older_labels (today w) labels <> []
        /\ ~ (older_arrays E (disk w) (today w) labels <> []
              /\ Forall (fun shape => shape_first shape = Ok 24)
                        (older_arrays E (disk w) (today w) labels)))
  /\ (passes (test_all_older_features_have_24_months E ds) w
      <-> forall name labels,
           In (name, labels) dct ->
           older_labels (today w) labels = []
           \/ (older_arrays E (disk w) (today w) labels <> []
               /\ Forall (fun shape => shape_first shape = Ok 24)
                         (older_arrays E (disk w) (today w) labels))).
Proof.
  intros Hload Hread. unfold fails, passes.
  rewrite (older_features_check_run E ds w dct Hload Hread).
  destruct (forallb _ dct) eqn:Hall.
  - rewrite forallb_forall in Hall.
    assert (Hgood : forall name labels, In (name, labels) dct ->
                      has_24_months E (disk w) (today w) labels).
    { intros name labels Hin. apply has_24_months_b_true.
      exact (Hall _ Hin). }
    split.
    + split; [discriminate |]. intros [name [labels [Hin [Hne Hbad]]]].
      exfalso. destruct (Hgood name labels Hin) as [H | H]; auto.
    + split; [| reflexivity]. intros _. exact Hgood.
  - apply forallb_false_exists in Hall as [[name labels] [Hin Hbad]].
    simpl in Hbad.
    assert (Hnot : ~ has_24_months E (disk w) (today w) labels).
    { intro H. apply has_24_months_b_true in H. congruence. }
    split.
    + split; [| reflexivity]. intros _. exists name, labels.
      split; [exact Hin |]. split.
      * intro Hnil. apply Hnot. now left.
      * intro H. apply Hnot. now right.
    + split; [discriminate |]. intro H. exfalso. apply Hnot.
      exact (H name labels Hin).
Qed.

Lemma days_in_month_ge_1 (y m : Z) : (1 <= days_in_month y m)%Z.
Proof.
  unfold days_in_month.
  destruct (m =? 2)%Z; [destruct (is_leap y); lia |].
  destruct ((m =? 4) || (m =? 6) || (m =? 9) || (m =? 11))%Z; lia.
Qed.

(** The date the old labels are compared with is the first day of the
    month 27 months before the current one. *)
Lemma two_years_before_cutoff_first_of_month (t : Date) :
  two_years_before_cutoff t = add_months (replace_day_1 t) (-27).
Proof.
  unfold two_years_before_cutoff, add_months, replace_day_1. simpl.
  set (total := (year t * 12 + (month t - 1) + -3)%Z).
  assert (Htotal : (total / 12 * 12 + (total mod 12 + 1 - 1) + -24
                    = year t * 12 + (month t - 1) + -27)%Z).
  { pose proof (Z.div_mod total 12 ltac:(lia)). unfold total in *. lia. }
  rewrite Htotal.
  set (total' := (year t * 12 + (month t - 1) + -27)%Z).
  pose proof (days_in_month_ge_1 (total / 12) (total mod 12 + 1)).
  pose proof (days_in_month_ge_1 (total' / 12) (total' mod 12 + 1)).
  f_equal. lia.
Qed.

Lemma older_features_check_verdict_witness :
  loaded_from (disk good_world) [kenya] [] = Ok [("Kenya", [good_label])]
  /\ passes (test_all_older_features_have_24_months externals [kenya]) good_world.
Proof.
  split; [reflexivity |].
  assert (Hread : forall e, In e [("Kenya", [good_label])] ->
                    older_features_readable externals (disk good_world)
                                            (today good_world) (snd e)).
  { intros e [<- | []]. split.
    - intros l [<- | []]. eexists. reflexivity.
    - intros shape [<- | []]. discriminate. }
  apply (proj2 (proj2 (older_features_check_verdict
                         externals [kenya] good_world
                         [("Kenya", [good_label])] eq_refl Hread))).
  intros name labels [Heq | []]. injection Heq as <- <-.
  right. split; [discriminate |]. repeat constructor.
Defined.

(** C6, the claim as stated fails in two ways.  On 2026-11-03 a label
    that starts on 2024-08-02 is more than 24 months before today minus
    3 months and its feature has 12 time steps, yet the check passes:
    the code counts from the first day of the month.  And when the only
    old label has a feature whose array is null, no feature array has a
    number of time steps other than 24, yet the check fails. *)
Lemma older_features_claim_fails :
  (today recent_world = mkDate 2026 11 3
   /\ date_ltb (start recent_label)
               (claimed_two_years_before_cutoff (today recent_world)) = true
   /\ already_exists recent_label = true
   /\ load_feature externals (disk recent_world) (feature_path recent_label)
      = Ok (Instance (instance_at (37 # 1)%Q (1 # 1)%Q (Some [12; 18])))
   /\ passes (test_all_older_features_have_24_months externals [kenya])
             recent_world)
  /\ (older_labels (today null_world) [old_label] = [old_label]
      /\ older_arrays externals (disk null_world) (today null_world) [old_label]
         = []
      /\ fails (test_all_older_features_have_24_months externals [kenya])
               null_world).
Proof. repeat split. Qed.

(** *** The coordinate-closeness check *)

Lemma apply_M_attribute {B} (attr : DataInstance -> B)
      (insts : list DataInstance) (w : World) :
  apply_M (fun f => i <- lift (as_instance f) ;; ret (attr i))
          (map Instance insts) w
  = (Ok (map attr insts), w).
Proof.
  induction insts as [| i rest IH]; simpl; [reflexivity |].
  unfold bind, lift, ret in *. simpl. rewrite IH. reflexivity.
Qed.

Lemma closeness_of_dataset_run
      (E : Externals) (e : string * list Label) (total : nat) (v : World) :
  (forall l, In l (filter already_exists (snd e)) ->
             exists i, load_feature E (disk v) (feature_path l) = Ok (Instance i)) ->
  exists v', closeness_of_dataset E e total v = (Ok total, v')
             /\ disk v' = disk v.
Proof.
  intro Hload. unfold closeness_of_dataset.
  destruct (List.length (filter already_exists (snd e)) =? 0).
  - unfold bind, print, ret. eexists. split; reflexivity.
  - destruct (instances_load E (disk v) _ Hload) as [insts [Hl _]].
    unfold bind at 1. unfold load_features. rewrite apply_M_read, Hl.
    unfold bind at 1. rewrite apply_M_attribute.
    unfold bind at 1. rewrite apply_M_attribute.
    unfold bind, print, ret. eexists. split; reflexivity.
Qed.

(** Whatever the coordinates, the closeness check passes as soon as the
    datasets load and the features of the existing labels are pickled
    instances: the total it asserts on stays 0. *)
Lemma closeness_check_passes_whatever_the_coordinates
      (E : Externals) (ds : list Dataset) (w : World)
      (dct : list (string * list Label)) :
  loaded_from (disk w) ds [] = Ok dct ->
  (forall e l, In e dct -> In l (filter already_exists (snd e)) ->
               exists i, load_feature E (disk w) (feature_path l)
                         = Ok (Instance i)) ->
  passes (test_features_for_closeness E ds) w.
Proof.
  intros Hload Hread. unfold passes, run, test_features_for_closeness.
  destruct (load_labels_false ds w) as [w' [Hrun [Hdisk Htoday]]].
  unfold bind at 1. rewrite Hrun, Hload.
  destruct (for_each_pure
              (fun v => disk v = disk w) (fun _ total => total)
              dct (closeness_of_dataset E))
    with (s := 0) (w := w') as [w2 [Hloop _]].
  - intros e total v He Hv.
    destruct (closeness_of_dataset_run E e total v) as [v' [Hb Hv']].
    + intros l Hl. rewrite Hv. now apply (Hread e).
    + exists v'. split; [exact Hb | congruence].
  - exact Hdisk.
  - unfold bind at 1. rewrite Hloop.
    assert (Hfold : forall (xs : list (string * list Label)) (n : nat),
               fold_left (fun s _ => s) xs n = n)
      by (induction xs; intro n; simpl; auto).
    rewrite Hfold. reflexivity.
Qed.

(** C1.  The label of Kenya is at longitude 37 and its feature was
    computed at longitude 36: the difference exceeds 0.0001 degrees, the
    mismatch filter keeps the row, and the check passes all the same. *)
Theorem closeness_check_misses_mismatch :
  lon far_label = (37 # 1)%Q
  /\ already_exists far_label = true
  /\ load_feature externals (disk far_world) (feature_path far_label)
     = Ok (Instance (instance_at (36 # 1)%Q (1 # 1)%Q (Some [24; 18])))
  /\ exceeds (lon far_label - (36 # 1))%Q = true
  /\ List.length
       (label_tif_mismatch [(far_label, ((36 # 1)%Q, (1 # 1)%Q))]) = 1
  /\ passes (test_features_for_closeness externals [kenya]) far_world
  /\ ~ fails (test_features_for_closeness externals [kenya]) far_world.
Proof.
  repeat split. discriminate.
Qed.

(** The mismatch filter compares the signed difference: a feature
    computed one degree east of its label is not counted. *)
Lemma mismatch_filter_is_one_sided :
  exceeds ((36 # 1) - (37 # 1))%Q = false
  /\ label_tif_mismatch [(far_label, ((38 # 1)%Q, (1 # 1)%Q))] = [].
Proof. split; reflexivity. Qed.

(** *** The coordinate-duplication report *)

Lemma duplication_report_run
      (E : Externals) (ds : list Dataset) (w : World)
      (dct : list (string * list Label)) :
  loaded_from (disk w) ds [] = Ok dct ->
  run (test_label_coordinate_duplication E ds) w =
  match dct with
  | [] => Raise (ValueError "No objects to concatenate")
  | _ :: _ => Ok tt
  end.
Proof.
  intro Hload. unfold run, test_label_coordinate_duplication.
  destruct (load_labels_false ds w) as [w' [Hrun _]].
  unfold bind at 1. rewrite Hrun, Hload.
  destruct dct as [| e rest]; reflexivity.
Qed.

(** With at least one dataset loaded the report is printed and the test
    passes. *)
Lemma duplication_report_passes_when_loaded
      (E : Externals) (ds : list Dataset) (w : World)
      (dct : list (string * list Label)) :
  loaded_from (disk w) ds [] = Ok dct -> dct <> [] ->
  passes (test_label_coordinate_duplication E ds) w.
Proof.
  intros Hload Hne. unfold passes.
  rewrite (duplication_report_run E ds w dct Hload).
  destruct dct; [congruence | reflexivity].
Qed.

(** C5.  When no dataset has been produced yet, every [load_labels]
    raises [FileNotFoundError], the dictionary is empty, and the
    duplication report ends in a [ValueError] instead of printing its
    report. *)
Theorem duplication_report_raises_without_datasets :
  load_labels_of kenya (disk empty_world) = Raise FileNotFoundError
  /\ load_labels_of togo (disk empty_world) = Raise FileNotFoundError
  /\ loaded_from (disk empty_world) [kenya; togo] [] = Ok []
  /\ test_label_coordinate_duplication externals [kenya; togo] empty_world
     = (Raise (ValueError "No objects to concatenate"),
        mkWorld [] some_day [""])
  /\ ~ passes (test_label_coordinate_duplication externals [kenya; togo])
              empty_world.
Proof. repeat split. discriminate. Qed.

(** *** The orphan-feature check *)

Lemma mem_str_true (x : string) (xs : list string) :
  mem_str x xs = true <-> In x xs.
Proof.
  unfold mem_str. rewrite existsb_exists. split.
  - intros [y [Hy Heq]]. apply String.eqb_eq in Heq. now subst.
  - intro H. exists x. split; [exact H | apply String.eqb_refl].
Qed.

Lemma orphan_check_run
      (E : Externals) (ds : list Dataset) (w : World)
      (dct : list (string * list Label)) (rows : list FeatureRow) :
  loaded_from (disk w) ds [] = Ok dct ->
  load_all_features_as_df E (disk w) = Ok rows ->
  let feature_name_list := flat_map (fun e => map feature_filename (snd e)) dct in
  let amount :=
    List.length
      (filter (fun r => negb (mem_str (PathLib.stem (filename r)) feature_name_list))
              rows) in
  run (test_features_with_no_labels E ds) w =
  if amount =? 0 then Ok tt
  else Raise (AssertionError
                ("Found " ++ str_nat amount ++ " features with no labels")).
Proof.
  intros Hload Hrows names amount.
  unfold run, test_features_with_no_labels.
  destruct (load_labels_false ds w) as [w' [Hrun [Hdisk _]]].
  unfold bind at 1. rewrite Hrun, Hload.
  unfold bind at 1. unfold read at 1. rewrite Hdisk, Hrows.
  rewrite assertTrue_run. reflexivity.
Qed.

(** C10.  When the labels of a dataset are not found, the dataset is
    skipped: every filename of the union of referenced stems comes from
    a dataset that did load.  A feature file whose stem none of the
    loaded datasets references (one that belongs to the skipped dataset
    only) is then an orphan, and the orphan-feature check fails. *)
Theorem orphan_check_fails_for_skipped_dataset
        (E : Externals) (ds : list Dataset) (w : World) (d : Dataset)
        (rows : list FeatureRow) (r : FeatureRow) :
  (forall d', In d' ds -> loads_or_missing (disk w) d') ->
  In d ds ->
  load_labels_of d (disk w) = Raise FileNotFoundError ->
  load_all_features_as_df E (disk w) = Ok rows ->
  In r rows ->
  (forall d' labels,
      In d' ds -> load_labels_of d' (disk w) = Ok labels ->
      ~ In (PathLib.stem (filename r)) (map feature_filename labels)) ->
  exists dct,
    run (load_labels ds false) w = Ok dct
    /\ (forall name labels,
           In (name, labels) dct ->
           exists d', In d' ds /\ d' <> d
                      /\ load_labels_of d' (disk w) = Ok labels)
    /\ ~ In (PathLib.stem (filename r))
            (flat_map (fun e => map feature_filename (snd e)) dct)
    /\ fails (test_features_with_no_labels E ds) w.
Proof.
  intros Hall Hd Hmissing Hrows Hr Honly.
  destruct (loaded_from_total (disk w) ds Hall []) as [dct Hload].
  assert (Hentries : forall name labels,
             In (name, labels) dct ->
             exists d', In d' ds /\ d' <> d
                        /\ load_labels_of d' (disk w) = Ok labels).
  { intros name labels Hin.
    destruct (loaded_from_entries (disk w) ds [] dct Hload _ Hin)
      as [[] | [d' [Hd' [_ Hok]]]].
    exists d'. repeat split; [exact Hd' | | exact Hok].
    intros ->. simpl in Hok. congruence. }
  assert (Hnot : ~ In (PathLib.stem (filename r))
                    (flat_map (fun e => map feature_filename (snd e)) dct)).
  { intro Hin. apply in_flat_map in Hin as [[name labels] [He Hstem]].
    destruct (Hentries name labels He) as [d' [Hd' [_ Hok]]].
    exact (Honly d' labels Hd' Hok Hstem). }
  exists dct. repeat split.
  - unfold run. destruct (load_labels_false ds w) as [w' [Hrun _]].
    rewrite Hrun. exact Hload.
  - exact Hentries.
  - exact Hnot.
  - unfold fails. rewrite (orphan_check_run E ds w dct rows Hload Hrows).
    match goal with
    | |- context [List.length ?l =? 0] =>
        assert (Hlen : List.length l <> 0)
    end.
    { intro Hlen. apply length_zero_iff_nil in Hlen.
      rewrite filter_nil_iff in Hlen. specialize (Hlen r Hr).
      apply negb_false_iff, mem_str_true in Hlen. contradiction. }
    apply Nat.eqb_neq in Hlen. rewrite Hlen. reflexivity.
Qed.

Lemma orphan_check_fails_for_skipped_dataset_witness :
  load_labels_of togo (disk togo_missing_world) = Raise FileNotFoundError
  /\ fails (test_features_with_no_labels externals [kenya; togo])
           togo_missing_world.
Proof.
  split; [reflexivity |].
  destruct (orphan_check_fails_for_skipped_dataset
              externals [kenya; togo] togo_missing_world togo
              [ mkFeatureRow "data/features/lat=1_lon=37_2020_01_01.pkl"
                             (instance_at (37 # 1)%Q (1 # 1)%Q (Some [24; 18]));
                mkFeatureRow togo_feature
                             (mkDataInstance (Some [24; 18]) (1 # 1)%Q (8 # 1)%Q
                                             "Togo.tif") ]
              (mkFeatureRow togo_feature
                            (mkDataInstance (Some [24; 18]) (1 # 1)%Q (8 # 1)%Q
                                            "Togo.tif")))
    as [dct [_ [_ [_ Hfails]]]].
  - intros d' [<- | [<- | []]]; vm_compute; reflexivity.
  - right. now left.
  - reflexivity.
  - reflexivity.
  - right. now left.
  - intros d' labels [<- | [<- | []]] Hload; vm_compute in Hload.
    + injection Hload as <-. intros [Heq | []]. vm_compute in Heq. discriminate.
    + discriminate.
  - exact Hfails.
Defined.

End ValidatorProperties.

(** ** The generator: properties *)

Module GenerateProperties.

Import Generate.

(** *** Git root *)

Lemma walk_up_step (t : Tree) (rparts : list string) :
  walk_up t rparts =
  if has_git t (rev rparts) then Ok (rev rparts)
  else match rparts with
       | [] => Raise FileExistsError
       | _ :: up => walk_up t up
       end.
Proof. destruct rparts; reflexivity. Qed.

Lemma walk_up_not_found (t : Tree) (rparts : list string) :
  (forall q, ancestor_or_self q (rev rparts) -> has_git t q = false) ->
  walk_up t rparts = Raise FileExistsError.
Proof.
  induction rparts as [| c up IH]; intro Hnone; rewrite walk_up_step.
  - rewrite (Hnone (rev [])); [reflexivity |]. exists []. now rewrite app_nil_r.
  - rewrite (Hnone (rev (c :: up))).
    + apply IH. intros q [rest Hq]. apply Hnone.
      exists (rest ++ [c])%list. simpl. rewrite Hq. now rewrite app_assoc.
    + exists []. now rewrite app_nil_r.
Qed.

Lemma walk_up_found (t : Tree) (d : Path) :
  has_git t d = true ->
  forall rrest,
    (forall mid tail, rev rrest = (mid ++ tail)%list -> mid <> [] ->
                      has_git t (d ++ mid)%list = false) ->
    walk_up t (rrest ++ rev d)%list = Ok d.
Proof.
  intros Hd. induction rrest as [| c up IH]; intro Hbetween;
    rewrite walk_up_step.
  - simpl. rewrite rev_involutive, Hd. reflexivity.
  - replace (rev ((c :: up) ++ rev d)%list) with (d ++ rev (c :: up))%list
      by (rewrite rev_app_distr, rev_involutive; reflexivity).
    rewrite (Hbetween (rev (c :: up)) []).
    + simpl. apply IH. intros mid tail Hsplit Hne.
      apply (Hbetween mid (tail ++ [c])%list); [| exact Hne].
      simpl. rewrite Hsplit. now rewrite app_assoc.
    + now rewrite app_nil_r.
    + simpl. intro H. apply app_eq_nil in H as [_ H]. discriminate.
Qed.

(** C3.  Looking for the git root from a directory none of whose
    ancestors (itself included) holds a [.git] directory raises the
    not-found error; looking for it from a directory below a
    [.git]-marked directory, with no marked directory in between,
    returns the marked directory. *)
Theorem git_root_lookup (t : Tree) :
  (forall p,
      (forall q, ancestor_or_self q p -> has_git t q = false) ->
      get_git_root t p = Raise FileExistsError)
  /\ (forall d rest,
         has_git t d = true ->
         (forall mid tail, rest = (mid ++ tail)%list -> mid <> [] ->
                           has_git t (d ++ mid)%list = false) ->
         get_git_root t (d ++ rest)%list = Ok d).
Proof.
  split.
  - intros p Hnone. unfold get_git_root. apply walk_up_not_found.
    now rewrite rev_involutive.
  - intros d rest Hd Hbetween. unfold get_git_root.
    rewrite rev_app_distr. apply walk_up_found; [exact Hd |].
    now rewrite rev_involutive.
Qed.

Lemma git_root_lookup_witness :
  get_git_root [["tmp"; "work"; "subdir"]] ["tmp"; "work"]
  = Raise FileExistsError
  /\ get_git_root [["tmp"; "work"; ".git"]; ["tmp"; "work"; "subdir"]]
                  ["tmp"; "work"; "subdir"]
     = Ok ["tmp"; "work"].
Proof.
  split.
  - apply (proj1 (git_root_lookup [["tmp"; "work"; "subdir"]])).
    intros q [rest Hq].
    destruct q as [| a [| b [| c q]]]; try reflexivity.
    + simpl in Hq. injection Hq as <-. reflexivity.
    + simpl in Hq. injection Hq as <- <-. reflexivity.
    + simpl in Hq. destruct q; discriminate.
  - apply (proj2 (git_root_lookup
                    [["tmp"; "work"; ".git"]; ["tmp"; "work"; "subdir"]])
                 ["tmp"; "work"] ["subdir"]); [reflexivity |].
    intros mid tail Hsplit Hne.
    destruct mid as [| a mid]; [congruence |].
    injection Hsplit as <- Htail.
    destruct mid; [reflexivity | discriminate].
Defined.

(** *** Data versioning *)

(** C7.  When the operator chooses Google Drive, [setup_dvc] hands
    exactly four command strings to the shell, in this order:
    [dvc init]; [dvc add] followed by the raw labels, processed labels,
    compressed features and models paths joined by spaces;
    [dvc remote add -d gdrive gdrive://<id>] with the identifier the
    operator gave; [dvc push]. *)
Theorem setup_dvc_commands
        (other_backend : DataPaths -> Sh unit) (dp : DataPaths) (t : Terminal) :
  operator t ChooseBackend = "a" ->
  system_calls (snd (setup_dvc other_backend dp t))
  = (system_calls t ++
     [ "dvc init";
       ("dvc add " ++ RAW_LABELS dp ++ " " ++ PROCESSED_LABELS dp ++ " "
                   ++ COMPRESSED_FEATURES dp ++ " " ++ MODELS dp)%string;
       ("dvc remote add -d gdrive gdrive://" ++ operator t RemoteId)%string;
       "dvc push" ])%list.
Proof.
  intro Hchoice. unfold setup_dvc, sh_bind, input, os_system. simpl.
  rewrite Hchoice. simpl.
  repeat rewrite <- app_assoc. reflexivity.
Qed.

Lemma setup_dvc_commands_witness :
  system_calls
    (snd (setup_dvc (fun _ => sh_ret tt) Samples.data_paths
                    (mkTerminal Samples.scripted_operator [])))
  = [ "dvc init";
      "dvc add data/raw_labels data/processed_labels data/compressed_features.tar.gz data/models";
      "dvc remote add -d gdrive gdrive://fake-gdrive-id";
      "dvc push" ].
Proof.
  apply (setup_dvc_commands (fun _ => sh_ret tt) Samples.data_paths
                            (mkTerminal Samples.scripted_operator [])).
  reflexivity.
Defined.

(** *** Workflow templating *)

Lemma prefix_app (s rest : string) : prefix s (s ++ rest) = true.
Proof.
  induction s as [| c s IH]; simpl; [destruct rest; reflexivity |].
  destruct (ascii_dec c c); [exact IH | congruence].
Qed.

Lemma contains_step (sub s : string) :
  contains sub s =
  prefix sub s || match s with
                  | EmptyString => false
                  | String _ rest => contains sub rest
                  end.
Proof. destruct s; reflexivity. Qed.

Lemma contains_app (sub a b : string) : contains sub (a ++ sub ++ b) = true.
Proof.
  induction a as [| c a IH]; simpl.
  - rewrite contains_step, prefix_app. reflexivity.
  - rewrite IH. apply orb_true_r.
Qed.

Lemma no_lt_app (a b : string) :
  no_lt (a ++ b) = no_lt a && no_lt b.
Proof.
  induction a as [| c a IH]; simpl; [reflexivity |].
  now rewrite IH, andb_assoc.
Qed.

Lemma not_lt_prefix (c : ascii) (old s : string) :
  Ascii.eqb c "<" = false -> prefix (String "<" old) (String c s) = false.
Proof.
  intro Hc.
  change (prefix (String "<" old) (String c s))
    with (match ascii_dec "<" c with
          | left _ => prefix old s
          | right _ => false
          end).
  destruct (ascii_dec "<" c) as [<- | _]; [discriminate | reflexivity].
Qed.

(** A string without [<] contains no string that starts with [<]. *)
Lemma no_lt_contains (old s : string) :
  no_lt s = true -> contains (String "<" old) s = false.
Proof.
  induction s as [| c s IH]; intro Hs.
  - reflexivity.
  - simpl in Hs. apply andb_true_iff in Hs as [Hc Hs].
    apply negb_true_iff in Hc.
    change (contains (String "<" old) (String c s))
      with (prefix (String "<" old) (String c s) || contains (String "<" old) s).
    now rewrite (not_lt_prefix c old s Hc), (IH Hs).
Qed.

Lemma token_str_lt (k : token) : exists old, token_str k = String "<" old.
Proof. destruct k; eexists; reflexivity. Qed.

Lemma replace_token (k : token) (new s : string) :
  replace (token_str k) new s = replace_from (token_str k) new 0 s.
Proof. destruct k; reflexivity. Qed.

Lemma replace_from_text (k : token) (new t rest : string) :
  no_lt t = true ->
  replace_from (token_str k) new 0 (t ++ rest)
  = t ++ replace_from (token_str k) new 0 rest.
Proof.
  destruct (token_str_lt k) as [old Hold]. rewrite Hold.
  induction t as [| c t IH]; intro Ht; [reflexivity |].
  simpl in Ht. apply andb_true_iff in Ht as [Hc Ht].
  apply negb_true_iff in Hc.
  change (replace_from (String "<" old) new 0 (String c t ++ rest))
    with (if prefix (String "<" old) (String c (t ++ rest))
          then new ++ replace_from (String "<" old) new
                                   (String.length (String "<" old) - 1)
                                   (t ++ rest)
          else String c (replace_from (String "<" old) new 0 (t ++ rest))).
  rewrite (not_lt_prefix c old _ Hc), (IH Ht). reflexivity.
Qed.

Lemma replace_from_same_token (k : token) (new rest : string) :
  replace_from (token_str k) new 0 (token_str k ++ rest)
  = new ++ replace_from (token_str k) new 0 rest.
Proof.
  pose proof (prefix_app (token_str k) rest) as Hprefix.
  destruct k; cbn [token_str PREFIX PATHS CD append replace_from] in *;
    rewrite Hprefix; reflexivity.
Qed.

Lemma replace_from_token (k k' : token) (new rest : string) :
  replace_from (token_str k) new 0 (token_str k' ++ rest)
  = chunk_str (fill k new (Tok k')) ++ replace_from (token_str k) new 0 rest.
Proof.
  destruct (token_eqb k k') eqn:Hk.
  - assert (k = k') as <- by (destruct k, k'; try discriminate; reflexivity).
    simpl fill. rewrite Hk. apply replace_from_same_token.
  - simpl fill. rewrite Hk. destruct k, k'; try discriminate; reflexivity.
Qed.

(** On a template whose [<] all open placeholders, [str.replace] of a
    placeholder rewrites the chunks one by one. *)
Lemma replace_flatten (k : token) (new : string) (cs : list chunk) :
  forallb plain cs = true ->
  replace (token_str k) new (flatten cs) = flatten (map (fill k new) cs).
Proof.
  rewrite replace_token.
  induction cs as [| c cs IH]; intro Hplain.
  - reflexivity.
  - simpl in Hplain. apply andb_true_iff in Hplain as [Hc Hcs].
    destruct c as [t | k']; simpl flatten; simpl map.
    + simpl chunk_str. rewrite (replace_from_text k new t _ Hc), (IH Hcs).
      reflexivity.
    + simpl (chunk_str (Tok k')). rewrite replace_from_token, (IH Hcs).
      simpl flatten. reflexivity.
Qed.

Lemma plain_fill (k : token) (new : string) (cs : list chunk) :
  no_lt new = true -> forallb plain cs = true ->
  forallb plain (map (fill k new) cs) = true.
Proof.
  intros Hnew. induction cs as [| c cs IH]; intro Hplain; [reflexivity |].
  simpl in *. apply andb_true_iff in Hplain as [Hc Hcs].
  rewrite (IH Hcs), andb_true_r.
  destruct c as [t | k']; simpl; [exact Hc |].
  destruct (token_eqb k k'); simpl; [exact Hnew | reflexivity].
Qed.

Lemma contains_text (t rest sub : string) (old : string) :
  no_lt t = true ->
  contains (String "<" old) (t ++ rest) = contains (String "<" old) rest.
Proof.
  induction t as [| c t IH]; intro Ht; [reflexivity |].
  simpl in Ht. apply andb_true_iff in Ht as [Hc Ht].
  apply negb_true_iff in Hc.
  change (contains (String "<" old) (String c t ++ rest))
    with (prefix (String "<" old) (String c (t ++ rest))
          || contains (String "<" old) (t ++ rest)).
  now rewrite (not_lt_prefix c old _ Hc), (IH Ht).
Qed.

Lemma contains_other_token (k k' : token) (rest : string) :
  token_eqb k k' = false ->
  contains (token_str k) (token_str k' ++ rest) = contains (token_str k) rest.
Proof. destruct k, k'; intro H; try discriminate; reflexivity. Qed.

Lemma token_eqb_true (k k' : token) : token_eqb k k' = true -> k = k'.
Proof. destruct k, k'; intro H; try discriminate; reflexivity. Qed.

(** A placeholder found in such a template is one of its chunks. *)
Lemma contains_token_chunk (k : token) (cs : list chunk) :
  forallb plain cs = true ->
  contains (token_str k) (flatten cs) = true -> In (Tok k) cs.
Proof.
  induction cs as [| c cs IH]; intros Hplain Hin.
  - destruct k; discriminate.
  - simpl in Hplain. apply andb_true_iff in Hplain as [Hc Hcs].
    destruct c as [t | k'].
    + right. apply (IH Hcs).
      destruct (token_str_lt k) as [old Hold]. rewrite Hold in *.
      simpl flatten in Hin. simpl chunk_str in Hin.
      now rewrite (contains_text t _ t old Hc) in Hin.
    + destruct (token_eqb k k') eqn:Hk.
      * left. apply token_eqb_true in Hk. now subst.
      * right. apply (IH Hcs). simpl flatten in Hin. simpl chunk_str in Hin.
        now rewrite (contains_other_token k k' _ Hk) in Hin.
Qed.

Lemma contains_chunk (t : string) (cs : list chunk) :
  In (Text t) cs -> contains t (flatten cs) = true.
Proof.
  induction cs as [| c cs IH]; intro Hin; [destruct Hin |].
  destruct Hin as [Hc | Hin].
  - subst. simpl. replace (flatten cs) with ("" ++ flatten cs) by reflexivity.
    change (t ++ "" ++ flatten cs) with (t ++ ("" ++ flatten cs)).
    apply (contains_app t "" (flatten cs)).
  - simpl. specialize (IH Hin).
    generalize (chunk_str c) as a. intro a.
    induction a as [| x a IHa]; simpl; [exact IH |].
    rewrite IHa. apply orb_true_r.
Qed.

Lemma read_after_write (fs : Files) (p content : string) :
  read_text (write_text fs p content) p = Ok content.
Proof.
  unfold write_text. induction fs as [| [q c] rest IH]; simpl.
  - now rewrite String.eqb_refl.
  - destruct (String.eqb p q) eqn:Hpq; simpl.
    + now rewrite String.eqb_refl.
    + now rewrite Hpq.
Qed.

(** After the three substitutions nothing but text without [<] is
    left. *)
Lemma filled_chunks_are_text (sub_prefix sub_paths sub_cd : string)
      (cs : list chunk) :
  no_lt sub_prefix = true -> no_lt sub_paths = true -> no_lt sub_cd = true ->
  forallb plain cs = true ->
  no_lt (flatten (map (fill TCd sub_cd)
                      (map (fill TPaths sub_paths)
                           (map (fill TPrefix sub_prefix) cs)))) = true.
Proof.
  intros H1 H2 H3. induction cs as [| c cs IH]; intro Hplain; [reflexivity |].
  simpl in Hplain. apply andb_true_iff in Hplain as [Hc Hcs].
  simpl map. simpl flatten. rewrite no_lt_app, (IH Hcs), andb_true_r.
  destruct c as [t | []]; simpl; assumption.
Qed.

Lemma filled_chunk_present (k : token) (sub_prefix sub_paths sub_cd : string)
      (cs : list chunk) :
  In (Tok k) cs ->
  In (Text match k with
           | TPrefix => sub_prefix
           | TPaths => sub_paths
           | TCd => sub_cd
           end)
     (map (fill TCd sub_cd)
          (map (fill TPaths sub_paths) (map (fill TPrefix sub_prefix) cs))).
Proof.
  intro Hin. rewrite !map_map. apply in_map_iff.
  exists (Tok k). split; [destruct k; reflexivity | exact Hin].
Qed.

(** A sufficient condition for the substitution to go through: for a
    template that holds the three placeholders and in which every [<]
    opens one of them, and for substitution strings without [<],
    workflow templating writes to the destination an output that
    contains each of the three substitution strings and none of the
    placeholders.  Nothing is said of YAML: the parser is not part of
    the operation. *)
Theorem fill_in_and_write_action_substitutes
        (fs : Files) (src dest template sub_prefix sub_paths sub_cd : string) :
  read_text fs src = Ok template ->
  contains PREFIX template = true ->
  contains PATHS template = true ->
  contains CD template = true ->
  only_placeholders_open template ->
  no_lt sub_prefix = true -> no_lt sub_paths = true -> no_lt sub_cd = true ->
  exists out,
    fill_in_and_write_action fs src dest sub_prefix sub_paths sub_cd
    = Ok (write_text fs dest out)
    /\ read_text (write_text fs dest out) dest = Ok out
    /\ contains sub_prefix out = true
    /\ contains sub_paths out = true
    /\ contains sub_cd out = true
    /\ contains PREFIX out = false
    /\ contains PATHS out = false
    /\ contains CD out = false.
Proof.
  intros Hread Hp Hpa Hc [cs [-> Hplain]] H1 H2 H3.
  set (cs3 := map (fill TCd sub_cd)
                  (map (fill TPaths sub_paths)
                       (map (fill TPrefix sub_prefix) cs))).
  assert (Hout : replace CD sub_cd
                   (replace PATHS sub_paths
                      (replace PREFIX sub_prefix (flatten cs)))
                 = flatten cs3).
  { change PREFIX with (token_str TPrefix).
    change PATHS with (token_str TPaths).
    change CD with (token_str TCd).
    rewrite (replace_flatten TPrefix), (replace_flatten TPaths),
      (replace_flatten TCd); auto using plain_fill. }
  assert (Hclean : no_lt (flatten cs3) = true)
    by (apply filled_chunks_are_text; assumption).
  assert (Hnone : forall old, contains (String "<" old) (flatten cs3) = false)
    by (intro old; now apply no_lt_contains).
  exists (flatten cs3).
  unfold fill_in_and_write_action. rewrite Hread, Hp, Hpa, Hc. simpl negb.
  cbv iota. rewrite Hout. unfold has_placeholders.
  unfold PREFIX, PATHS, CD. rewrite !Hnone. simpl orb. cbv iota.
  repeat split.
  - apply read_after_write.
  - apply contains_chunk.
    apply (filled_chunk_present TPrefix), (contains_token_chunk TPrefix);
      assumption.
  - apply contains_chunk.
    apply (filled_chunk_present TPaths), (contains_token_chunk TPaths);
      assumption.
  - apply contains_chunk.
    apply (filled_chunk_present TCd), (contains_token_chunk TCd);
      assumption.
Qed.

Lemma fill_in_and_write_action_substitutes_witness :
  exists out,
    fill_in_and_write_action Samples.template_files
      "templates/deploy.yaml" ".github/workflows/project-deploy.yaml"
      "project-prefix" "path/project/data" "cd path/project"
    = Ok (write_text Samples.template_files
                     ".github/workflows/project-deploy.yaml" out)
    /\ read_text (write_text Samples.template_files
                             ".github/workflows/project-deploy.yaml" out)
                 ".github/workflows/project-deploy.yaml" = Ok out
    /\ contains "project-prefix" out = true
    /\ contains "path/project/data" out = true
    /\ contains "cd path/project" out = true
    /\ contains PREFIX out = false
    /\ contains PATHS out = false
    /\ contains CD out = false.
Proof.
  apply (fill_in_and_write_action_substitutes
           Samples.template_files
           "templates/deploy.yaml" ".github/workflows/project-deploy.yaml"
           Samples.deploy_template
           "project-prefix" "path/project/data" "cd path/project");
    try reflexivity.
  exists [ Text "name: "; Tok TPrefix; Text "-deploy; on: push: paths: ";
           Tok TPaths; Text "; run: "; Tok TCd;
           Text " ; openmapflow deploy" ].
  split; reflexivity.
Defined.

(** The output of the scenario of [test_fill_in_and_write_action]. *)
Example deploy_workflow_filled :
  fill_in_and_write_action Samples.template_files
    "templates/deploy.yaml" ".github/workflows/project-deploy.yaml"
    "project-prefix" "path/project/data" "cd path/project"
  = Ok [ ("templates/deploy.yaml", Samples.deploy_template);
         (".github/workflows/project-deploy.yaml",
          "name: project-prefix-deploy; on: push: paths: path/project/data; run: cd path/project ; openmapflow deploy") ].
Proof. reflexivity. Qed.

(** A substitution string that holds a placeholder itself is rewritten
    by a later replacement: with [a<CD>b] for the prefix, the output is
    written and does not contain that string. *)
Example substitution_with_placeholder_is_rewritten :
  fill_in_and_write_action [("t.yaml", "<PREFIX> <PATHS> <CD>")]
                           "t.yaml" "out.yaml" "a<CD>b" "p" "c"
  = Ok [("t.yaml", "<PREFIX> <PATHS> <CD>"); ("out.yaml", "acb p c")]
  /\ contains "a<CD>b" "acb p c" = false.
Proof. split; reflexivity. Qed.

End GenerateProperties.

(** ** Loading the labels: further properties *)

Module LoadingProperties.

Import Validator Notions Frame ValidatorFacts Folds Samples.

(** A loop whose body computes a function of the element and the state,
    and keeps an invariant of the world, computes the fold of that
    function. *)
Lemma for_each_result {A S} (inv : World -> Prop) (g : A -> S -> result S)
      (xs : list A) (body : A -> S -> M S) :
  (forall x s w, In x xs -> inv w ->
                 exists w', body x s w = (g x s, w') /\ inv w') ->
  forall s w, inv w ->
    exists w', for_each xs body s w = (fold_result g xs s, w') /\ inv w'.
Proof.
  induction xs as [| x rest IH]; intros Hbody s w Hw; simpl.
  - exists w. split; [reflexivity | exact Hw].
  - destruct (Hbody x s w (or_introl eq_refl) Hw) as [w1 [Hrun Hw1]].
    unfold bind. rewrite Hrun.
    destruct (g x s) as [s' | e].
    + apply IH; [| exact Hw1].
      intros x' s0 w0 Hin. apply Hbody. now right.
    + exists w1. split; [reflexivity | exact Hw1].
Qed.

Lemma loaded_from_app (dk : Disk) (ds1 ds2 : list Dataset) :
  forall acc,
    loaded_from dk (ds1 ++ ds2)%list acc =
    match loaded_from dk ds1 acc with
    | Ok acc' => loaded_from dk ds2 acc'
    | Raise e => Raise e
    end.
Proof.
  induction ds1 as [| d rest IH]; intro acc; simpl; [reflexivity |].
  destruct (load_labels_of d dk) as [labels | e]; [apply IH |].
  destruct (is_file_not_found e); [apply IH | reflexivity].
Qed.

Lemma keys_dict_set {V} (k : string) (v : V) (dct : list (string * V))
      (x : string) :
  In x (map fst (dict_set k v dct)) -> x = k \/ In x (map fst dct).
Proof.
  intro H. apply in_map_iff in H as [[k' v'] [<- Hin]].
  apply In_dict_set in Hin as [Heq | Hin].
  - injection Heq as -> _. now left.
  - right. apply in_map_iff. now exists (k', v').
Qed.

Lemma NoDup_dict_set {V} (k : string) (v : V) (dct : list (string * V)) :
  NoDup (map fst dct) -> NoDup (map fst (dict_set k v dct)).
Proof.
  induction dct as [| [k' v'] rest IH]; intro Hnd; simpl.
  - repeat constructor. intros [].
  - inversion Hnd as [| x l Hnotin Hrest]; subst.
    destruct (String.eqb k k') eqn:Hk; simpl.
    + apply String.eqb_eq in Hk. subst. now constructor.
    + apply String.eqb_neq in Hk. constructor; [| now apply IH].
      intro Hin. apply keys_dict_set in Hin as [-> | Hin]; [congruence | auto].
Qed.

Lemma In_dict_set_same {V} (k : string) (v : V) (dct : list (string * V)) :
  In (k, v) (dict_set k v dct).
Proof.
  induction dct as [| [k' v'] rest IH]; simpl; [now left |].
  destruct (String.eqb k k'); [now left | now right].
Qed.

Lemma In_dict_set_other {V} (k k' : string) (v v' : V)
      (dct : list (string * V)) :
  k <> k' -> In (k, v) dct -> In (k, v) (dict_set k' v' dct).
Proof.
  intros Hne. induction dct as [| [k0 v0] rest IH]; simpl; [intros [] |].
  intros [Heq | Hin].
  - injection Heq as -> ->.
    destruct (String.eqb k' k) eqn:Hk.
    + apply String.eqb_eq in Hk. congruence.
    + now left.
  - destruct (String.eqb k' k0); right; auto.
Qed.

Lemma NoDup_keys_functional {V} (dct : list (string * V)) (k : string)
      (v v' : V) :
  NoDup (map fst dct) -> In (k, v) dct -> In (k, v') dct -> v = v'.
Proof.
  induction dct as [| [k0 v0] rest IH]; intros Hnd Hv Hv'; [destruct Hv |].
  inversion Hnd as [| x l Hnotin Hrest]; subst.
  destruct Hv as [Hv | Hv], Hv' as [Hv' | Hv'].
  - congruence.
  - injection Hv as -> ->. exfalso. apply Hnotin.
    apply in_map_iff. now exists (k, v').
  - injection Hv' as -> ->. exfalso. apply Hnotin.
    apply in_map_iff. now exists (k, v).
  - now apply IH.
Qed.

Lemma loaded_from_NoDup (dk : Disk) (ds : list Dataset) :
  forall acc dct,
    NoDup (map fst acc) -> loaded_from dk ds acc = Ok dct ->
    NoDup (map fst dct).
Proof.
  induction ds as [| d rest IH]; intros acc dct Hnd Hload; simpl in Hload.
  - now injection Hload as <-.
  - destruct (load_labels_of d dk) as [labels | e].
    + eapply IH; [| exact Hload]. now apply NoDup_dict_set.
    + destruct (is_file_not_found e); [| discriminate].
      eapply IH; eassumption.
Qed.

(** An entry stays in the dictionary as long as no dataset of its name
    loads. *)
Lemma loaded_from_keeps (dk : Disk) (ds : list Dataset) (k : string)
      (v : list Label) :
  (forall d labels, In d ds -> dataset d = k ->
                    load_labels_of d dk <> Ok labels) ->
  forall acc dct,
    In (k, v) acc -> loaded_from dk ds acc = Ok dct -> In (k, v) dct.
Proof.
  induction ds as [| d rest IH]; intros Hnone acc dct Hin Hload;
    simpl in Hload.
  - now injection Hload as <-.
  - assert (Hrest : forall d' labels, In d' rest -> dataset d' = k ->
                                      load_labels_of d' dk <> Ok labels)
      by (intros d' labels Hd'; apply Hnone; now right).
    destruct (load_labels_of d dk) as [labels | e] eqn:Hd.
    + apply (IH Hrest _ _ (In_dict_set_other k (dataset d) v labels acc
                             ltac:(intro Heq; symmetry in Heq;
                                   exact (Hnone d labels (or_introl eq_refl)
                                                Heq Hd))
                             Hin) Hload).
    + destruct (is_file_not_found e); [| discriminate].
      exact (IH Hrest _ _ Hin Hload).
Qed.

Lemma load_labels_false_run (ds : list Dataset) (w : World) :
  run (load_labels ds false) w = loaded_from (disk w) ds [].
Proof.
  unfold run. destruct (load_labels_false ds w) as [w' [Hrun _]].
  now rewrite Hrun.
Qed.

(** X1.  When several datasets carry the same name, the dictionary of
    [load_labels] holds that name once, with the labels of the last of
    them that loaded: the tables loaded earlier under the name are
    dropped. *)
Theorem load_labels_last_of_a_name
        (ds1 ds2 : list Dataset) (d : Dataset) (w : World)
        (labels : list Label) (dct : list (string * list Label)) :
  run (load_labels (ds1 ++ d :: ds2)%list false) w = Ok dct ->
  load_labels_of d (disk w) = Ok labels ->
  (forall d' labels', In d' ds2 -> dataset d' = dataset d ->
                      load_labels_of d' (disk w) <> Ok labels') ->
  NoDup (map fst dct)
  /\ In (dataset d, labels) dct
  /\ (forall labels', In (dataset d, labels') dct -> labels' = labels).
Proof.
  intros Hrun Hd Hlast. rewrite load_labels_false_run in Hrun.
  assert (Hnd : NoDup (map fst dct))
    by (eapply loaded_from_NoDup; [| exact Hrun]; constructor).
  assert (Hin : In (dataset d, labels) dct).
  { rewrite loaded_from_app in Hrun.
    destruct (loaded_from (disk w) ds1 []) as [acc |]; [| discriminate].
    simpl in Hrun. rewrite Hd in Hrun.
    eapply loaded_from_keeps; [exact Hlast | | exact Hrun].
    apply In_dict_set_same. }
  repeat split; [exact Hnd | exact Hin |].
  intros labels' Hin'. exact (NoDup_keys_functional dct _ _ _ Hnd Hin' Hin).
Qed.

Lemma load_labels_last_of_a_name_witness :
  run (load_labels ([] ++ kenya :: [Worlds.kenya_again])%list false)
      Worlds.two_kenyas_world
  = Ok [("Kenya", [Worlds.second_label])]
  /\ NoDup (map fst [("Kenya", [Worlds.second_label])])
  /\ In ("Kenya", [Worlds.second_label]) [("Kenya", [Worlds.second_label])].
Proof.
  split; [reflexivity |].
  destruct (load_labels_last_of_a_name
              [kenya] [] Worlds.kenya_again Worlds.two_kenyas_world
              [Worlds.second_label] [("Kenya", [Worlds.second_label])])
    as [Hnd [Hin _]].
  - reflexivity.
  - reflexivity.
  - intros d' labels' [].
  - split; assumption.
Defined.

Lemma bind_raises {A B} (m : M A) (k : A -> M B) (w : World) (e : exn) :
  run m w = Raise e -> run (bind m k) w = Raise e.
Proof.
  unfold run, bind. destruct (m w) as [[a | e'] w']; simpl; [discriminate |].
  intro H. injection H as ->. reflexivity.
Qed.

(** X2.  Only [FileNotFoundError] means "not there yet": when the loader of a
    dataset raises anything else, and the datasets before it load or are
    missing, [load_labels] raises that exception, and so does every
    check that begins by loading the labels without printing. *)
Theorem load_failure_is_not_skipped
        (E : Externals) (ds1 ds2 : list Dataset) (d : Dataset) (w : World)
        (e : exn) :
  (forall d', In d' ds1 -> loads_or_missing (disk w) d') ->
  load_labels_of d (disk w) = Raise e ->
  is_file_not_found e = false ->
  run (load_labels (ds1 ++ d :: ds2)%list false) w = Raise e
  /\ Forall (fun check : M unit => run check w = Raise e)
            [ test_features_with_no_labels E (ds1 ++ d :: ds2)%list;
              test_each_pickle_file_is_data_instance E (ds1 ++ d :: ds2)%list;
              test_label_and_feature_ranges_match E (ds1 ++ d :: ds2)%list;
              test_labels_have_start_before_end_date (ds1 ++ d :: ds2)%list;
              test_all_older_features_have_24_months E (ds1 ++ d :: ds2)%list;
              test_features_for_closeness E (ds1 ++ d :: ds2)%list;
              test_label_coordinate_duplication E (ds1 ++ d :: ds2)%list ].
Proof.
  intros Hbefore Hd He.
  assert (Hload : run (load_labels (ds1 ++ d :: ds2)%list false) w = Raise e).
  { rewrite load_labels_false_run, loaded_from_app.
    destruct (loaded_from_total (disk w) ds1 Hbefore []) as [acc ->].
    simpl. now rewrite Hd, He. }
  split; [exact Hload |].
  repeat (apply Forall_cons || apply Forall_nil);
    try (apply bind_raises; exact Hload).
  unfold test_all_older_features_have_24_months.
  unfold run, bind at 1, date_today. fold (run (bind (load_labels (ds1 ++ d :: ds2)%list false)
    (fun datasets_dict =>
       bind (for_each datasets_dict (older_features_of_dataset E (today w)) true)
            (fun flag => assertTrue flag
               "Not all older features have 24 months, check logs."))) w).
  apply bind_raises. exact Hload.
Qed.

Lemma load_failure_is_not_skipped_witness :
  run (load_labels ([kenya] ++ Worlds.broken :: [togo])%list false) good_world
  = Raise (ValueError "malformed label file").
Proof.
  apply (load_failure_is_not_skipped externals [kenya] [togo] Worlds.broken
                                     good_world
                                     (ValueError "malformed label file")).
  - intros d' [<- | []]. vm_compute. exact I.
  - reflexivity.
  - reflexivity.
Defined.

Lemma for_each_load_one_print (dk : Disk) (ds : list Dataset) :
  (forall d, In d ds -> summary_ok_or_missing dk d) ->
  forall acc w,
    disk w = dk ->
    exists w',
      for_each ds (load_one true) acc w = (loaded_from dk ds acc, w')
      /\ disk w' = dk /\ today w' = today w
      /\ (forall dct, loaded_from dk ds acc = Ok dct ->
                      stdout w' = (stdout w ++ summary_lines dk ds)%list).
Proof.
  induction ds as [| d rest IH]; intros Hsum acc w Hw.
  - exists w. simpl. repeat split; try assumption.
    intros _ _. now rewrite app_nil_r.
  - assert (Hrest : forall d', In d' rest -> summary_ok_or_missing dk d')
      by (intros d' Hd'; apply Hsum; now right).
    pose proof (Hsum d (or_introl eq_refl)) as Hd.
    unfold summary_ok_or_missing in Hd.
    cbn [for_each loaded_from summary_lines flat_map].
    unfold bind at 1. unfold load_one.
    unfold bind at 1. unfold try_except_FileNotFoundError at 1.
    unfold bind at 1. unfold read at 1. rewrite Hw.
    destruct (load_labels_of d dk) as [labels | e] eqn:Hload.
    + specialize (Hd labels eq_refl). unfold ret at 1. cbv iota beta.
      unfold bind at 1. unfold try_except_FileNotFoundError at 1.
      unfold bind at 1. unfold read at 1. rewrite Hw.
      destruct (summary d dk labels) as [s | e] eqn:Hs.
      * unfold print at 1. cbv iota beta. unfold ret at 1.
        destruct (IH Hrest (dict_set (dataset d) labels acc)
                     (mkWorld (disk w) (today w) (stdout w ++ [s])%list) Hw)
          as [w' [Hrun [Hd' [Ht' Hout]]]].
        exists w'. repeat split; try assumption.
        intros dct Hdct. rewrite (Hout dct Hdct). simpl.
        now rewrite <- app_assoc.
      * cbv iota beta. rewrite Hd. unfold ret at 1. unfold ret at 1.
        destruct (IH Hrest (dict_set (dataset d) labels acc) w Hw)
          as [w' [Hrun [Hd' [Ht' Hout]]]].
        exists w'. repeat split; assumption.
    + cbv iota beta. destruct (is_file_not_found e).
      * unfold ret at 1. cbv iota beta. unfold ret at 1.
        destruct (IH Hrest acc w Hw) as [w' [Hrun [Hd' [Ht' Hout]]]].
        exists w'. repeat split; assumption.
      * exists w. repeat split; try assumption. intros dct Hdct. discriminate.
Qed.

(** X3.  Printing the summaries changes nothing to what is loaded: when the
    summary of every loaded dataset is produced or not found,
    [load_labels(is_print=True)] returns what [load_labels()] returns,
    and on success the standard output has gained the empty line and
    then the summaries that were produced, in the order of the
    datasets. *)
Theorem load_labels_printing (ds : list Dataset) (w : World) :
  (forall d, In d ds -> summary_ok_or_missing (disk w) d) ->
  run (load_labels ds true) w = run (load_labels ds false) w
  /\ (forall dct,
         run (load_labels ds false) w = Ok dct ->
         stdout (snd (load_labels ds true w))
         = (stdout w ++ "" :: summary_lines (disk w) ds)%list).
Proof.
  intro Hsum. rewrite load_labels_false_run.
  unfold run, load_labels, bind at 1, print at 1. cbv iota beta.
  destruct (for_each_load_one_print
              (disk w) ds Hsum []
              (mkWorld (disk w) (today w) (stdout w ++ [""])%list) eq_refl)
    as [w' [Hrun [_ [_ Hout]]]].
  unfold bind at 1, print at 1. cbv iota beta. rewrite Hrun. simpl.
  split; [reflexivity |].
  intros dct Hdct. rewrite (Hout dct Hdct). simpl.
  now rewrite <- app_assoc.
Qed.

Lemma load_labels_printing_witness :
  run (load_labels [kenya; togo] true) good_world
  = run (load_labels [kenya; togo] false) good_world
  /\ stdout (snd (load_labels [kenya; togo] true good_world)) = [""; "Kenya: 1"].
Proof.
  assert (Hsum : forall d, In d [kenya; togo] ->
                           summary_ok_or_missing (disk good_world) d).
  { intros d0 [<- | [<- | []]] labels _; exact I. }
  destruct (load_labels_printing [kenya; togo] good_world Hsum) as [Hsame Hout].
  split; [exact Hsame |].
  exact (Hout [("Kenya", [good_label])] eq_refl).
Defined.

End LoadingProperties.

(** ** The checks on the table of all features: verdicts *)

Module FeatureTableProperties.

Import Validator Notions Frame ValidatorFacts Folds Samples.
Import ValidatorProperties LoadingProperties.

(** *** The orphan-feature check *)

Lemma In_feature_name_list (dct : list (string * list Label)) (x : string) :
  In x (flat_map (fun e => map feature_filename (snd e)) dct)
  <-> exists name labels l,
        In (name, labels) dct /\ In l labels /\ feature_filename l = x.
Proof.
  rewrite in_flat_map. split.
  - intros [[name labels] [He Hx]]. simpl in Hx.
    apply in_map_iff in Hx as [l [Hl Hin]]. now exists name, labels, l.
  - intros [name [labels [l [He [Hl Hx]]]]]. exists (name, labels).
    split; [exact He |]. simpl. apply in_map_iff. now exists l.
Qed.

(** X4.  The orphan-feature check passes exactly when the stem of every
    feature file is the feature filename of some label of a dataset that
    loaded, and fails exactly when some feature file has a stem that no
    such label carries. *)
Theorem orphan_check_verdict
        (E : Externals) (ds : list Dataset) (w : World)
        (dct : list (string * list Label)) (rows : list FeatureRow) :
  run (load_labels ds false) w = Ok dct ->
  load_all_features_as_df E (disk w) = Ok rows ->
  (passes (test_features_with_no_labels E ds) w
   <-> forall r, In r rows ->
         exists name labels l,
           In (name, labels) dct /\ In l labels
           /\ feature_filename l = PathLib.stem (filename r))
  /\ (fails (test_features_with_no_labels E ds) w
      <-> exists r, In r rows
            /\ forall name labels l,
                 In (name, labels) dct -> In l labels ->
                 feature_filename l <> PathLib.stem (filename r)).
Proof.
  intros Hload Hrows. rewrite load_labels_false_run in Hload.
  unfold passes, fails.
  rewrite (orphan_check_run E ds w dct rows Hload Hrows).
  set (names := flat_map (fun e => map feature_filename (snd e)) dct).
  set (orphans := filter (fun r => negb (mem_str (PathLib.stem (filename r)) names))
                         rows).
  destruct (List.length orphans =? 0) eqn:Hlen.
  - apply Nat.eqb_eq, length_zero_iff_nil in Hlen.
    unfold orphans in Hlen. rewrite filter_nil_iff in Hlen.
    assert (Hall : forall r, In r rows -> In (PathLib.stem (filename r)) names).
    { intros r Hr. apply mem_str_true, negb_false_iff. now apply Hlen. }
    split.
    + split; [| reflexivity]. intros _ r Hr.
      apply In_feature_name_list. now apply Hall.
    + split; [discriminate |]. intros [r [Hr Hnone]]. exfalso.
      destruct (proj1 (In_feature_name_list dct _) (Hall r Hr))
        as [name [labels [l [He [Hl Hx]]]]].
      exact (Hnone name labels l He Hl Hx).
  - apply Nat.eqb_neq in Hlen.
    assert (Hsome : exists r, In r rows
                              /\ ~ In (PathLib.stem (filename r)) names).
    { destruct orphans as [| r rest] eqn:Horphans; [now elim Hlen |].
      assert (Hr : In r orphans) by (rewrite Horphans; now left).
      unfold orphans in Hr. apply filter_In in Hr as [Hr Hmem].
      exists r. split; [exact Hr |]. intro Hin.
      apply mem_str_true in Hin. rewrite Hin in Hmem. discriminate. }
    destruct Hsome as [r [Hr Hnot]]. split.
    + split; [discriminate |]. intro Hall. exfalso. apply Hnot.
      apply In_feature_name_list. now apply Hall.
    + split; [| reflexivity]. intros _. exists r. split; [exact Hr |].
      intros name labels l He Hl Hx. apply Hnot.
      apply In_feature_name_list. now exists name, labels, l.
Qed.

Lemma orphan_check_verdict_witness :
  passes (test_features_with_no_labels externals [kenya; togo]) good_world.
Proof.
  apply (proj1 (orphan_check_verdict
                  externals [kenya; togo] good_world
                  [("Kenya", [good_label])]
                  [ mkFeatureRow "data/features/lat=1_lon=37_2020_01_01.pkl"
                                 (instance_at (37 # 1)%Q (1 # 1)%Q (Some [24; 18])) ]
                  eq_refl eq_refl)).
  intros r [<- | []]. exists "Kenya", [good_label], good_label.
  repeat split; now left.
Defined.

(** *** The duplicate-feature check *)

Lemma duplicated_from_nil {A K} (key : A -> K) (eqb : K -> K -> bool)
      (rows : list A) :
  forall seen,
    duplicated_from key eqb seen rows = []
    <-> forall pre r post,
          rows = (pre ++ r :: post)%list ->
          forall k, In k seen \/ In k (map key pre) -> eqb (key r) k = false.
Proof.
  induction rows as [| a rest IH]; intro seen; simpl.
  - split; [| reflexivity]. intros _ pre r post Hsplit.
    destruct pre; discriminate.
  - destruct (existsb (eqb (key a)) seen) eqn:Hseen.
    + split; [discriminate |]. intro H. exfalso.
      apply existsb_exists in Hseen as [k [Hk Heq]].
      rewrite (H [] a rest eq_refl k (or_introl Hk)) in Heq. discriminate.
    + rewrite IH. split.
      * intros H pre r post Hsplit k Hk.
        destruct pre as [| a' pre'].
        -- injection Hsplit as <- _. destruct Hk as [Hk | []].
           destruct (eqb (key a) k) eqn:Heq; [| reflexivity].
           assert (existsb (eqb (key a)) seen = true)
             by (apply existsb_exists; now exists k).
           congruence.
        -- injection Hsplit as <- Hrest.
           apply (H pre' r post Hrest k). simpl in Hk. simpl. tauto.
      * intros H pre r post Hsplit k Hk.
        apply (H (a :: pre) r post); [now rewrite Hsplit |].
        simpl in *. tauto.
Qed.

Lemma duplicated_from_hit {A K} (key : A -> K) (eqb : K -> K -> bool)
      (rows : list A) :
  forall seen,
    duplicated_from key eqb seen rows <> [] ->
    exists pre r post k,
      rows = (pre ++ r :: post)%list
      /\ (In k seen \/ In k (map key pre))
      /\ eqb (key r) k = true.
Proof.
  induction rows as [| a rest IH]; intros seen Hne; simpl in Hne;
    [now elim Hne |].
  destruct (existsb (eqb (key a)) seen) eqn:Hseen.
  - apply existsb_exists in Hseen as [k [Hk Heq]].
    exists [], a, rest, k. repeat split; auto.
  - destruct (IH _ Hne) as [pre [r [post [k [Hsplit [Hk Heq]]]]]].
    exists (a :: pre), r, post, k. repeat split.
    + simpl. now rewrite Hsplit.
    + simpl in *. tauto.
    + exact Heq.
Qed.

Lemma duplicates_check_run (E : Externals) (w : World) (rows : list FeatureRow) :
  load_all_features_as_df E (disk w) = Ok rows ->
  run (test_features_for_duplicates E) w =
  if List.length (duplicated_from feature_key feature_key_eqb [] rows) =? 0
  then Ok tt
  else Raise (AssertionError
                ("Found "
                 ++ str_nat (List.length
                               (duplicated_from feature_key feature_key_eqb [] rows))
                 ++ " duplicates")).
Proof.
  intro Hrows. unfold run, test_features_for_duplicates.
  unfold bind at 1. unfold read at 1. rewrite Hrows.
  cbv zeta. rewrite assertTrue_run. reflexivity.
Qed.

(** X5.  The duplicate-feature check passes exactly when no row of the
    feature table has the longitude, latitude and source file of a row
    before it, and fails exactly when some row repeats an earlier one. *)
Theorem duplicates_check_verdict
        (E : Externals) (w : World) (rows : list FeatureRow) :
  load_all_features_as_df E (disk w) = Ok rows ->
  (passes (test_features_for_duplicates E) w
   <-> forall pre r post earlier,
         rows = (pre ++ r :: post)%list -> In earlier pre ->
         feature_key_eqb (feature_key r) (feature_key earlier) = false)
  /\ (fails (test_features_for_duplicates E) w
      <-> exists pre r post earlier,
            rows = (pre ++ r :: post)%list /\ In earlier pre
            /\ feature_key_eqb (feature_key r) (feature_key earlier) = true).
Proof.
  intro Hrows. unfold passes, fails.
  rewrite (duplicates_check_run E w rows Hrows).
  pose proof (duplicated_from_nil feature_key feature_key_eqb rows []) as Hnil.
  destruct (List.length (duplicated_from feature_key feature_key_eqb [] rows) =? 0)
    eqn:Hlen.
  - apply Nat.eqb_eq, length_zero_iff_nil in Hlen. rewrite Hnil in Hlen.
    assert (Hfree : forall pre r post earlier,
               rows = (pre ++ r :: post)%list -> In earlier pre ->
               feature_key_eqb (feature_key r) (feature_key earlier) = false).
    { intros pre r post earlier Hsplit Hin.
      apply (Hlen pre r post Hsplit). right. now apply in_map. }
    split.
    + split; [| reflexivity]. intros _. exact Hfree.
    + split; [discriminate |]. intros [pre [r [post [earlier [Hs [Hin Heq]]]]]].
      rewrite (Hfree pre r post earlier Hs Hin) in Heq. discriminate.
  - assert (Hdup : ~ (forall pre r post earlier,
                         rows = (pre ++ r :: post)%list -> In earlier pre ->
                         feature_key_eqb (feature_key r) (feature_key earlier)
                         = false)).
    { intro Hfree. apply Nat.eqb_neq in Hlen. apply Hlen.
      apply length_zero_iff_nil, Hnil.
      intros pre r post Hsplit k [[] | Hk].
      apply in_map_iff in Hk as [earlier [<- Hin]].
      exact (Hfree pre r post earlier Hsplit Hin). }
    split.
    + split; [discriminate |]. intro Hfree. now elim Hdup.
    + split; [| reflexivity]. intros _.
      apply Nat.eqb_neq in Hlen.
      destruct (duplicated_from_hit feature_key feature_key_eqb rows [])
        as [pre [r [post [k [Hsplit [[[] | Hk] Heq]]]]]].
      { intro Hnil'. rewrite Hnil' in Hlen. now elim Hlen. }
      apply in_map_iff in Hk as [earlier [<- Hin]].
      now exists pre, r, post, earlier.
Qed.

Lemma duplicates_check_verdict_witness :
  fails (test_features_for_duplicates externals) Worlds.twice_world.
Proof.
  apply (proj2 (duplicates_check_verdict
                  externals Worlds.twice_world
                  [ mkFeatureRow "data/features/lat=1_lon=37_2020_01_01.pkl"
                                 (instance_at (37 # 1)%Q (1 # 1)%Q (Some [24; 18]));
                    mkFeatureRow "data/features/lat=1.0_lon=37.0_2020_01_01.pkl"
                                 (instance_at (37 # 1)%Q (1 # 1)%Q (Some [24; 18])) ]
                  eq_refl)).
  exists [ mkFeatureRow "data/features/lat=1_lon=37_2020_01_01.pkl"
                        (instance_at (37 # 1)%Q (1 # 1)%Q (Some [24; 18])) ],
         (mkFeatureRow "data/features/lat=1.0_lon=37.0_2020_01_01.pkl"
                       (instance_at (37 # 1)%Q (1 # 1)%Q (Some [24; 18]))),
         [],
         (mkFeatureRow "data/features/lat=1_lon=37_2020_01_01.pkl"
                       (instance_at (37 # 1)%Q (1 # 1)%Q (Some [24; 18]))).
  repeat split. now left.
Defined.

(** *** The emptiness check and the band-count check *)

Lemma emptiness_check_run (E : Externals) (w : World) (rows : list FeatureRow) :
  load_all_features_as_df E (disk w) = Ok rows ->
  let empty :=
    filter (fun r => match labelled_array (feature r) with
                     | None => true
                     | Some _ => false
                     end) rows in
  run (test_features_for_emptiness E) w =
  if List.length empty =? 0 then Ok tt
  else Raise (AssertionError
                ("Found " ++ str_nat (List.length empty)
                 ++ " empty features, run create_all_features() to fix.")).
Proof.
  intros Hrows empty. unfold run, test_features_for_emptiness.
  unfold bind at 1. unfold read at 1. rewrite Hrows.
  cbv zeta. rewrite assertTrue_run. reflexivity.
Qed.

Lemma emptiness_passes_iff (E : Externals) (w : World) (rows : list FeatureRow) :
  load_all_features_as_df E (disk w) = Ok rows ->
  passes (test_features_for_emptiness E) w
  <-> forall r, In r rows -> labelled_array (feature r) <> None.
Proof.
  intro Hrows. unfold passes. rewrite (emptiness_check_run E w rows Hrows).
  cbv zeta.
  destruct (List.length _ =? 0) eqn:Hlen.
  - apply Nat.eqb_eq, length_zero_iff_nil in Hlen.
    rewrite filter_nil_iff in Hlen.
    split; [| reflexivity]. intros _ r Hr Hnone.
    specialize (Hlen r Hr). rewrite Hnone in Hlen. discriminate.
  - split; [discriminate |]. intro Hall. exfalso.
    apply Nat.eqb_neq in Hlen. apply Hlen, length_zero_iff_nil, filter_nil_iff.
    intros r Hr. specialize (Hall r Hr).
    destruct (labelled_array (feature r)); [reflexivity | congruence].
Qed.

Lemma In_non_null (arrays : list (option (list nat))) (shape : list nat) :
  In shape (non_null arrays) <-> In (Some shape) arrays.
Proof.
  induction arrays as [| [s |] rest IH]; simpl.
  - tauto.
  - rewrite IH. split; intros [H | H]; auto; left; congruence.
  - rewrite IH. split; [auto | intros [H | H]; [discriminate | auto]].
Qed.

(** X6.  The emptiness check and the band-count check together: when both
    pass, the feature table is not empty and every one of its rows (not
    only some) holds an array whose last dimension is 18. *)
Theorem emptiness_and_bands_checks_together
        (E : Externals) (w : World) (rows : list FeatureRow) :
  load_all_features_as_df E (disk w) = Ok rows ->
  passes (test_features_for_emptiness E) w ->
  passes (test_all_features_have_18_bands E) w ->
  rows <> []
  /\ forall r, In r rows ->
       exists shape, labelled_array (feature r) = Some shape
                     /\ shape_last shape = Ok 18.
Proof.
  intros Hrows Hempty Hbands.
  pose proof (proj1 (emptiness_passes_iff E w rows Hrows) Hempty) as Hfull.
  clear Hempty. rename Hfull into Hempty.
  unfold passes in Hbands. rewrite (bands_check_run E w rows Hrows) in Hbands.
  set (arrays := non_null (map (fun r => labelled_array (feature r)) rows)) in *.
  assert (Huniform : arrays <> []
                     /\ Forall (fun shape => shape_last shape = Ok 18) arrays).
  { apply (uniform_iff shape_last 18 arrays).
    destruct (map_result shape_last arrays) as [bands | e]; [| discriminate].
    destruct (list_nat_eqb (unique_by Nat.eqb bands) [18]);
      [reflexivity | discriminate]. }
  destruct Huniform as [Hne Hall]. split.
  - intros ->. now apply Hne.
  - intros r Hr. specialize (Hempty r Hr).
    destruct (labelled_array (feature r)) as [shape |] eqn:Harr; [| congruence].
    exists shape. split; [reflexivity |].
    rewrite Forall_forall in Hall. apply Hall.
    apply In_non_null, in_map_iff. now exists r.
Qed.

Lemma emptiness_and_bands_checks_together_witness :
  [ mkFeatureRow "data/features/lat=1_lon=37_2020_01_01.pkl"
                 (instance_at (37 # 1)%Q (1 # 1)%Q (Some [24; 18])) ] <> []
  /\ forall r,
    In r [ mkFeatureRow "data/features/lat=1_lon=37_2020_01_01.pkl"
                        (instance_at (37 # 1)%Q (1 # 1)%Q (Some [24; 18])) ] ->
    exists shape, labelled_array (feature r) = Some shape
                  /\ shape_last shape = Ok 18.
Proof.
  apply (emptiness_and_bands_checks_together externals good_world _ eq_refl);
    reflexivity.
Defined.

Lemma map_result_raises {A B} (f : A -> result B) (xs : list A) (e0 : exn) :
  (forall x e, f x = Raise e -> e = e0) ->
  (exists x e, In x xs /\ f x = Raise e) ->
  map_result f xs = Raise e0.
Proof.
  intros Honly. induction xs as [| a rest IH]; intros [x [e [Hin Hx]]];
    [destruct Hin |].
  simpl. destruct (f a) as [y | e'] eqn:Ha.
  - destruct Hin as [-> | Hin]; [congruence |].
    rewrite IH; [reflexivity | now exists x, e].
  - now rewrite (Honly a e' Ha).
Qed.

(** X7.  A zero-dimensional array in the feature table makes the band-count
    check end in an [IndexError]: it neither passes nor fails. *)
Theorem bands_check_scalar_array
        (E : Externals) (w : World) (rows : list FeatureRow) (r : FeatureRow) :
  load_all_features_as_df E (disk w) = Ok rows ->
  In r rows ->
  labelled_array (feature r) = Some [] ->
  run (test_all_features_have_18_bands E) w = Raise IndexError.
Proof.
  intros Hrows Hr Hscalar. rewrite (bands_check_run E w rows Hrows).
  rewrite (map_result_raises shape_last _ IndexError); [reflexivity | |].
  - intros shape e. unfold shape_last.
    destruct (rev shape); [intro H; now injection H as <- | discriminate].
  - exists [], IndexError. split; [| reflexivity].
    apply In_non_null, in_map_iff. now exists r.
Qed.

Lemma bands_check_scalar_array_witness :
  run (test_all_features_have_18_bands externals) Worlds.scalar_world
  = Raise IndexError.
Proof.
  apply (bands_check_scalar_array
           externals Worlds.scalar_world
           [ mkFeatureRow "data/features/lat=1_lon=37_2020_01_01.pkl"
                          (instance_at (37 # 1)%Q (1 # 1)%Q (Some [])) ]
           (mkFeatureRow "data/features/lat=1_lon=37_2020_01_01.pkl"
                         (instance_at (37 # 1)%Q (1 # 1)%Q (Some [])))
           eq_refl).
  - now left.
  - reflexivity.
Defined.

End FeatureTableProperties.

(** ** The checks that go dataset by dataset: verdicts *)

Module DatasetCheckProperties.

Import Validator Notions Frame ValidatorFacts Folds Samples.
Import ValidatorProperties LoadingProperties FeatureTableProperties.

Lemma fold_result_flags {A} (g : A -> bool -> result bool) (ok : A -> bool)
      (xs : list A) :
  (forall x s, In x xs -> g x s = Ok (s && ok x)) ->
  forall s, fold_result g xs s = Ok (s && forallb ok xs).
Proof.
  induction xs as [| x rest IH]; intros Hg s; simpl.
  - now rewrite andb_true_r.
  - rewrite (Hg x s (or_introl eq_refl)).
    rewrite IH by (intros x' s' Hin; apply Hg; now right).
    now rewrite andb_assoc.
Qed.

Lemma filter_length_forallb {A} (f : A -> bool) (l : list A) :
  List.length (filter f l) = List.length l <-> forallb f l = true.
Proof.
  induction l as [| a rest IH]; simpl; [tauto |].
  destruct (f a); simpl.
  - rewrite <- IH. split; [now intros [= ->] | now intros ->].
  - split; [| discriminate]. intro H. exfalso.
    pose proof (filter_length_le f rest). lia.
Qed.

Lemma filter_all {A} (f : A -> bool) (l : list A) :
  forallb f l = true -> filter f l = l.
Proof.
  induction l as [| a rest IH]; simpl; [reflexivity |].
  intro H. apply andb_true_iff in H as [-> Hrest]. now rewrite IH.
Qed.

(** *** Every pickle is a data instance *)

Lemma pickles_of_unpickled (E : Externals) (dk : Disk) (labels : list Label) :
  (forall l, In l labels -> exists p, load_feature E dk (feature_path l) = Ok p) ->
  exists pickles,
    pickles_of E dk labels = Ok pickles
    /\ List.length pickles = List.length labels
    /\ forallb is_instance pickles = forallb (instance_at_path E dk) labels
    /\ (forall p, In p pickles ->
                  exists l, In l labels
                            /\ load_feature E dk (feature_path l) = Ok p).
Proof.
  unfold pickles_of.
  induction labels as [| l rest IH]; intro Hall.
  - exists []. repeat split. intros p [].
  - destruct (Hall l (or_introl eq_refl)) as [p Hp].
    destruct IH as [pickles [Hload [Hlen [Hinst Hfrom]]]].
    { intros l' Hl'. apply Hall. now right. }
    exists (p :: pickles). simpl. rewrite Hp, Hload.
    repeat split.
    + now rewrite Hlen.
    + unfold instance_at_path at 1. rewrite Hp, Hinst. now destruct p.
    + intros p' [<- | Hp'].
      * exists l. split; [now left | exact Hp].
      * destruct (Hfrom p' Hp') as [l' [Hl' Hload']].
        exists l'. split; [now right | exact Hload'].
Qed.

Lemma pickle_check_run (E : Externals) (ds : list Dataset) (w : World)
      (dct : list (string * list Label)) :
  loaded_from (disk w) ds [] = Ok dct ->
  run (test_each_pickle_file_is_data_instance E ds) w =
  match fold_result (pickle_step E (disk w)) dct true with
  | Ok flag =>
      if flag then Ok tt
      else Raise (AssertionError
                    "Not all pickle files are data instances, check logs for details.")
  | Raise e => Raise e
  end.
Proof.
  intro Hload. unfold run, test_each_pickle_file_is_data_instance.
  destruct (load_labels_false ds w) as [w' [Hrun [Hdisk _]]].
  unfold bind at 1. rewrite Hrun, Hload.
  match goal with
  | |- context [for_each dct ?body true] =>
      destruct (for_each_result (fun v => disk v = disk w)
                                (pickle_step E (disk w)) dct body)
        with (s := true) (w := w') as [w2 [Hloop _]]
  end.
  - intros e flag v _ Hv. cbv beta zeta.
    unfold bind at 1, load_features. rewrite apply_M_read, Hv.
    unfold pickle_step, pickles_of.
    destruct (map_result _ (filter already_exists (snd e))) as [pickles | ex].
    + unfold bind, print, ret. cbv beta iota.
      eexists. split; [reflexivity | exact Hv].
    + exists v. split; [reflexivity | exact Hv].
  - exact Hdisk.
  - unfold bind at 1. rewrite Hloop.
    destruct (fold_result _ dct true) as [flag | e]; [| reflexivity].
    rewrite assertTrue_run. reflexivity.
Qed.

Lemma pickle_check_outcome (E : Externals) (ds : list Dataset) (w : World)
      (dct : list (string * list Label)) :
  loaded_from (disk w) ds [] = Ok dct ->
  existing_features_unpickle E (disk w) dct ->
  run (test_each_pickle_file_is_data_instance E ds) w =
  if forallb (fun e => forallb (instance_at_path E (disk w))
                               (filter already_exists (snd e))) dct
  then Ok tt
  else Raise (AssertionError
                "Not all pickle files are data instances, check logs for details.").
Proof.
  intros Hload Hun. rewrite (pickle_check_run E ds w dct Hload).
  rewrite (fold_result_flags
             (pickle_step E (disk w))
             (fun e => forallb (instance_at_path E (disk w))
                               (filter already_exists (snd e)))).
  - reflexivity.
  - intros [name labels] flag Hin. unfold pickle_step. simpl snd.
    destruct (pickles_of_unpickled E (disk w) (filter already_exists labels))
      as [pickles [Hp [_ [Hinst _]]]].
    { intros l Hl. apply filter_In in Hl as [Hl Hex]. eapply Hun; eassumption. }
    rewrite Hp, <- Hinst.
    destruct (forallb is_instance pickles) eqn:Hall.
    + apply filter_length_forallb in Hall. rewrite Hall, Nat.eqb_refl.
      now rewrite andb_true_r.
    + destruct (_ =? _) eqn:Hlen.
      * apply Nat.eqb_eq, filter_length_forallb in Hlen. congruence.
      * now rewrite andb_false_r.
Qed.

(** X8.  When the feature files of the labels marked already-exists can be
    unpickled, the artifact-type check passes exactly when each of them
    holds a [DataInstance], and fails exactly when one holds something
    else; the labels not marked already-exists are never read. *)
Theorem pickle_check_verdict
        (E : Externals) (ds : list Dataset) (w : World)
        (dct : list (string * list Label)) :
  run (load_labels ds false) w = Ok dct ->
  existing_features_unpickle E (disk w) dct ->
  (passes (test_each_pickle_file_is_data_instance E ds) w
   <-> forall name labels l,
         In (name, labels) dct -> In l labels -> already_exists l = true ->
         exists i, load_feature E (disk w) (feature_path l) = Ok (Instance i))
  /\ (fails (test_each_pickle_file_is_data_instance E ds) w
      <-> exists name labels l,
            In (name, labels) dct /\ In l labels /\ already_exists l = true
            /\ exists a, load_feature E (disk w) (feature_path l)
                          = Ok (NotInstance a)).
Proof.
  intros Hload Hun. rewrite load_labels_false_run in Hload.
  unfold passes, fails. rewrite (pickle_check_outcome E ds w dct Hload Hun).
  destruct (forallb _ dct) eqn:Hall.
  - rewrite forallb_forall in Hall.
    assert (Hgood : forall name labels l,
               In (name, labels) dct -> In l labels -> already_exists l = true ->
               exists i, load_feature E (disk w) (feature_path l)
                         = Ok (Instance i)).
    { intros name labels l He Hl Hex. specialize (Hall _ He). simpl in Hall.
      rewrite forallb_forall in Hall.
      specialize (Hall l (proj2 (filter_In _ _ _) (conj Hl Hex))).
      unfold instance_at_path in Hall.
      destruct (load_feature E (disk w) (feature_path l)) as [[i | a] |];
        try discriminate. now exists i. }
    split.
    + split; [| reflexivity]. intros _. exact Hgood.
    + split; [discriminate |].
      intros [name [labels [l [He [Hl [Hex [a Hbad]]]]]]].
      destruct (Hgood name labels l He Hl Hex) as [i Hi]. congruence.
  - apply forallb_false_exists in Hall as [[name labels] [He Hbad]].
    simpl in Hbad. apply forallb_false_exists in Hbad as [l [Hl Hbad]].
    apply filter_In in Hl as [Hl Hex].
    destruct (Hun name labels l He Hl Hex) as [p Hp].
    unfold instance_at_path in Hbad. rewrite Hp in Hbad.
    destruct p as [i | a]; [discriminate |].
    split.
    + split; [discriminate |]. intro Hgood.
      destruct (Hgood name labels l He Hl Hex) as [i Hi]. congruence.
    + split; [| reflexivity]. intros _. exists name, labels, l.
      repeat split; try assumption. now exists a.
Qed.

Lemma pickle_check_verdict_witness :
  fails (test_each_pickle_file_is_data_instance externals [kenya])
        Worlds.corrupt_world.
Proof.
  assert (Hun : existing_features_unpickle externals (disk Worlds.corrupt_world)
                                          [("Kenya", [good_label])]).
  { intros name labels l [Heq | []] Hl _. injection Heq as <- <-.
    destruct Hl as [<- | []]. eexists. reflexivity. }
  apply (proj2 (proj2 (pickle_check_verdict
                         externals [kenya] Worlds.corrupt_world
                         [("Kenya", [good_label])] eq_refl Hun))).
  exists "Kenya", [good_label], good_label.
  repeat split; try (now left). now exists None.
Defined.

(** *** Objects of another class, seen by the closeness check *)

Lemma apply_M_attribute_of {B} (attr : DataInstance -> B)
      (features : list Pickle) (w : World) :
  apply_M (fun f => i <- lift (as_instance f) ;; ret (attr i)) features w
  = (map_result (attribute_of attr) features, w).
Proof.
  induction features as [| f rest IH]; simpl; [reflexivity |].
  unfold bind, lift, ret in *. unfold attribute_of at 1.
  destruct (as_instance f) as [i | e]; [| reflexivity].
  rewrite IH. destruct (map_result (attribute_of attr) rest); reflexivity.
Qed.

Lemma closeness_check_run (E : Externals) (ds : list Dataset) (w : World)
      (dct : list (string * list Label)) :
  loaded_from (disk w) ds [] = Ok dct ->
  run (test_features_for_closeness E ds) w =
  match fold_result (closeness_step E (disk w)) dct 0 with
  | Ok total =>
      if total =? 0 then Ok tt
      else Raise (AssertionError
                    ("Found " ++ str_nat total ++ " mismatched labels+tifs."))
  | Raise e => Raise e
  end.
Proof.
  intro Hload. unfold run, test_features_for_closeness.
  destruct (load_labels_false ds w) as [w' [Hrun [Hdisk _]]].
  unfold bind at 1. rewrite Hrun, Hload.
  destruct (for_each_result (fun v => disk v = disk w)
                            (closeness_step E (disk w)) dct
                            (closeness_of_dataset E))
    with (s := 0) (w := w') as [w2 [Hloop _]].
  - intros e total v _ Hv. unfold closeness_of_dataset, closeness_step.
    destruct (List.length (filter already_exists (snd e)) =? 0).
    + unfold bind, print, ret. cbv beta iota.
      eexists. split; [reflexivity | exact Hv].
    + unfold bind at 1, load_features. rewrite apply_M_read, Hv.
      unfold pickles_of.
      destruct (map_result _ (filter already_exists (snd e)))
        as [features | ex]; [| exists v; split; [reflexivity | exact Hv]].
      unfold bind at 1. rewrite apply_M_attribute_of.
      destruct (map_result (attribute_of instance_lon) features)
        as [lons | ex]; [| exists v; split; [reflexivity | exact Hv]].
      unfold bind at 1. rewrite apply_M_attribute_of.
      destruct (map_result (attribute_of instance_lat) features)
        as [lats | ex]; [| exists v; split; [reflexivity | exact Hv]].
      unfold bind, print, ret. cbv beta iota.
      eexists. split; [reflexivity | exact Hv].
  - exact Hdisk.
  - unfold bind at 1. rewrite Hloop.
    destruct (fold_result _ dct 0) as [total | e]; [| reflexivity].
    rewrite assertTrue_run. reflexivity.
Qed.

Lemma attribute_of_raises {B} (attr : DataInstance -> B) (f : Pickle) (e : exn) :
  attribute_of attr f = Raise e -> e = AttributeError.
Proof.
  destruct f as [i | [i |]]; simpl; try discriminate. now intros [= <-].
Qed.

Lemma attribute_of_has_attributes {B} (attr : DataInstance -> B)
      (pickles : list Pickle) :
  (forallb has_attributes pickles = true ->
   exists vs, map_result (attribute_of attr) pickles = Ok vs)
  /\ (forallb has_attributes pickles = false ->
      map_result (attribute_of attr) pickles = Raise AttributeError).
Proof.
  induction pickles as [| p rest [IHt IHf]]; simpl.
  - split; [now exists [] | discriminate].
  - destruct p as [i | [i |]]; cbn.
    + split.
      * intro H. destruct (IHt H) as [vs ->]. now exists (attr i :: vs).
      * intro H. now rewrite (IHf H).
    + split.
      * intro H. destruct (IHt H) as [vs ->]. now exists (attr i :: vs).
      * intro H. now rewrite (IHf H).
    + split; [discriminate | reflexivity].
Qed.

Lemma pickles_of_attributes (E : Externals) (dk : Disk) (labels : list Label)
      (pickles : list Pickle) :
  pickles_of E dk labels = Ok pickles ->
  forallb has_attributes pickles = forallb (attributes_at_path E dk) labels.
Proof.
  unfold pickles_of. revert pickles.
  induction labels as [| l rest IH]; intros pickles Hp; simpl in Hp.
  - now injection Hp as <-.
  - simpl. unfold attributes_at_path at 1.
    destruct (load_feature E dk (feature_path l)) as [p | e]; [| discriminate].
    destruct (map_result _ rest) as [ps | e]; [| discriminate].
    injection Hp as <-. simpl. now rewrite (IH ps eq_refl).
Qed.

Lemma closeness_step_cases (E : Externals) (dk : Disk)
      (e : string * list Label) (total : nat) :
  (forall l, In l (filter already_exists (snd e)) ->
             exists p, load_feature E dk (feature_path l) = Ok p) ->
  closeness_step E dk e total =
  if forallb (attributes_at_path E dk) (filter already_exists (snd e))
  then Ok total else Raise AttributeError.
Proof.
  intro Hun. unfold closeness_step.
  destruct (pickles_of_unpickled E dk _ Hun) as [pickles [Hp [Hlen _]]].
  rewrite Hp, <- (pickles_of_attributes E dk _ pickles Hp), <- Hlen.
  destruct (forallb has_attributes pickles) eqn:Hall.
  - destruct (List.length pickles =? 0); [reflexivity |].
    destruct (proj1 (attribute_of_has_attributes instance_lon pickles) Hall)
      as [lons ->].
    destruct (proj1 (attribute_of_has_attributes instance_lat pickles) Hall)
      as [lats ->].
    reflexivity.
  - destruct pickles as [| p rest]; [discriminate |]. simpl List.length.
    cbn [Nat.eqb].
    now rewrite (proj2 (attribute_of_has_attributes instance_lon (p :: rest))
                       Hall).
Qed.

Lemma closeness_check_outcome (E : Externals) (ds : list Dataset) (w : World)
      (dct : list (string * list Label)) :
  loaded_from (disk w) ds [] = Ok dct ->
  existing_features_unpickle E (disk w) dct ->
  run (test_features_for_closeness E ds) w =
  if forallb (fun e => forallb (attributes_at_path E (disk w))
                               (filter already_exists (snd e))) dct
  then Ok tt
  else Raise AttributeError.
Proof.
  intros Hload Hun. rewrite (closeness_check_run E ds w dct Hload).
  assert (Hfold : forall total,
             fold_result (closeness_step E (disk w)) dct total
             = if forallb (fun e => forallb (attributes_at_path E (disk w))
                                            (filter already_exists (snd e))) dct
               then Ok total else Raise AttributeError).
  { clear Hload. induction dct as [| e rest IH]; intro total; [reflexivity |].
    simpl. rewrite closeness_step_cases.
    - destruct (forallb (attributes_at_path E (disk w))
                        (filter already_exists (snd e))); [| reflexivity].
      simpl. apply IH. intros n0 ls0 l0 Hin. apply (Hun n0 ls0 l0). now right.
    - intros l0 Hl0. apply filter_In in Hl0 as [Hl0 Hex0].
      destruct e as [n0 ls0].
      apply (Hun n0 ls0 l0); [now left | exact Hl0 | exact Hex0]. }
  rewrite Hfold. destruct (forallb _ dct); reflexivity.
Qed.

(** X9.  The closeness check reads [instance_lon] and [instance_lat] by
    name, with no test of the class of the object.  When the feature
    files of the labels marked already-exists can be unpickled, the
    check passes exactly when each of them holds an object that carries
    the attributes, a [DataInstance] or an object of another class, and
    ends in an [AttributeError] exactly when one of them holds an object
    without them; it never fails.  An object of another class makes the
    artifact-type check fail, whether it carries the attributes or
    not. *)
Theorem closeness_check_reads_by_name
        (E : Externals) (ds : list Dataset) (w : World)
        (dct : list (string * list Label)) :
  run (load_labels ds false) w = Ok dct ->
  existing_features_unpickle E (disk w) dct ->
  (passes (test_features_for_closeness E ds) w
   <-> forall name labels l,
         In (name, labels) dct -> In l labels -> already_exists l = true ->
         exists i,
           load_feature E (disk w) (feature_path l) = Ok (Instance i)
           \/ load_feature E (disk w) (feature_path l)
              = Ok (NotInstance (Some i)))
  /\ (run (test_features_for_closeness E ds) w = Raise AttributeError
      <-> exists name labels l,
            In (name, labels) dct /\ In l labels /\ already_exists l = true
            /\ load_feature E (disk w) (feature_path l)
               = Ok (NotInstance None))
  /\ ~ fails (test_features_for_closeness E ds) w
  /\ ((exists name labels l a,
          In (name, labels) dct /\ In l labels /\ already_exists l = true
          /\ load_feature E (disk w) (feature_path l) = Ok (NotInstance a))
      -> fails (test_each_pickle_file_is_data_instance E ds) w).
Proof.
  intros Hload Hun. rewrite load_labels_false_run in Hload.
  assert (Hart : (exists name labels l a,
                     In (name, labels) dct /\ In l labels
                     /\ already_exists l = true
                     /\ load_feature E (disk w) (feature_path l)
                        = Ok (NotInstance a))
                 -> fails (test_each_pickle_file_is_data_instance E ds) w).
  { intros [name [labels [l [a [He [Hl [Hex Hbad]]]]]]].
    unfold fails. rewrite (pickle_check_outcome E ds w dct Hload Hun).
    replace (forallb _ dct) with false; [reflexivity |].
    symmetry. apply forallb_false_exists. exists (name, labels).
    split; [exact He |]. simpl.
    apply forallb_false_exists. exists l. split.
    - apply filter_In. now split.
    - unfold instance_at_path. now rewrite Hbad. }
  unfold passes, fails at 1.
  rewrite (closeness_check_outcome E ds w dct Hload Hun).
  destruct (forallb _ dct) eqn:Hall.
  - rewrite forallb_forall in Hall.
    assert (Hgood : forall name labels l,
               In (name, labels) dct -> In l labels -> already_exists l = true ->
               exists i,
                 load_feature E (disk w) (feature_path l) = Ok (Instance i)
                 \/ load_feature E (disk w) (feature_path l)
                    = Ok (NotInstance (Some i))).
    { intros name labels l He Hl Hex. specialize (Hall _ He). simpl in Hall.
      rewrite forallb_forall in Hall.
      specialize (Hall l (proj2 (filter_In _ _ _) (conj Hl Hex))).
      unfold attributes_at_path in Hall.
      destruct (load_feature E (disk w) (feature_path l)) as [[i | [i |]] |];
        try discriminate; exists i; [now left | now right]. }
    split; [| split; [| split]].
    + split; [| reflexivity]. intros _. exact Hgood.
    + split; [discriminate |].
      intros [name [labels [l [He [Hl [Hex Hbad]]]]]].
      destruct (Hgood name labels l He Hl Hex) as [i [Hi | Hi]]; congruence.
    + discriminate.
    + exact Hart.
  - apply forallb_false_exists in Hall as [[name labels] [He Hbad]].
    simpl in Hbad. apply forallb_false_exists in Hbad as [l [Hl Hbad]].
    apply filter_In in Hl as [Hl Hex].
    destruct (Hun name labels l He Hl Hex) as [p Hp].
    unfold attributes_at_path in Hbad. rewrite Hp in Hbad.
    destruct p as [i | [i |]]; try discriminate.
    split; [| split; [| split]].
    + split; [discriminate |]. intro Hgood.
      destruct (Hgood name labels l He Hl Hex) as [i [Hi | Hi]]; congruence.
    + split; [| reflexivity]. intros _. now exists name, labels, l.
    + discriminate.
    + exact Hart.
Qed.

Lemma closeness_check_reads_by_name_witness :
  passes (test_features_for_closeness externals [kenya]) Worlds.lookalike_world
  /\ fails (test_each_pickle_file_is_data_instance externals [kenya])
           Worlds.lookalike_world.
Proof.
  assert (Hun : existing_features_unpickle
                  externals (disk Worlds.lookalike_world)
                  [("Kenya", [good_label])]).
  { intros name labels l [Heq | []] Hl _. injection Heq as <- <-.
    destruct Hl as [<- | []]. eexists. reflexivity. }
  destruct (closeness_check_reads_by_name
              externals [kenya] Worlds.lookalike_world
              [("Kenya", [good_label])] eq_refl Hun)
    as [Hpass [_ [_ Hart]]].
  split.
  - apply (proj2 Hpass). intros name labels l [Heq | []] Hl _.
    injection Heq as <- <-. destruct Hl as [<- | []].
    eexists. right. reflexivity.
  - apply Hart.
    exists "Kenya", [good_label], good_label,
      (Some (instance_at (37 # 1)%Q (1 # 1)%Q (Some [24; 18]))).
    repeat split; now left.
Defined.

(** [None] in a feature file: the artifact-type check fails and the
    closeness check ends in an [AttributeError]. *)
Example none_stops_closeness_check :
  fails (test_each_pickle_file_is_data_instance externals [kenya])
        Worlds.corrupt_world
  /\ run (test_features_for_closeness externals [kenya]) Worlds.corrupt_world
     = Raise AttributeError.
Proof. split; reflexivity. Qed.

(** *** Label and feature time steps *)

Lemma ranges_check_run (E : Externals) (ds : list Dataset) (w : World)
      (dct : list (string * list Label)) :
  loaded_from (disk w) ds [] = Ok dct ->
  run (test_label_and_feature_ranges_match E ds) w =
  match fold_result (ranges_step E (disk w)) dct true with
  | Ok flag =>
      if flag then Ok tt
      else Raise (AssertionError
                    "Check logs for which subsets have different sizes.")
  | Raise e => Raise e
  end.
Proof.
  intro Hload. unfold run, test_label_and_feature_ranges_match.
  destruct (load_labels_false ds w) as [w' [Hrun [Hdisk _]]].
  unfold bind at 1. rewrite Hrun, Hload.
  match goal with
  | |- context [for_each dct ?body true] =>
      destruct (for_each_result (fun v => disk v = disk w)
                                (ranges_step E (disk w)) dct body)
        with (s := true) (w := w') as [w2 [Hloop _]]
  end.
  - intros e flag v _ Hv. cbv beta zeta. unfold ranges_step.
    destruct (List.length (filter already_exists (snd e)) =? 0).
    + exists v. split; [reflexivity | exact Hv].
    + unfold bind at 1, load_features. rewrite apply_M_read, Hv.
      unfold pickles_of.
      destruct (map_result _ (filter already_exists (snd e)))
        as [features | ex]; [| exists v; split; [reflexivity | exact Hv]].
      unfold bind at 1. rewrite apply_M_lift.
      destruct (map_result as_instance features)
        as [features_df | ex]; [| exists v; split; [reflexivity | exact Hv]].
      unfold bind at 1. rewrite apply_M_lift.
      destruct (map_result _ features_df)
        as [amounts | ex]; [| exists v; split; [reflexivity | exact Hv]].
      unfold bind at 1, lift at 1.
      destruct (series_eq_all amounts _)
        as [same | ex]; [| exists v; split; [reflexivity | exact Hv]].
      unfold bind, print, ret. cbv beta iota.
      eexists. split; [reflexivity | exact Hv].
  - exact Hdisk.
  - unfold bind at 1. rewrite Hloop.
    destruct (fold_result _ dct true) as [flag | e]; [| reflexivity].
    rewrite assertTrue_run. reflexivity.
Qed.

Lemma series_eq_all_same_length (a b : list nat) :
  List.length a = List.length b ->
  series_eq_all a b = Ok (list_nat_eqb a b).
Proof.
  intro Hlen. unfold series_eq_all. rewrite Hlen, Nat.eqb_refl. f_equal.
  revert b Hlen. induction a as [| x a IH]; intros [| y b] Hlen;
    try discriminate; [reflexivity |].
  simpl. injection Hlen as Hlen. rewrite (IH b Hlen).
  destruct (Nat.eqb_spec x y) as [Hxy | Hne]; simpl.
  - subst. destruct (list_nat_eqb a b) eqn:Hab.
    + apply list_nat_eqb_true in Hab. subst. symmetry.
      now apply list_nat_eqb_true.
    + symmetry. apply not_true_is_false. intro H.
      apply list_nat_eqb_true in H. injection H as H.
      apply list_nat_eqb_true in H. congruence.
  - symmetry. apply not_true_is_false. intro H.
    apply list_nat_eqb_true in H. congruence.
Qed.

Lemma map_result_raises_in {A B} (f : A -> result B) (xs : list A) (e0 : exn) :
  (forall x e, In x xs -> f x = Raise e -> e = e0) ->
  (exists x e, In x xs /\ f x = Raise e) ->
  map_result f xs = Raise e0.
Proof.
  induction xs as [| a rest IH]; intros Honly [x [e [Hin Hx]]];
    [destruct Hin |].
  simpl. destruct (f a) as [y | e'] eqn:Ha.
  - destruct Hin as [-> | Hin]; [congruence |].
    rewrite IH; [reflexivity | | now exists x, e].
    intros x' e1 Hx'. apply Honly. now right.
  - now rewrite (Honly a e' (or_introl eq_refl) Ha).
Qed.

(** What the range check reads of one table whose existing features are
    instances. *)
Lemma instances_read (E : Externals) (dk : Disk) (ls : list Label) :
  (forall l, In l ls ->
             exists i, load_feature E dk (feature_path l) = Ok (Instance i)
                       /\ labelled_array i <> Some []) ->
  exists insts,
    pickles_of E dk ls = Ok (map Instance insts)
    /\ map_result as_instance (map Instance insts) = Ok insts
    /\ List.length insts = List.length ls
    /\ (existsb (null_array_at_path E dk) ls = false ->
        map_result (fun i => array_shape_first (labelled_array i)) insts
        = Ok (flat_map (fun l => match load_feature E dk (feature_path l) with
                                 | Ok (Instance i) =>
                                     match labelled_array i with
                                     | Some (n :: _) => [n]
                                     | _ => []
                                     end
                                 | _ => []
                                 end) ls)
        /\ List.length
             (flat_map (fun l => match load_feature E dk (feature_path l) with
                                 | Ok (Instance i) =>
                                     match labelled_array i with
                                     | Some (n :: _) => [n]
                                     | _ => []
                                     end
                                 | _ => []
                                 end) ls)
           = List.length ls)
    /\ (existsb (null_array_at_path E dk) ls = true ->
        map_result (fun i => array_shape_first (labelled_array i)) insts
        = Raise AttributeError).
Proof.
  unfold pickles_of. induction ls as [| l rest IH]; intro Hall.
  - exists []. repeat split; discriminate.
  - destruct (Hall l (or_introl eq_refl)) as [i [Hi Hshape]].
    destruct IH as [insts [Hload [Hinst [Hlen [Hnone Hsome]]]]].
    { intros l' Hl'. apply Hall. now right. }
    exists (i :: insts).
    assert (Hnull : null_array_at_path E dk l
                    = match labelled_array i with
                      | None => true
                      | Some _ => false
                      end)
      by (unfold null_array_at_path; now rewrite Hi).
    split; [| split; [| split; [| split]]].
    + simpl. now rewrite Hi, Hload.
    + simpl. now rewrite Hinst.
    + simpl. now rewrite Hlen.
    + intro Hex. simpl in Hex. apply orb_false_iff in Hex as [Hl Hrest].
      rewrite Hnull in Hl.
      destruct (labelled_array i) as [[| n dims] |] eqn:Harr;
        try congruence; try discriminate.
      destruct (Hnone Hrest) as [Hsteps Hsl].
      cbn [map_result flat_map]. rewrite Harr, Hi, Harr.
      cbn [array_shape_first shape_first]. rewrite Hsteps.
      split; [reflexivity |]. simpl. now rewrite Hsl.
    + intro Hex. simpl in Hex. rewrite Hnull in Hex.
      cbn [map_result].
      destruct (labelled_array i) as [[| n dims] |] eqn:Harr;
        try congruence; [| reflexivity].
      simpl in Hex. cbn [array_shape_first shape_first].
      now rewrite (Hsome Hex).
Qed.

Lemma ranges_step_cases (E : Externals) (dk : Disk) (e : string * list Label)
      (flag : bool) :
  existing_features_are_instances E dk (snd e) ->
  timesteps_per_label E (snd e) ->
  (existsb (null_array_at_path E dk) (filter already_exists (snd e)) = false ->
   ranges_step E dk e flag
   = Ok (flag && ((List.length (filter already_exists (snd e)) =? 0)
                  || list_nat_eqb
                       (feature_steps E dk (snd e))
                       (get_label_timesteps E (filter already_exists (snd e))))))
  /\ (existsb (null_array_at_path E dk) (filter already_exists (snd e)) = true ->
      ranges_step E dk e flag = Raise AttributeError).
Proof.
  intros Hinst Hts. unfold ranges_step.
  destruct (instances_read E dk (filter already_exists (snd e)) Hinst)
    as [insts [Hload [Has [Hlen [Hnone Hsome]]]]].
  rewrite Hload, Has. split; intro Hnull.
  - destruct (List.length (filter already_exists (snd e)) =? 0) eqn:Hzero.
    + now rewrite orb_true_l, andb_true_r.
    + destruct (Hnone Hnull) as [Hsteps Hsl]. rewrite Hsteps.
      fold (feature_steps E dk (snd e)) in *.
      rewrite series_eq_all_same_length by (rewrite Hsl; symmetry; exact Hts).
      rewrite orb_false_l.
      destruct (list_nat_eqb _ _);
        [now rewrite andb_true_r | now rewrite andb_false_r].
  - destruct (filter already_exists (snd e)) as [| l0 rest] eqn:Hf;
      [discriminate |].
    cbn [List.length Nat.eqb]. now rewrite (Hsome Hnull).
Qed.

(** X10.  When the features of the labels marked already-exists are instances
    with an array and the expected time steps come one per label, the
    time-step check passes exactly when, in every dataset that has such
    labels, the first dimensions of the feature arrays are, label by
    label, the time steps the labels call for; it fails exactly when
    they differ for some dataset. *)
Theorem ranges_check_verdict
        (E : Externals) (ds : list Dataset) (w : World)
        (dct : list (string * list Label)) :
  run (load_labels ds false) w = Ok dct ->
  (forall name labels, In (name, labels) dct ->
                       existing_features_have_steps E (disk w) labels) ->
  (forall name labels, In (name, labels) dct -> timesteps_per_label E labels) ->
  (passes (test_label_and_feature_ranges_match E ds) w
   <-> forall name labels,
         In (name, labels) dct ->
         filter already_exists labels = []
         \/ feature_steps E (disk w) labels
            = get_label_timesteps E (filter already_exists labels))
  /\ (fails (test_label_and_feature_ranges_match E ds) w
      <-> exists name labels,
            In (name, labels) dct
            /\ filter already_exists labels <> []
            /\ feature_steps E (disk w) labels
               <> get_label_timesteps E (filter already_exists labels)).
Proof.
  intros Hload Hsteps Hts. rewrite load_labels_false_run in Hload.
  unfold passes, fails. rewrite (ranges_check_run E ds w dct Hload).
  set (ok := fun e : string * list Label =>
               (List.length (filter already_exists (snd e)) =? 0)
               || list_nat_eqb
                    (feature_steps E (disk w) (snd e))
                    (get_label_timesteps E (filter already_exists (snd e)))).
  rewrite (fold_result_flags (ranges_step E (disk w)) ok).
  2:{ intros [name labels] flag Hin.
      assert (Hinst : existing_features_are_instances E (disk w) labels).
      { intros l Hl. destruct (Hsteps name labels Hin l Hl)
          as [i [n [dims [Hi Harr]]]].
        exists i. split; [exact Hi | rewrite Harr; discriminate]. }
      apply (ranges_step_cases E (disk w) (name, labels) flag Hinst
                               (Hts name labels Hin)).
      apply not_true_is_false. intro Hex.
      apply existsb_exists in Hex as [l [Hl Hnull]].
      destruct (Hsteps name labels Hin l Hl) as [i [n [dims [Hi Harr]]]].
      unfold null_array_at_path in Hnull. rewrite Hi, Harr in Hnull.
      discriminate. }
  assert (Hok : forall name labels,
             ok (name, labels) = true
             <-> filter already_exists labels = []
                 \/ feature_steps E (disk w) labels
                    = get_label_timesteps E (filter already_exists labels)).
  { intros name labels. unfold ok. simpl snd.
    rewrite orb_true_iff, Nat.eqb_eq, length_zero_iff_nil, list_nat_eqb_true.
    reflexivity. }
  simpl andb. destruct (forallb ok dct) eqn:Hall.
  - rewrite forallb_forall in Hall. split.
    + split; [| reflexivity]. intros _ name labels Hin.
      exact (proj1 (Hok name labels) (Hall _ Hin)).
    + split; [discriminate |]. intros [name [labels [Hin [Hne Hdiff]]]].
      destruct (proj1 (Hok name labels) (Hall _ Hin)); contradiction.
  - apply forallb_false_exists in Hall as [[name labels] [Hin Hbad]].
    assert (Hnot : ~ (filter already_exists labels = []
                      \/ feature_steps E (disk w) labels
                         = get_label_timesteps E (filter already_exists labels))).
    { intro H. apply (proj2 (Hok name labels)) in H. congruence. }
    split.
    + split; [discriminate |]. intro H. exfalso. apply Hnot.
      exact (H name labels Hin).
    + split; [| reflexivity]. intros _. exists name, labels.
      repeat split; [exact Hin | |]; intro H; apply Hnot; tauto.
Qed.

Lemma ranges_check_verdict_witness :
  passes (test_label_and_feature_ranges_match externals [kenya]) good_world.
Proof.
  assert (Hsteps : forall name labels,
             In (name, labels) [("Kenya", [good_label])] ->
             existing_features_have_steps externals (disk good_world) labels).
  { intros name labels [Heq | []]. injection Heq as <- <-.
    intros l [<- | []]. eexists _, 24, [18]. split; reflexivity. }
  assert (Hts : forall name labels,
             In (name, labels) [("Kenya", [good_label])] ->
             timesteps_per_label externals labels).
  { intros name labels [Heq | []]. injection Heq as <- <-. reflexivity. }
  apply (proj1 (ranges_check_verdict externals [kenya] good_world
                                     [("Kenya", [good_label])]
                                     eq_refl Hsteps Hts)).
  intros name labels [Heq | []]. injection Heq as <- <-.
  right. reflexivity.
Defined.

(** X11.  A null array stops the time-step check with an [AttributeError]
    (where the historical-completeness check leaves null arrays out):
    when the existing features are instances and the expected time steps
    come one per label, one existing feature with a null array is enough
    for the check to end in that error instead of a verdict. *)
Theorem ranges_check_null_array
        (E : Externals) (ds : list Dataset) (w : World)
        (dct : list (string * list Label))
        (name : string) (labels : list Label) (l : Label) (i : DataInstance) :
  run (load_labels ds false) w = Ok dct ->
  (forall name' labels', In (name', labels') dct ->
                         existing_features_are_instances E (disk w) labels') ->
  (forall name' labels', In (name', labels') dct ->
                         timesteps_per_label E labels') ->
  In (name, labels) dct -> In l labels -> already_exists l = true ->
  load_feature E (disk w) (feature_path l) = Ok (Instance i) ->
  labelled_array i = None ->
  run (test_label_and_feature_ranges_match E ds) w = Raise AttributeError.
Proof.
  intros Hload Hinst Hts He Hl Hex Hi Hnull.
  rewrite load_labels_false_run in Hload.
  rewrite (ranges_check_run E ds w dct Hload).
  assert (Hhas : existsb (null_array_at_path E (disk w))
                         (filter already_exists labels) = true).
  { apply existsb_exists. exists l. split.
    - apply filter_In. now split.
    - unfold null_array_at_path. now rewrite Hi, Hnull. }
  assert (Hfold : forall flag,
             fold_result (ranges_step E (disk w)) dct flag
             = Raise AttributeError).
  { clear Hload. induction dct as [| e rest IH]; intro flag; [destruct He |].
    simpl. destruct e as [n0 ls0].
    destruct (ranges_step_cases E (disk w) (n0, ls0) flag
                                (Hinst n0 ls0 (or_introl eq_refl))
                                (Hts n0 ls0 (or_introl eq_refl)))
      as [Hok Hraise].
    simpl snd in *.
    destruct (existsb (null_array_at_path E (disk w))
                      (filter already_exists ls0)) eqn:Hany.
    - now rewrite (Hraise eq_refl).
    - rewrite (Hok eq_refl). apply IH.
      + intros n1 ls1 Hin. apply (Hinst n1 ls1). now right.
      + intros n1 ls1 Hin. apply (Hts n1 ls1). now right.
      + destruct He as [Heq | He]; [| exact He].
        injection Heq as -> ->. congruence. }
  now rewrite Hfold.
Qed.

Lemma ranges_check_null_array_witness :
  run (test_label_and_feature_ranges_match externals [kenya]) null_world
  = Raise AttributeError.
Proof.
  apply (ranges_check_null_array
           externals [kenya] null_world [("Kenya", [old_label])]
           "Kenya" [old_label] old_label
           (instance_at (37 # 1)%Q (1 # 1)%Q None)).
  - reflexivity.
  - intros name labels [Heq | []]. injection Heq as <- <-.
    intros l [<- | []]. eexists. split; [reflexivity | discriminate].
  - intros name labels [Heq | []]. injection Heq as <- <-. reflexivity.
  - now left.
  - now left.
  - reflexivity.
  - reflexivity.
  - reflexivity.
Defined.

(** *** Start before end *)

Lemma forallb_map_id {A} (f : A -> bool) (l : list A) :
  forallb (fun b => b) (map f l) = forallb f l.
Proof. induction l as [| a rest IH]; simpl; [reflexivity | now rewrite IH]. Qed.

(** Without printing, loading leaves the world as it is. *)
Lemma for_each_load_one_exact (ds : list Dataset) :
  forall acc v,
    for_each ds (load_one false) acc v = (loaded_from (disk v) ds acc, v).
Proof.
  induction ds as [| d0 rest IH]; intros acc v; simpl; [reflexivity |].
  unfold bind at 1. unfold load_one.
  unfold bind at 1. unfold try_except_FileNotFoundError.
  unfold bind at 1. unfold read at 1.
  destruct (load_labels_of d0 (disk v)) as [labels | e]; simpl.
  - apply IH.
  - destruct (is_file_not_found e); simpl; [apply IH | reflexivity].
Qed.

Lemma load_labels_false_exact (ds : list Dataset) (w : World) :
  load_labels ds false w
  = (loaded_from (disk w) ds [],
     mkWorld (disk w) (today w) (stdout w ++ [""])%list).
Proof.
  unfold load_labels, bind, print. cbv beta iota.
  now rewrite for_each_load_one_exact.
Qed.

(** A loop that prints one line per element and lowers a flag. *)
Lemma for_each_print_flag {A} (ok : A -> bool) (line : A -> string)
      (xs : list A) (body : A -> bool -> M bool) :
  (forall x flag v,
      body x flag v
      = (Ok (if ok x then flag else false),
         mkWorld (disk v) (today v) (stdout v ++ [line x])%list)) ->
  forall flag v,
    for_each xs body flag v
    = (Ok (flag && forallb ok xs),
       mkWorld (disk v) (today v) (stdout v ++ map line xs)%list).
Proof.
  intro Hbody. induction xs as [| x rest IH]; intros flag v; simpl.
  - rewrite andb_true_r, app_nil_r. now destruct v.
  - unfold bind. rewrite Hbody, IH. simpl. rewrite <- app_assoc. simpl.
    destruct (ok x); simpl; [reflexivity |].
    now rewrite andb_false_r.
Qed.

(** X12.  The date-order check looks at every label of every loaded dataset,
    computed or not: it passes exactly when each starts before it ends
    and fails exactly when one does not.  Whatever the verdict, it
    prints one line per loaded dataset after the empty line: a failure
    in one dataset does not stop the report on the next. *)
Theorem dates_check_verdict
        (ds : list Dataset) (w : World) (dct : list (string * list Label)) :
  run (load_labels ds false) w = Ok dct ->
  (passes (test_labels_have_start_before_end_date ds) w
   <-> forall name labels l,
         In (name, labels) dct -> In l labels ->
         date_ltb (start l) (end_ l) = true)
  /\ (fails (test_labels_have_start_before_end_date ds) w
      <-> exists name labels l,
            In (name, labels) dct /\ In l labels
            /\ date_ltb (start l) (end_ l) = false)
  /\ List.length (stdout (snd (test_labels_have_start_before_end_date ds w)))
     = List.length (stdout w) + 1 + List.length dct.
Proof.
  intro Hload. rewrite load_labels_false_run in Hload.
  set (ok := fun e : string * list Label =>
               forallb (fun b : bool => b)
                       (map (fun l => date_ltb (start l) (end_ l)) (snd e))).
  assert (Hrun : exists out,
             test_labels_have_start_before_end_date ds w
             = ((if forallb ok dct then Ok tt
                 else Raise (AssertionError
                               "Check logs for which labels have inconsistent dates.")),
                mkWorld (disk w) (today w) out)
             /\ List.length out = List.length (stdout w) + 1 + List.length dct).
  { unfold test_labels_have_start_before_end_date.
    unfold bind at 1. rewrite load_labels_false_exact, Hload.
    match goal with
    | |- context [for_each dct ?body true] =>
        pose proof (fun line H => for_each_print_flag ok line dct body H true)
          as Hloop
    end.
    unfold bind at 1. erewrite Hloop by (intros x flag v; reflexivity).
    rewrite assertTrue_run. simpl andb. cbn [disk today stdout].
    eexists. split; [reflexivity |].
    rewrite !length_app, length_map. simpl. lia. }
  destruct Hrun as [out [Hrun Hout]].
  unfold passes, fails, run. rewrite Hrun. cbn [fst snd stdout].
  split; [| split; [| exact Hout]].
  - destruct (forallb ok dct) eqn:Hall.
    + split; [| reflexivity]. intros _ name labels l He Hl.
      rewrite forallb_forall in Hall. specialize (Hall _ He).
      unfold ok in Hall. rewrite forallb_map_id, forallb_forall in Hall.
      exact (Hall l Hl).
    + split; [discriminate |]. intro Hgood. exfalso.
      apply forallb_false_exists in Hall as [[name labels] [He Hbad]].
      unfold ok in Hbad. rewrite forallb_map_id in Hbad.
      apply forallb_false_exists in Hbad as [l [Hl Hbad]].
      rewrite (Hgood name labels l He Hl) in Hbad. discriminate.
  - destruct (forallb ok dct) eqn:Hall.
    + split; [discriminate |]. intros [name [labels [l [He [Hl Hbad]]]]].
      exfalso. rewrite forallb_forall in Hall. specialize (Hall _ He).
      unfold ok in Hall. rewrite forallb_map_id, forallb_forall in Hall.
      rewrite (Hall l Hl) in Hbad. discriminate.
    + split; [| reflexivity]. intros _.
      apply forallb_false_exists in Hall as [[name labels] [He Hbad]].
      unfold ok in Hbad. rewrite forallb_map_id in Hbad.
      apply forallb_false_exists in Hbad as [l [Hl Hbad]].
      now exists name, labels, l.
Qed.

Lemma dates_check_verdict_witness :
  fails (test_labels_have_start_before_end_date [kenya; togo])
        Worlds.backwards_world
  /\ List.length
       (stdout (snd (test_labels_have_start_before_end_date
                       [kenya; togo] Worlds.backwards_world)))
     = 3.
Proof.
  destruct (dates_check_verdict
              [kenya; togo] Worlds.backwards_world
              [("Kenya", [Worlds.backwards_label]); ("Togo", [Worlds.togo_label])]
              eq_refl)
    as [_ [Hfails Hlines]].
  split; [| exact Hlines].
  apply (proj2 Hfails).
  exists "Kenya", [Worlds.backwards_label], Worlds.backwards_label.
  repeat split; now left.
Defined.

(** *** The subset-size check, in terms of files *)

Lemma forallb_filter {A} (f g : A -> bool) (l : list A) :
  forallb f l = true -> forallb f (filter g l) = true.
Proof.
  rewrite !forallb_forall. intros H x Hx. apply filter_In in Hx as [Hx _].
  now apply H.
Qed.

Lemma features_in_subset_recomputed (dk : Disk) (s : string)
      (labels : list Label) :
  features_in_subset s (recomputed_already_exists dk labels)
  = List.length (filter (fun l => path_exists dk (feature_path l))
                        (filter (fun l => String.eqb (subset l) s) labels)).
Proof.
  unfold features_in_subset, recomputed_already_exists.
  induction labels as [| l rest IH]; simpl; [reflexivity |].
  destruct (String.eqb (subset l) s); simpl; [| exact IH].
  destruct (path_exists dk (feature_path l)); simpl; now rewrite IH.
Qed.

Lemma subsets_match_by_files (dk : Disk) (labels : list Label) :
  subsets_match (refresh_already_exists dk labels) = true
  <-> forallb already_exists labels = true
      \/ forall l, In l labels -> path_exists dk (feature_path l) = true.
Proof.
  rewrite subsets_match_true.
  destruct (forallb already_exists labels) eqn:Hall.
  - split; [now left |]. intros _ s Hs.
    unfold refresh_already_exists. rewrite Hall. simpl negb. cbv iota.
    unfold count_subset, features_in_subset.
    now rewrite (filter_all already_exists) by now apply forallb_filter.
  - assert (Href : refresh_already_exists dk labels
                   = recomputed_already_exists dk labels)
      by (unfold refresh_already_exists; now rewrite Hall).
    rewrite Href. split.
    + intro Hcount. right. intros l Hl.
      specialize (Hcount (subset l) (in_map subset labels l Hl)).
      rewrite features_in_subset_recomputed in Hcount. unfold count_subset in Hcount.
      symmetry in Hcount. apply filter_length_forallb in Hcount.
      rewrite forallb_forall in Hcount. apply Hcount.
      apply filter_In. split; [exact Hl | apply String.eqb_refl].
    + intros [Hfalse | Hfiles] s Hs; [discriminate |].
      rewrite features_in_subset_recomputed. unfold count_subset.
      symmetry. apply filter_length_forallb, forallb_forall.
      intros l Hl. apply filter_In in Hl as [Hl _]. now apply Hfiles.
Qed.

(** X13.  In terms of files: the subset-size check passes exactly when every
    loaded dataset either has all its labels marked already-exists (the
    disk is then not looked at) or has the feature file of every one of
    its labels on disk. *)
Theorem subset_check_passes_by_files
        (ds : list Dataset) (w w' : World) (dct : list (string * list Label)) :
  load_labels ds true w = (Ok dct, w') ->
  passes (test_label_feature_subset_amounts ds) w
  <-> forall name labels,
        In (name, labels) dct ->
        forallb already_exists labels = true
        \/ forall l, In l labels -> path_exists (disk w) (feature_path l) = true.
Proof.
  intro Hload. unfold passes. rewrite (subset_check_run ds w w' dct Hload).
  destruct (forallb _ dct) eqn:Hall.
  - split; [| reflexivity]. intros _ name labels He.
    rewrite forallb_forall in Hall. specialize (Hall _ He). simpl in Hall.
    now apply subsets_match_by_files.
  - split; [discriminate |]. intro Hgood. exfalso.
    apply forallb_false_exists in Hall as [[name labels] [He Hbad]].
    simpl in Hbad.
    rewrite (proj2 (subsets_match_by_files (disk w) labels) (Hgood name labels He))
      in Hbad.
    discriminate.
Qed.

Lemma subset_check_passes_by_files_witness :
  ~ passes (test_label_feature_subset_amounts [kenya]) Worlds.pending_world.
Proof.
  intro Hpass.
  pose proof (proj1 (subset_check_passes_by_files
                       [kenya] Worlds.pending_world
                       (mkWorld (disk Worlds.pending_world) some_day
                                [""; "Kenya: 2"])
                       [("Kenya", [good_label; Worlds.pending_label])]
                       eq_refl) Hpass
                    "Kenya" [good_label; Worlds.pending_label]
                    (or_introl eq_refl)) as [Hall | Hfiles].
  - discriminate.
  - specialize (Hfiles Worlds.pending_label (or_intror (or_introl eq_refl))).
    discriminate.
Defined.

(** *** The cutoff of the historical-completeness check *)

(** X14.  Which labels count as old depends on the current month only, not on
    the day: the date they are compared with is the first day of the
    month 27 months back. *)
Theorem older_labels_same_month (t t' : Date) (labels : list Label) :
  year t = year t' -> month t = month t' ->
  two_years_before_cutoff t = add_months (mkDate (year t) (month t) 1) (-27)
  /\ older_labels t labels = older_labels t' labels.
Proof.
  intros Hy Hm.
  assert (Hcut : two_years_before_cutoff t = two_years_before_cutoff t').
  { rewrite !two_years_before_cutoff_first_of_month.
    unfold replace_day_1. now rewrite Hy, Hm. }
  split.
  - apply two_years_before_cutoff_first_of_month.
  - unfold older_labels. now rewrite Hcut.
Qed.

Lemma older_labels_same_month_witness :
  two_years_before_cutoff (mkDate 2026 11 3) = mkDate 2024 8 1
  /\ older_labels (mkDate 2026 11 3) [good_label; recent_label]
     = older_labels (mkDate 2026 11 30) [good_label; recent_label].
Proof.
  destruct (older_labels_same_month (mkDate 2026 11 3) (mkDate 2026 11 30)
                                    [good_label; recent_label]
                                    eq_refl eq_refl) as [Hcut Hsame].
  split; [rewrite Hcut; reflexivity | exact Hsame].
Defined.

(** *** The coordinate-duplication report *)

Lemma same_coordinates_refl (c : Q * Q) : same_coordinates c c = true.
Proof.
  unfold same_coordinates.
  rewrite !(proj2 (Qeq_bool_iff _ _) (Qeq_refl _)). reflexivity.
Qed.

Lemma unique_by_nil {A} (eqb : A -> A -> bool) (l : list A) :
  unique_by eqb l = [] <-> l = [].
Proof. destruct l; simpl; split; intro H; try reflexivity; discriminate. Qed.

Lemma map_nil {A B} (f : A -> B) (l : list A) : map f l = [] <-> l = [].
Proof. destruct l; simpl; split; intro H; try reflexivity; discriminate. Qed.

(** X15.  The report lists nothing exactly when no two labels, of the same
    dataset or of two, have the same longitude and latitude: every row
    differs in coordinates from every other row. *)
Theorem spill_over_table_empty (rows : list (string * Label)) :
  spill_over_table rows = []
  <-> forall pre r post other,
        rows = (pre ++ r :: post)%list -> In other (pre ++ post)%list ->
        same_coordinates (label_coordinates r) (label_coordinates other) = false.
Proof.
  unfold spill_over_table, groupby_coordinates.
  rewrite map_nil, map_nil, unique_by_nil, map_nil.
  unfold duplicated_keep_false. rewrite filter_nil_iff.
  split.
  - intros Hcount pre r post other Hsplit Hother.
    assert (Hr : In r rows) by (rewrite Hsplit; apply in_elt).
    specialize (Hcount r Hr). apply Nat.leb_gt in Hcount.
    rewrite Hsplit in Hcount. rewrite filter_app in Hcount. simpl in Hcount.
    rewrite same_coordinates_refl in Hcount.
    rewrite length_app in Hcount. simpl in Hcount.
    set (same := fun r' => same_coordinates (label_coordinates r)
                                            (label_coordinates r')) in *.
    destruct (same other) eqn:Hsame; [| exact Hsame]. exfalso.
    apply in_app_or in Hother as [Hin | Hin].
    + assert (Hf : In other (filter same pre)) by (apply filter_In; now split).
      destruct (filter same pre); [destruct Hf | simpl in Hcount; lia].
    + assert (Hf : In other (filter same post)) by (apply filter_In; now split).
      destruct (filter same post); [destruct Hf | simpl in Hcount; lia].
  - intros Hdistinct r Hr. apply Nat.leb_gt.
    destruct (in_split r rows Hr) as [pre [post Hsplit]].
    rewrite Hsplit at 1. rewrite filter_app. simpl.
    rewrite same_coordinates_refl. rewrite length_app. simpl.
    assert (Hpre : filter (fun r' => same_coordinates (label_coordinates r)
                                                      (label_coordinates r')) pre
                   = []).
    { apply filter_nil_iff. intros x Hx.
      apply (Hdistinct pre r post x Hsplit). apply in_or_app. now left. }
    assert (Hpost : filter (fun r' => same_coordinates (label_coordinates r)
                                                       (label_coordinates r')) post
                    = []).
    { apply filter_nil_iff. intros x Hx.
      apply (Hdistinct pre r post x Hsplit). apply in_or_app. now right. }
    rewrite Hpre, Hpost. simpl. lia.
Qed.

(** X16.  As soon as one dataset loads, the report passes whatever the labels
    are, changes nothing on disk, and prints exactly four lines after the
    empty one: the three header lines and the table of the coordinates
    shared by several labels across all the loaded datasets. *)
Theorem duplication_report_output
        (E : Externals) (ds : list Dataset) (w : World)
        (dct : list (string * list Label)) :
  run (load_labels ds false) w = Ok dct ->
  dct <> [] ->
  test_label_coordinate_duplication E ds w
  = (Ok tt,
     mkWorld (disk w) (today w)
             (stdout w ++
              [ ""; "------------------------------------------------------";
                "Label coordinate spill over";
                "------------------------------------------------------";
                repr_spill_over E (spill_over_table (named_rows dct)) ])%list).
Proof.
  intros Hload Hne. rewrite load_labels_false_run in Hload.
  unfold test_label_coordinate_duplication.
  unfold bind at 1. rewrite load_labels_false_exact, Hload.
  destruct dct as [| e rest]; [congruence |].
  unfold bind, lift, print, concat. cbn [map]. cbv beta iota.
  cbn [disk today stdout]. repeat rewrite <- app_assoc. reflexivity.
Qed.

Lemma duplication_report_output_witness :
  stdout (snd (test_label_coordinate_duplication
                 externals [kenya; togo] Worlds.shared_world))
  = [ ""; "------------------------------------------------------";
      "Label coordinate spill over";
      "------------------------------------------------------";
      "Kenya,Togo training,testing 2020,2019" ].
Proof.
  rewrite (duplication_report_output
             externals [kenya; togo] Worlds.shared_world
             [("Kenya", [good_label]); ("Togo", [Worlds.shared_label])]
             eq_refl ltac:(discriminate)).
  reflexivity.
Defined.

Lemma spill_over_table_empty_witness :
  same_coordinates (label_coordinates ("Kenya", good_label))
                   (label_coordinates ("Togo", Worlds.togo_label)) = false.
Proof.
  apply (proj1 (spill_over_table_empty
                  [("Kenya", good_label); ("Togo", Worlds.togo_label)])
               eq_refl
               [] ("Kenya", good_label) [("Togo", Worlds.togo_label)]
               ("Togo", Worlds.togo_label) eq_refl).
  now left.
Defined.

End DatasetCheckProperties.
